(** * Murajaah: the FSRS scheduling core, the grouping engine, the due-set
      selector and the review session, embedded from the TypeScript sources.

    Numbers.  A JavaScript [number] is an IEEE-754 double.  The scheduling
    code uses [Math.exp], [Math.log] and [Math.pow], which have no
    computable counterpart, so the scheduler is embedded over the type
    [num] below: a real number, or one of the three special values
    [Infinity], [-Infinity] and [NaN], with the propagation rules of
    ECMAScript written out (division by zero, [0 * Infinity], comparisons
    with [NaN], ...).  Finite results are the exact real results: decimal
    literals are read as the rationals they denote, and rounding to 53
    bits, overflow of finite operations and the sign of zero (every zero
    is read as [+0]) are not modelled.  The session retention, which only
    divides and multiplies, is embedded over binary64 floats. *)

From Stdlib Require Import Reals Lra Lia ZArith List Bool String.
From Stdlib Require Import Sorting.Sorted Sorting.Permutation.
From Stdlib Require Import Floats.PrimFloat.
From Stdlib Require Uint63.
From Stdlib Require Ascii.
Import ListNotations.

Set Implicit Arguments.

(* ================================================================== *)
(** ** JavaScript numbers *)
(* ================================================================== *)

Module JsNum.

Local Open Scope R_scope.

Inductive num : Type :=
| Fin (x : R)
| PInf
| NInf
| NaN.

(** Sign of a real, as the three-way [comparison] with zero. *)
Definition Rsign (x : R) : comparison :=
  if Rlt_dec 0 x then Gt else if Rlt_dec x 0 then Lt else Eq.

Definition flip (c : comparison) : comparison := CompOpp c.

(** The infinity of a given sign; the sign [Eq] (a zero factor) is [NaN]. *)
Definition inf_of (c : comparison) : num :=
  match c with Gt => PInf | Lt => NInf | Eq => NaN end.

Definition neg (a : num) : num :=
  match a with
  | Fin x => Fin (- x)
  | PInf => NInf
  | NInf => PInf
  | NaN => NaN
  end.

Definition add (a b : num) : num :=
  match a, b with
  | NaN, _ | _, NaN => NaN
  | Fin x, Fin y => Fin (x + y)
  | PInf, NInf | NInf, PInf => NaN
  | PInf, _ | _, PInf => PInf
  | NInf, _ | _, NInf => NInf
  end.

Definition sub (a b : num) : num := add a (neg b).

Definition mul (a b : num) : num :=
  match a, b with
  | NaN, _ | _, NaN => NaN
  | Fin x, Fin y => Fin (x * y)
  | Fin x, PInf | PInf, Fin x => inf_of (Rsign x)
  | Fin x, NInf | NInf, Fin x => inf_of (flip (Rsign x))
  | PInf, PInf | NInf, NInf => PInf
  | PInf, NInf | NInf, PInf => NInf
  end.

(** [a / b]: a finite value divided by zero is an infinity of the sign of
    the numerator, and [0 / 0] is [NaN]. *)
Definition div (a b : num) : num :=
  match a, b with
  | NaN, _ | _, NaN => NaN
  | Fin x, Fin y =>
      if Req_dec_T y 0 then inf_of (Rsign x) else Fin (x / y)
  | Fin _, PInf | Fin _, NInf => Fin 0
  | PInf, Fin y => if Rlt_dec y 0 then NInf else PInf
  | NInf, Fin y => if Rlt_dec y 0 then PInf else NInf
  | PInf, PInf | PInf, NInf | NInf, PInf | NInf, NInf => NaN
  end.

(** [Math.exp]. *)
Definition jexp (a : num) : num :=
  match a with
  | Fin x => Fin (exp x)
  | PInf => PInf
  | NInf => Fin 0
  | NaN => NaN
  end.

(** [Math.log]. *)
Definition jlog (a : num) : num :=
  match a with
  | Fin x =>
      match Rsign x with
      | Gt => Fin (ln x)
      | Eq => NInf
      | Lt => NaN
      end
  | PInf => PInf
  | NInf => NaN
  | NaN => NaN
  end.

(** Is the real an integer, and which one. *)
Definition as_int (y : R) : option Z :=
  if Req_dec_T (IZR (Int_part y)) y then Some (Int_part y) else None.

(** [Math.pow base e]. *)
Definition jpow (b e : num) : num :=
  match e with
  | NaN => NaN
  | Fin y =>
      match Rsign y with
      | Eq => Fin 1
      | sy =>
          match b with
          | NaN => NaN
          | Fin x =>
              match Rsign x with
              | Gt => Fin (Rpower x y)
              | Eq => match sy with Gt => Fin 0 | _ => PInf end
              | Lt => match as_int y with
                      | Some n => Fin (powerRZ x n)
                      | None => NaN
                      end
              end
          | PInf => match sy with Gt => PInf | _ => Fin 0 end
          | NInf =>
              match sy with
              | Gt => match as_int y with
                      | Some n => if Z.odd n then NInf else PInf
                      | None => PInf
                      end
              | _ => Fin 0
              end
          end
      end
  | PInf =>
      match b with
      | NaN => NaN
      | Fin x => match Rsign (Rabs x - 1) with
                 | Gt => PInf | Eq => NaN | Lt => Fin 0 end
      | PInf | NInf => PInf
      end
  | NInf =>
      match b with
      | NaN => NaN
      | Fin x => match Rsign (Rabs x - 1) with
                 | Gt => Fin 0 | Eq => NaN | Lt => PInf end
      | PInf | NInf => Fin 0
      end
  end.

(** [Math.round]: the nearest integer, ties towards [+Infinity]. *)
Definition jround (a : num) : num :=
  match a with
  | Fin x => Fin (IZR (Int_part (x + / 2)))
  | other => other
  end.

(** [a <= b], [a < b] and [a > b]; every comparison with [NaN] is false. *)
Definition le (a b : num) : bool :=
  match a, b with
  | NaN, _ | _, NaN => false
  | Fin x, Fin y => if Rle_dec x y then true else false
  | NInf, _ | _, PInf => true
  | _, _ => false
  end.

Definition lt (a b : num) : bool :=
  match a, b with
  | NaN, _ | _, NaN => false
  | Fin x, Fin y => if Rlt_dec x y then true else false
  | PInf, _ | _, NInf => false
  | _, _ => true
  end.

Definition gt (a b : num) : bool := lt b a.

(** [Math.max] and [Math.min] of two arguments. *)
Definition jmax (a b : num) : num :=
  match a, b with
  | NaN, _ | _, NaN => NaN
  | _, _ => if le a b then b else a
  end.

Definition jmin (a b : num) : num :=
  match a, b with
  | NaN, _ | _, NaN => NaN
  | _, _ => if le a b then a else b
  end.

Definition is_finite (a : num) : bool :=
  match a with Fin _ => true | _ => false end.

(** Truncation towards zero, used by the [Date] constructor. *)
Definition Rtrunc (x : R) : R :=
  if Rle_dec 0 x then IZR (Int_part x) else - IZR (Int_part (- x)).

End JsNum.

Export JsNum.

(** A [Date] is its time value in milliseconds; [NaN] is "Invalid Date". *)
Record Date : Type := mkDate { getTime : num }.

(** [new Date(v)]: the time value is clipped: truncated to an integer, and
    invalid beyond +-8.64e15 ms or when [v] is not finite. *)
Definition newDate (v : num) : Date :=
  match v with
  | Fin x =>
      if Rle_dec (Rabs x) 8640000000000000
      then mkDate (Fin (Rtrunc x)) else mkDate NaN
  | _ => mkDate NaN
  end.

(* ================================================================== *)
(** ** The ISO-8601 text of a date ([Date.prototype.toISOString]) *)
(* ================================================================== *)

(** The store keeps dates as the text written by [toISOString], and the
    due-set queries compare those texts: the text is embedded as a
    [string], built from the time value with the calendar functions of
    ECMAScript ([Day], [DayFromYear], [YearFromTime], [InLeapYear],
    [MonthFromTime], [DateFromTime], ...). *)
Module IsoText.

Local Open Scope Z_scope.

Definition msPerDay : Z := 86400000.

(** [DayFromYear(y)]: the day number of the first day of year [y]. *)
Definition DayFromYear (y : Z) : Z :=
  365 * (y - 1970) + (y - 1969) / 4 - (y - 1901) / 100 + (y - 1601) / 400.

(** [YearFromTime]: the largest year that starts on or before the day;
    an estimate from the mean length of a year, corrected by one. *)
Definition YearFromDay (day : Z) : Z :=
  let y := 1970 + (400 * day) / 146097 in
  if DayFromYear (y + 1) <=? day then y + 1
  else if DayFromYear y <=? day then y
  else y - 1.

(** [InLeapYear]: 1 in a leap year and 0 otherwise. *)
Definition InLeapYear (y : Z) : Z :=
  if (y mod 4 =? 0) && negb (y mod 100 =? 0) || (y mod 400 =? 0)
  then 1 else 0.

(** [MonthFromTime], from the day within the year; January is 0. *)
Definition MonthFromDay (d leap : Z) : Z :=
  if d <? 31 then 0
  else if d <? 59 + leap then 1
  else if d <? 90 + leap then 2
  else if d <? 120 + leap then 3
  else if d <? 151 + leap then 4
  else if d <? 181 + leap then 5
  else if d <? 212 + leap then 6
  else if d <? 243 + leap then 7
  else if d <? 273 + leap then 8
  else if d <? 304 + leap then 9
  else if d <? 334 + leap then 10
  else 11.

(** [DateFromTime]: the day of the month, from 1. *)
Definition DateFromDay (d leap : Z) : Z :=
  match MonthFromDay d leap with
  | 0 => d + 1
  | 1 => d - 30
  | 2 => d - 58 - leap
  | 3 => d - 89 - leap
  | 4 => d - 119 - leap
  | 5 => d - 150 - leap
  | 6 => d - 180 - leap
  | 7 => d - 211 - leap
  | 8 => d - 242 - leap
  | 9 => d - 272 - leap
  | 10 => d - 303 - leap
  | _ => d - 333 - leap
  end.

(** The character of a decimal digit, and the [k] low digits of [n]
    written in front of [rest] (zero-padded). *)
Definition digit (n : Z) : Ascii.ascii :=
  Ascii.ascii_of_nat (48 + Z.to_nat (n mod 10)).

Fixpoint digits (k : nat) (n : Z) (rest : string) : string :=
  match k with
  | O => rest
  | S k' => digits k' (n / 10) (String (digit n) rest)
  end.

(** [YYYY-MM-DDTHH:mm:ss.sssZ] for the years 0 to 9999, and the expanded
    form with a sign and six digits of year otherwise; [t] is a time
    value in the range of [Date]. *)
Definition iso_of_ms (t : Z) : string :=
  let day := t / msPerDay in
  let ms := t mod msPerDay in
  let y := YearFromDay day in
  let d := day - DayFromYear y in
  let leap := InLeapYear y in
  let time :=
    digits 2 (ms / 3600000)
      (":" ++ digits 2 ((ms / 60000) mod 60)
         (":" ++ digits 2 ((ms / 1000) mod 60)
            ("." ++ digits 3 (ms mod 1000) "Z")))%string in
  let date :=
    ("-" ++ digits 2 (MonthFromDay d leap + 1)
       ("-" ++ digits 2 (DateFromDay d leap) ("T" ++ time)))%string in
  if (0 <=? y) && (y <=? 9999) then digits 4 y date
  else if y <? 0 then ("-" ++ digits 6 (- y) date)%string
  else ("+" ++ digits 6 y date)%string.

End IsoText.

Export IsoText.

(** The text [toISOString] returns for a date; [None] for an invalid
    date, on which it throws. *)
Definition iso_text (d : Date) : option string :=
  match getTime d with
  | Fin x => Some (iso_of_ms (Int_part x))
  | _ => None
  end.

(* ================================================================== *)
(** ** The FSRS engine (services/fsrs) *)
(* ================================================================== *)

Inductive CardState : Type := new | learning | review | relearning.

Definition CardState_eqb (a b : CardState) : bool :=
  match a, b with
  | new, new | learning, learning | review, review
  | relearning, relearning => true
  | _, _ => false
  end.

(** [type Rating = 1 | 2 | 3 | 4]. *)
Inductive Rating : Type := Again | Hard | Good | Easy.

Definition rating_value (r : Rating) : Z :=
  match r with Again => 1 | Hard => 2 | Good => 3 | Easy => 4 end.

Record FSRSParameters : Type := mkParams {
  w : list num;
  requestRetention : num
}.

(** [w[i]]: an index past the end of the array reads [undefined], which
    every arithmetic operation turns into [NaN]. *)
Definition widx (ws : list num) (i : nat) : num := nth i ws NaN.

(** [FSRSCard]; [SchedulingInfo] is the spread copy of a card, so the
    result of scheduling carries the same fields. *)
Record FSRSCard : Type := mkCard {
  state : CardState;
  easeFactor : num;
  stability : num;
  difficulty : num;
  lapses : num;
  lastReview : option Date;
  dueDate : option Date;
  interval : num
}.

Definition set_state (s : CardState) (c : FSRSCard) : FSRSCard :=
  mkCard s (easeFactor c) (stability c) (difficulty c) (lapses c)
         (lastReview c) (dueDate c) (interval c).
Definition set_stability (v : num) (c : FSRSCard) : FSRSCard :=
  mkCard (state c) (easeFactor c) v (difficulty c) (lapses c)
         (lastReview c) (dueDate c) (interval c).
Definition set_difficulty (v : num) (c : FSRSCard) : FSRSCard :=
  mkCard (state c) (easeFactor c) (stability c) v (lapses c)
         (lastReview c) (dueDate c) (interval c).
Definition set_lapses (v : num) (c : FSRSCard) : FSRSCard :=
  mkCard (state c) (easeFactor c) (stability c) (difficulty c) v
         (lastReview c) (dueDate c) (interval c).
Definition set_lastReview (d : option Date) (c : FSRSCard) : FSRSCard :=
  mkCard (state c) (easeFactor c) (stability c) (difficulty c) (lapses c)
         d (dueDate c) (interval c).
Definition set_dueDate (d : option Date) (c : FSRSCard) : FSRSCard :=
  mkCard (state c) (easeFactor c) (stability c) (difficulty c) (lapses c)
         (lastReview c) d (interval c).
Definition set_interval (v : num) (c : FSRSCard) : FSRSCard :=
  mkCard (state c) (easeFactor c) (stability c) (difficulty c) (lapses c)
         (lastReview c) (dueDate c) v.

Local Open Scope R_scope.

Definition DEFAULT_PARAMETERS : FSRSParameters :=
  {| w := [ Fin (4 / 10); Fin (6 / 10); Fin (24 / 10); Fin (94 / 100);
            Fin (86 / 100); Fin (101 / 100); Fin (13 / 10); Fin (7 / 10);
            Fin 1; Fin 1; Fin (9 / 10); Fin (2 / 10) ];
     requestRetention := Fin (9 / 10) |}.

Definition initializeCard : FSRSCard :=
  {| state := new; easeFactor := Fin (25 / 10); stability := Fin 0;
     difficulty := Fin 0; lapses := Fin 0; lastReview := None;
     dueDate := None; interval := Fin 0 |}.

(** Milliseconds in a day, [24 * 60 * 60 * 1000]. *)
Definition DAY_MS : num := Fin (24 * 60 * 60 * 1000).

Definition memoryRetention (stab elapsedDays : num) (ws : list num) : num :=
  if le elapsedDays (Fin 0) then Fin 1
  else jexp (div (mul (jlog (Fin (9 / 10))) elapsedDays) stab).

Definition nextInterval (stab reqRetention : num) : num :=
  if le stab (Fin 0) then Fin 0
  else
    let interval :=
      jround (div (mul stab (jlog reqRetention)) (jlog (Fin (9 / 10)))) in
    jmax (Fin 1) interval.

(** [Math.min(Math.max(0, d), 1)]. *)
Definition clamp01 (d : num) : num := jmin (jmax (Fin 0) d) (Fin 1).

(** [new Date(now.getTime() + days * 24 * 60 * 60 * 1000)]. *)
Definition date_plus_days (now : Date) (days : num) : Date :=
  newDate (add (getTime now) (mul days DAY_MS)).

Definition scheduleReview (card : FSRSCard) (rating : Rating) (now : Date)
    (params : FSRSParameters) : FSRSCard :=
  let ws := w params in
  let rr := requestRetention params in
  let result := card in
  let elapsedDays :=
    match lastReview card with
    | Some last => div (sub (getTime now) (getTime last)) DAY_MS
    | None => Fin 0
    end in
  let result :=
    if CardState_eqb (state card) new
    then set_stability (widx ws 0) (set_difficulty (widx ws 1) result)
    else result in
  (* stability after a successful review with factor [w[k]] *)
  let grown (k : nat) :=
    let retrievability := memoryRetention (stability card) elapsedDays ws in
    mul (mul (stability card) (widx ws k))
        (jpow retrievability (neg (widx ws 2))) in
  let reschedule (s : num) (r : FSRSCard) :=
    let r := set_stability s r in
    let r := set_interval (nextInterval s rr) r in
    set_dueDate (Some (date_plus_days now (interval r))) r in
  let fixed (days : num) (r : FSRSCard) :=
    set_dueDate (Some (date_plus_days now days)) (set_interval days r) in
  let result :=
    match rating with
    | Again =>
        let result :=
          match state card with
          | new | learning => set_state learning result
          | _ => set_lapses (add (lapses result) (Fin 1))
                            (set_state relearning result)
          end in
        let result :=
          if gt (stability result) (Fin 0)
          then set_stability (mul (stability result) (widx ws 3)) result
          else result in
        let result :=
          set_difficulty (clamp01 (add (difficulty result) (widx ws 7)))
                         result in
        set_dueDate (Some now) (set_interval (Fin 0) result)
    | Hard =>
        let result :=
          match state card with
          | new => fixed (Fin 1) (set_state learning result)
          | learning | relearning => fixed (Fin 1) result
          | review =>
              let result := set_stability (grown 4%nat) result in
              let result :=
                set_difficulty
                  (clamp01 (add (difficulty result) (widx ws 8))) result in
              let result :=
                set_interval (nextInterval (grown 4%nat) rr) result in
              set_dueDate (Some (date_plus_days now (interval result)))
                          result
          end in
        set_state (match state card with
                   | relearning => review
                   | s => s
                   end) result
    | Good =>
        let result :=
          match state card with
          | new | learning => fixed (Fin 1) (set_state review result)
          | relearning => reschedule (grown 5%nat) (set_state review result)
          | review => reschedule (grown 5%nat) result
          end in
        set_difficulty (clamp01 (add (difficulty result) (widx ws 9))) result
    | Easy =>
        let result :=
          match state card with
          | new | learning | relearning =>
              fixed (Fin 4) (set_state review result)
          | review => reschedule (grown 6%nat) result
          end in
        set_difficulty (clamp01 (add (difficulty result) (widx ws 10))) result
    end in
  set_lastReview (Some now) result.

(** The retention of a card ([calculateRetention] of the FSRS module). *)
Definition cardRetention (card : FSRSCard) (now : Date)
    (params : FSRSParameters) : num :=
  match lastReview card with
  | None => Fin 0
  | Some last =>
      if CardState_eqb (state card) new then Fin 0
      else memoryRetention (stability card)
             (div (sub (getTime now) (getTime last)) DAY_MS) (w params)
  end.

Definition isDue (card : FSRSCard) (now : Date) : bool :=
  if CardState_eqb (state card) new then true
  else match dueDate card with
       | None => false
       | Some d => le (getTime d) (getTime now)
       end.

(** The stability of the card after the ratings Again, Good, Good with the
    default parameters, the second Good one day after the first: the
    expression the code evaluates, [0.4 * 0.94 * 1.01 * R ^ (-2.4)] with
    [R = exp (ln 0.9 * 1 / (0.4 * 0.94))]. *)
Definition S3 : R :=
  4 / 10 * (94 / 100) * (101 / 100) *
  Rpower (exp (ln (9 / 10) * 1 / (4 / 10 * (94 / 100)))) (- (24 / 10)).

Definition calculateOptimalIntervals (card : FSRSCard) (now : Date)
    (params : FSRSParameters) : list (Rating * num) :=
  map (fun r => (r, interval (scheduleReview card r now params)))
      [Again; Hard; Good; Easy].

Local Close Scope R_scope.

(* ================================================================== *)
(** ** Records of the data model (types/index.ts) *)
(* ================================================================== *)

(** Identifiers are UUID strings produced by [uuidv4()]; they are only
    ever compared for equality, and are embedded as natural numbers drawn
    from a counter, so that two generated identifiers never coincide. *)
Definition uuid : Type := nat.

Record ReviewEntry : Type := mkReviewEntry {
  re_date : Date;
  re_rating : Rating;
  re_elapsedTime : option num;
  re_previousInterval : num;
  re_scheduledInterval : num
}.

Record AyahProgress : Type := mkAyahProgress {
  ap_id : uuid;
  ap_surahNumber : Z;
  ap_ayahNumber : Z;
  ap_groupId : uuid;
  ap_recallScore : num;
  ap_lastReviewed : option Date;
  ap_nextReview : option Date;
  ap_easeFactor : num;
  ap_stability : num;
  ap_difficulty : num;
  ap_lapses : num;
  ap_state : CardState;
  ap_interval : num;
  ap_createdAt : Date;
  ap_history : list ReviewEntry;
  ap_testWithGroup : bool;
  ap_groupPosition : Z
}.

Inductive GroupType : Type := fixed | ruku | page | custom.

Definition GroupType_eqb (a b : GroupType) : bool :=
  match a, b with
  | fixed, fixed | ruku, ruku | page, page | custom, custom => true
  | _, _ => false
  end.

Inductive GroupState : Type := g_new | g_learning | g_review | g_complete.

Record AyahGroup : Type := mkAyahGroup {
  ag_id : uuid;
  ag_surahNumber : Z;
  startAyah : Z;
  endAyah : Z;
  groupType : GroupType;
  ag_progress : Z;
  ag_state : GroupState;
  ayahIds : list uuid;
  testAsGroup : bool
}.

Record RatingsTally : Type := mkTally {
  again : Z;
  hard : Z;
  good : Z;
  easy : Z
}.

Record SessionStatistics : Type := mkStats {
  ss_id : uuid;
  ss_date : Date;
  ss_totalReviewed : Z;
  ss_newLearned : Z;
  ss_reviewTime : Z;
  ss_ratings : RatingsTally;
  ss_retention : float
}.

(** The fields of [UserSettings] read by the core. *)
Record UserSettings : Type := mkSettings {
  reviewLimit : Z;
  newAyahsPerDay : Z;
  groupingSize : Z;
  maxReviewsPerSession : Z
}.

(** A row of [quran_surahs]; the [rukus] and [pages] columns hold JSON
    text: [None] stands for text that [JSON.parse] rejects. *)
Record SurahRow : Type := mkSurahRow {
  sr_number : Z;
  sr_ayahCount : Z;
  sr_rukus : option (list Z);
  sr_pages : option (list Z)
}.

(** A row of [quran_ayahs]; [ruku] and [page] are nullable columns. *)
Record AyahRow : Type := mkAyahRow {
  ar_surahNumber : Z;
  ar_ayahNumber : Z;
  ar_ruku : option Z;
  ar_page : option Z
}.

(** The [Surah] object handed to the grouping engine. *)
Record Surah : Type := mkSurah {
  number : Z;
  ayahCount : Z;
  rukus : list Z;
  pages : list Z
}.

(* ================================================================== *)
(** ** The store, the clock and the effects (services/database) *)
(* ================================================================== *)

Record DB : Type := mkDB {
  ayah_progress : list AyahProgress;
  ayah_groups : list AyahGroup;
  session_statistics : list SessionStatistics;
  settings : option UserSettings;
  quran_surahs : list SurahRow;
  quran_ayahs : list AyahRow
}.

(** The environment of the asynchronous code: the database, the device
    clock (the successive values of [new Date()], in milliseconds), the
    supply of identifiers, a fault plan saying which calls of
    [executeQuery] / [executeUpdate] reject, and the content provider
    [fetchAyahsForSurah], which either rejects ([None]) or leaves new
    contents in the two Quran tables. *)
Record World : Type := mkWorld {
  db : DB;
  ticks : nat -> Z;
  reads : nat;
  next_uuid : nat;
  faults : nat -> bool;
  calls : nat;
  provider : Z -> DB -> option (list SurahRow * list AyahRow)
}.

Inductive outcome (A : Type) : Type :=
| Returned (a : A)
| Thrown (msg : string).

Arguments Returned {A} a.
Arguments Thrown {A} msg.

(** Asynchronous, throwing computations over the world. *)
Definition M (A : Type) : Type := World -> outcome A * World.

Definition ret {A} (a : A) : M A := fun w => (Returned a, w).

Definition bind {A B} (m : M A) (k : A -> M B) : M B :=
  fun w => match m w with
           | (Returned a, w') => k a w'
           | (Thrown e, w') => (Thrown e, w')
           end.

Definition throw {A} (msg : string) : M A := fun w => (Thrown msg, w).

(** [try { body } catch (error) { handler }]. *)
Definition try_catch {A} (body : M A) (handler : M A) : M A :=
  fun w => match body w with
           | (Returned a, w') => (Returned a, w')
           | (Thrown _, w') => handler w'
           end.

Declare Scope monad_scope.
Delimit Scope monad_scope with monad.
Notation "x <- m ;; k" := (bind m (fun x => k))
  (at level 61, m at next level, right associativity) : monad_scope.
Notation "m ;;; k" := (bind m (fun _ => k))
  (at level 61, right associativity) : monad_scope.
Local Open Scope monad_scope.

Definition set_db (d : DB) (w : World) : World :=
  mkWorld d (ticks w) (reads w) (next_uuid w) (faults w) (calls w)
          (provider w).

Definition count_call (w : World) : World :=
  mkWorld (db w) (ticks w) (reads w) (next_uuid w) (faults w) (S (calls w))
          (provider w).

(** [executeQuery]: the SQL text is embedded as the function it computes
    on the tables. *)
Definition executeQuery {A} (q : DB -> A) : M A :=
  fun w => if faults w (calls w)
           then (Thrown "storage query failed", count_call w)
           else (Returned (q (db w)), count_call w).

Definition executeUpdate (u : DB -> DB) : M unit :=
  fun w => if faults w (calls w)
           then (Thrown "storage update failed", count_call w)
           else (Returned tt, set_db (u (db w)) (count_call w)).

(** [new Date()]. *)
Definition dateNow : M Date :=
  fun w => (Returned (mkDate (Fin (IZR (ticks w (reads w))))),
            mkWorld (db w) (ticks w) (S (reads w)) (next_uuid w) (faults w)
                    (calls w) (provider w)).

(** [uuidv4()]. *)
Definition uuidv4 : M uuid :=
  fun w => (Returned (next_uuid w),
            mkWorld (db w) (ticks w) (reads w) (S (next_uuid w)) (faults w)
                    (calls w) (provider w)).

(** [for (const x of xs) { await f(x) }], collecting the results. *)
Fixpoint for_each {A B} (f : A -> M B) (xs : list A) : M (list B) :=
  match xs with
  | [] => ret []
  | x :: rest => y <- f x ;; ys <- for_each f rest ;; ret (y :: ys)
  end.

(* ================================================================== *)
(** ** Settings and item records (services/database) *)
(* ================================================================== *)

Definition set_settings (s : option UserSettings) (d : DB) : DB :=
  mkDB (ayah_progress d) (ayah_groups d) (session_statistics d) s
       (quran_surahs d) (quran_ayahs d).

Definition set_ayah_progress (rows : list AyahProgress) (d : DB) : DB :=
  mkDB rows (ayah_groups d) (session_statistics d) (settings d)
       (quran_surahs d) (quran_ayahs d).

Definition set_ayah_groups (rows : list AyahGroup) (d : DB) : DB :=
  mkDB (ayah_progress d) rows (session_statistics d) (settings d)
       (quran_surahs d) (quran_ayahs d).

Definition set_session_statistics (rows : list SessionStatistics) (d : DB)
  : DB :=
  mkDB (ayah_progress d) (ayah_groups d) rows (settings d)
       (quran_surahs d) (quran_ayahs d).

Definition set_quran (rows : list SurahRow * list AyahRow) (d : DB) : DB :=
  mkDB (ayah_progress d) (ayah_groups d) (session_statistics d) (settings d)
       (fst rows) (snd rows).

Definition defaultSettings : UserSettings :=
  {| reviewLimit := 50; newAyahsPerDay := 5; groupingSize := 5;
     maxReviewsPerSession := 20 |}.

Definition createDefaultSettings : M UserSettings :=
  _ <- dateNow ;;
  executeUpdate (set_settings (Some defaultSettings)) ;;;
  ret defaultSettings.

Definition getSettings : M UserSettings :=
  rows <- executeQuery settings ;;
  match rows with
  | None => createDefaultSettings
  | Some s => ret s
  end.

(** A stable sort, for [ORDER BY] and [Array.prototype.sort]. *)
Fixpoint insert_by {A} (leb : A -> A -> bool) (x : A) (l : list A) : list A :=
  match l with
  | [] => [x]
  | y :: rest => if leb x y then x :: l else y :: insert_by leb x rest
  end.

Definition sort_by {A} (leb : A -> A -> bool) (l : list A) : list A :=
  fold_right (insert_by leb) [] l.

(** [CASE WHEN state = 'new' THEN 1 ... ELSE 4 END]. *)
Definition state_priority (s : CardState) : Z :=
  match s with new => 1 | learning => 2 | relearning => 3 | review => 4 end.

(** SQL [a <= b] on two TEXT values, the byte-wise comparison of the
    default collation; a NULL operand makes the result NULL, which
    selects nothing. *)
Definition text_le (a b : option string) : bool :=
  match a, b with
  | Some s, Some t => String.leb s t
  | _, _ => false
  end.

(** Ascending order on the [nextReview] column, NULL first.  The column
    holds the ISO text of the date, and the texts are what is compared. *)
Definition nextReview_leb (a b : option Date) : bool :=
  match a, b with
  | None, _ => true
  | Some _, None => false
  | Some x, Some y =>
      match iso_text x, iso_text y with
      | None, _ => true
      | Some _, None => false
      | Some s, Some t => String.leb s t
      end
  end.

Definition due_order_leb (a b : AyahProgress) : bool :=
  let pa := state_priority (ap_state a) in
  let pb := state_priority (ap_state b) in
  ((pa <? pb) || ((pa =? pb) && nextReview_leb (ap_nextReview a)
                                               (ap_nextReview b)))%Z.

(** [WHERE nextReview IS NULL OR nextReview <= ?]: the column holds the
    text written by [toISOString], the parameter is
    [new Date().toISOString()]. *)
Definition due_at (now : Date) (r : AyahProgress) : bool :=
  match ap_nextReview r with
  | None => true
  | Some d => text_le (iso_text d) (iso_text now)
  end.

(** The [LIMIT ?] clause, present only when [limit] is truthy; a negative
    limit is no bound in SQLite. *)
Definition apply_limit {A} (limit : option Z) (rows : list A) : list A :=
  match limit with
  | Some n => if (0 <? n)%Z then firstn (Z.to_nat n) rows else rows
  | None => rows
  end.

Definition getDueAyahs (limit : option Z) : M (list AyahProgress) :=
  now <- dateNow ;;
  executeQuery (fun d =>
    apply_limit limit
      (sort_by due_order_leb (filter (due_at now) (ayah_progress d)))).

Definition card_of_progress (p : AyahProgress) : FSRSCard :=
  {| state := ap_state p;
     easeFactor := ap_easeFactor p;
     stability := ap_stability p;
     difficulty := ap_difficulty p;
     lapses := ap_lapses p;
     lastReview := ap_lastReviewed p;
     dueDate := ap_nextReview p;
     interval := ap_interval p |}.

(** [Date.prototype.toISOString], which throws on an invalid date. *)
Definition toISOString (d : Date) : M Date :=
  if is_finite (getTime d) then ret d
  else throw "RangeError: Invalid time value".

(** The progress object after a review at [now]. *)
Definition updatedProgress (currentProgress : AyahProgress) (rating : Rating)
    (elapsedTime : option num) (now : Date) : AyahProgress :=
  let card := card_of_progress currentProgress in
  let scheduled := scheduleReview card rating now DEFAULT_PARAMETERS in
  let reviewEntry :=
    {| re_date := now; re_rating := rating; re_elapsedTime := elapsedTime;
       re_previousInterval := ap_interval currentProgress;
       re_scheduledInterval := interval scheduled |} in
  let history := ap_history currentProgress ++ [reviewEntry] in
  let goodRatings :=
    List.length (filter (fun e => (3 <=? rating_value (re_rating e))%Z)
                        history) in
  let recallScore :=
    if (0 <? List.length history)%nat
    then mul (div (Fin (INR goodRatings)) (Fin (INR (List.length history))))
             (Fin 100)
    else Fin 0 in
  {| ap_id := ap_id currentProgress;
     ap_surahNumber := ap_surahNumber currentProgress;
     ap_ayahNumber := ap_ayahNumber currentProgress;
     ap_groupId := ap_groupId currentProgress;
     ap_recallScore := recallScore;
     ap_lastReviewed := Some now;
     ap_nextReview := dueDate scheduled;
     ap_easeFactor := easeFactor scheduled;
     ap_stability := stability scheduled;
     ap_difficulty := difficulty scheduled;
     ap_lapses := lapses scheduled;
     ap_state := state scheduled;
     ap_interval := interval scheduled;
     ap_createdAt := ap_createdAt currentProgress;
     ap_history := history;
     ap_testWithGroup := ap_testWithGroup currentProgress;
     ap_groupPosition := ap_groupPosition currentProgress |}.

(** [UPDATE ayah_progress SET recallScore = ?, ... WHERE id = ?]: the ten
    listed columns of every row with that id. *)
Definition write_progress (u : AyahProgress) (r : AyahProgress)
  : AyahProgress :=
  if (ap_id r =? ap_id u)%nat then
    {| ap_id := ap_id r;
       ap_surahNumber := ap_surahNumber r;
       ap_ayahNumber := ap_ayahNumber r;
       ap_groupId := ap_groupId r;
       ap_recallScore := ap_recallScore u;
       ap_lastReviewed := ap_lastReviewed u;
       ap_nextReview := ap_nextReview u;
       ap_easeFactor := ap_easeFactor u;
       ap_stability := ap_stability u;
       ap_difficulty := ap_difficulty u;
       ap_lapses := ap_lapses u;
       ap_state := ap_state u;
       ap_interval := ap_interval u;
       ap_createdAt := ap_createdAt r;
       ap_history := ap_history u;
       ap_testWithGroup := ap_testWithGroup r;
       ap_groupPosition := ap_groupPosition r |}
  else r.

Definition updateAyahProgress (id : uuid) (rating : Rating)
    (elapsedTime : option num) : M AyahProgress :=
  rows <- executeQuery (fun d =>
            filter (fun r => (ap_id r =? id)%nat) (ayah_progress d)) ;;
  match rows with
  | [] => throw "Ayah progress not found"
  | currentProgress :: _ =>
      now <- dateNow ;;
      let updated := updatedProgress currentProgress rating elapsedTime now in
      _ <- toISOString now ;;
      _ <- match ap_nextReview updated with
           | Some d => toISOString d
           | None => ret now
           end ;;
      executeUpdate (fun d =>
        set_ayah_progress (map (write_progress updated) (ayah_progress d)) d)
      ;;;
      ret updated
  end.

(** [INSERT INTO ayah_progress]: the table has [id] as primary key and the
    constraint [UNIQUE(surahNumber, ayahNumber)]; an insert that breaks
    either is rejected. *)
Definition progress_conflict (r x : AyahProgress) : bool :=
  (ap_id x =? ap_id r)%nat
  || ((ap_surahNumber x =? ap_surahNumber r)%Z
      && (ap_ayahNumber x =? ap_ayahNumber r)%Z).

Definition insertProgress (r : AyahProgress) : M unit :=
  fun w =>
    if faults w (calls w)
    then (Thrown "storage update failed", count_call w)
    else if existsb (progress_conflict r) (ayah_progress (db w))
    then (Thrown "UNIQUE constraint failed", count_call w)
    else (Returned tt,
          set_db (set_ayah_progress (ayah_progress (db w) ++ [r]) (db w))
                 (count_call w)).


(* ================================================================== *)
(** ** The due-set selector (services/scheduler) *)
(* ================================================================== *)

(** A JavaScript [Map]: an association list in insertion order; [set] on
    a present key replaces the value in place. *)
Section JsMap.
Context {K V : Type} (eqb : K -> K -> bool).

Fixpoint amap_get (k : K) (m : list (K * V)) : option V :=
  match m with
  | [] => None
  | (k', v) :: rest => if eqb k' k then Some v else amap_get k rest
  end.

Fixpoint amap_set (k : K) (v : V) (m : list (K * V)) : list (K * V) :=
  match m with
  | [] => [(k, v)]
  | (k', v') :: rest =>
      if eqb k' k then (k, v) :: rest else (k', v') :: amap_set k v rest
  end.

Definition amap_has (k : K) (m : list (K * V)) : bool :=
  match amap_get k m with Some _ => true | None => false end.
End JsMap.

(** One step of the [forEach] that fills [groupMap]. *)
Definition group_step (groupMap : list (uuid * list AyahProgress))
    (ayah : AyahProgress) : list (uuid * list AyahProgress) :=
  if ap_testWithGroup ayah then
    let groupMap :=
      if amap_has Nat.eqb (ap_groupId ayah) groupMap then groupMap
      else amap_set Nat.eqb (ap_groupId ayah) [] groupMap in
    match amap_get Nat.eqb (ap_groupId ayah) groupMap with
    | Some members =>
        amap_set Nat.eqb (ap_groupId ayah) (members ++ [ayah]) groupMap
    | None => groupMap
    end
  else amap_set Nat.eqb (ap_id ayah) [ayah] groupMap.

Definition build_groupMap (ayahs : list AyahProgress)
  : list (uuid * list AyahProgress) :=
  fold_left group_step ayahs [].

Record DueCounts : Type := mkDueCounts {
  due_count : Z;
  new_count : Z;
  learning_count : Z;
  review_count : Z
}.

Definition zeroCounts : DueCounts := mkDueCounts 0 0 0 0.

(** One step of the [forEach] that counts the states of the groups; an
    empty member list has no first element and reading its state throws. *)
Definition count_step (acc : option (Z * Z * Z))
    (entry : uuid * list AyahProgress) : option (Z * Z * Z) :=
  match acc, snd entry with
  | Some (n, l, r), firstAyah :: _ =>
      match ap_state firstAyah with
      | new => Some (n + 1, l, r)
      | review => Some (n, l, r + 1)
      | _ => Some (n, l + 1, r)
      end%Z
  | _, _ => None
  end.

(** The [try] block of [getTodayDueReviews]. *)
Definition getTodayDueReviews_body : M DueCounts :=
  _ <- getSettings ;;
  now <- dateNow ;;
  dueAyahs <- executeQuery (fun d =>
                filter (due_at now) (ayah_progress d)) ;;
  match dueAyahs with
  | [] => ret zeroCounts
  | _ =>
      let groupMap := build_groupMap dueAyahs in
      match fold_left count_step groupMap (Some (0, 0, 0)%Z) with
      | Some (newCount, learningCount, reviewCount) =>
          ret (mkDueCounts (Z.of_nat (List.length groupMap))
                           newCount learningCount reviewCount)
      | None => throw "TypeError: undefined is not an object"
      end
  end.

Definition getTodayDueReviews : M DueCounts :=
  try_catch getTodayDueReviews_body (ret zeroCounts).

(** [ORDER BY groupPosition ASC]. *)
Definition position_leb (a b : AyahProgress) : bool :=
  (ap_groupPosition a <=? ap_groupPosition b)%Z.

(** The loop of [getSessionAyahs]: the accumulator is the list built so
    far and the set of groups already expanded. *)
Fixpoint session_loop (dueAyahs : list AyahProgress)
    (processedAyahs : list AyahProgress) (processedGroupIds : list uuid)
  : M (list AyahProgress) :=
  match dueAyahs with
  | [] => ret processedAyahs
  | ayah :: rest =>
      if ap_testWithGroup ayah
         && negb (existsb (Nat.eqb (ap_groupId ayah)) processedGroupIds)
      then
        groupAyahs <- executeQuery (fun d =>
                        sort_by position_leb
                          (filter (fun r => (ap_groupId r =? ap_groupId ayah)%nat)
                                  (ayah_progress d))) ;;
        session_loop rest (processedAyahs ++ groupAyahs)
                     (ap_groupId ayah :: processedGroupIds)
      else if negb (ap_testWithGroup ayah)
      then session_loop rest (processedAyahs ++ [ayah]) processedGroupIds
      else session_loop rest processedAyahs processedGroupIds
  end.

(** The [try] block of [getSessionAyahs]. *)
Definition getSessionAyahs_body : M (list AyahProgress) :=
  settings <- getSettings ;;
  let limit := reviewLimit settings in
  dueAyahs <- getDueAyahs (Some limit) ;;
  session_loop dueAyahs [] [].

Definition getSessionAyahs : M (list AyahProgress) :=
  try_catch getSessionAyahs_body (ret []).

(** Some storage call made between the worlds [w] and [w'] rejected. *)
Definition fault_between (w w' : World) : Prop :=
  exists n, (calls w <= n < calls w')%nat /\ faults w n = true.

(** No storage call ever rejects. *)
Definition fault_free (w : World) : Prop := forall n, faults w n = false.

(** Worlds that differ in the database, the counters and nothing else. *)
Definition same_env (w w' : World) : Prop :=
  faults w' = faults w /\ provider w' = provider w /\ ticks w' = ticks w.

(** A computation whose returning runs met no rejected storage call (and
    leave the fault plan alone). *)
Definition clean_returns {A} (m : M A) : Prop :=
  forall w a w', m w = (Returned a, w') ->
    faults w' = faults w /\ (calls w <= calls w')%nat /\
    forall n, (calls w <= n < calls w')%nat -> faults w n = false.

(* ================================================================== *)
(** ** Session statistics (services/scheduler, contexts/SessionContext) *)
(* ================================================================== *)

Definition float_of_Z (z : Z) : float :=
  PrimFloat.of_uint63 (Uint63.of_Z z).

(** [calculateRetention] of the session context, on binary64 floats. *)
Definition calculateRetention (ratings : RatingsTally) : float :=
  let total := (again ratings + hard ratings + good ratings + easy ratings)%Z in
  if (total =? 0)%Z then 0%float
  else
    let passed := (hard ratings + good ratings + easy ratings)%Z in
    ((float_of_Z passed / float_of_Z total) * 100)%float.

Definition zeroTally : RatingsTally := mkTally 0 0 0 0.

Definition createSessionStatistics : M SessionStatistics :=
  id <- uuidv4 ;;
  now <- dateNow ;;
  let sessionStats :=
    {| ss_id := id; ss_date := now; ss_totalReviewed := 0;
       ss_newLearned := 0; ss_reviewTime := 0; ss_ratings := zeroTally;
       ss_retention := 0%float |} in
  executeUpdate (fun d =>
    set_session_statistics (session_statistics d ++ [sessionStats]) d) ;;;
  ret sessionStats.

(** The [Partial<SessionStatistics>] passed by [endSession]. *)
Record StatsUpdate : Type := mkStatsUpdate {
  su_totalReviewed : Z;
  su_newLearned : Z;
  su_reviewTime : Z;
  su_ratings : RatingsTally;
  su_retention : float
}.

Definition merge_stats (currentStats : SessionStatistics) (stats : StatsUpdate)
  : SessionStatistics :=
  {| ss_id := ss_id currentStats; ss_date := ss_date currentStats;
     ss_totalReviewed := su_totalReviewed stats;
     ss_newLearned := su_newLearned stats;
     ss_reviewTime := su_reviewTime stats;
     ss_ratings := su_ratings stats;
     ss_retention := su_retention stats |}.

Definition updateSessionStatistics (id : uuid) (stats : StatsUpdate)
  : M SessionStatistics :=
  rows <- executeQuery (fun d =>
            filter (fun r => (ss_id r =? id)%nat) (session_statistics d)) ;;
  match rows with
  | [] => throw "Session statistics not found"
  | currentStats :: _ =>
      let updatedStats := merge_stats currentStats stats in
      executeUpdate (fun d =>
        set_session_statistics
          (map (fun r => if (ss_id r =? id)%nat
                         then merge_stats r stats else r)
               (session_statistics d)) d) ;;;
      ret updatedStats
  end.

(* ================================================================== *)
(** ** The review session (contexts/SessionContext) *)
(* ================================================================== *)

(** The React state of [SessionProvider].  A handler reads the values of
    the render it was created in and queues updates; the functions below
    take the state of that render ([s]) and return the state once the
    queued updates are applied. *)
Record SessionState : Type := mkSession {
  isActive : bool;
  ayahs : list AyahProgress;
  ayahIndex : Z;
  currentAyah : option AyahProgress;
  sessionStats : option SessionStatistics;
  uniqueGroups : list uuid;
  uniqueGroupIndex : Z;
  totalReviewed : Z;
  newLearned : Z;
  elapsedTime : Z;
  ayahStartTime : option Date;
  timer : bool;
  summaryRoute : option uuid
}.

Definition setTimer (v : bool) (p : SessionState) : SessionState :=
  mkSession (isActive p) (ayahs p) (ayahIndex p) (currentAyah p)
    (sessionStats p) (uniqueGroups p) (uniqueGroupIndex p) (totalReviewed p)
    (newLearned p) (elapsedTime p) (ayahStartTime p) v (summaryRoute p).
Definition setSessionStats (v : option SessionStatistics) (p : SessionState)
  : SessionState :=
  mkSession (isActive p) (ayahs p) (ayahIndex p) (currentAyah p)
    v (uniqueGroups p) (uniqueGroupIndex p) (totalReviewed p)
    (newLearned p) (elapsedTime p) (ayahStartTime p) (timer p)
    (summaryRoute p).
Definition setTotalReviewed (v : Z) (p : SessionState) : SessionState :=
  mkSession (isActive p) (ayahs p) (ayahIndex p) (currentAyah p)
    (sessionStats p) (uniqueGroups p) (uniqueGroupIndex p) v
    (newLearned p) (elapsedTime p) (ayahStartTime p) (timer p)
    (summaryRoute p).
Definition setNewLearned (v : Z) (p : SessionState) : SessionState :=
  mkSession (isActive p) (ayahs p) (ayahIndex p) (currentAyah p)
    (sessionStats p) (uniqueGroups p) (uniqueGroupIndex p) (totalReviewed p)
    v (elapsedTime p) (ayahStartTime p) (timer p) (summaryRoute p).
Definition setAyahIndex (v : Z) (p : SessionState) : SessionState :=
  mkSession (isActive p) (ayahs p) v (currentAyah p)
    (sessionStats p) (uniqueGroups p) (uniqueGroupIndex p) (totalReviewed p)
    (newLearned p) (elapsedTime p) (ayahStartTime p) (timer p)
    (summaryRoute p).
Definition setUniqueGroupIndex (v : Z) (p : SessionState) : SessionState :=
  mkSession (isActive p) (ayahs p) (ayahIndex p) (currentAyah p)
    (sessionStats p) (uniqueGroups p) v (totalReviewed p)
    (newLearned p) (elapsedTime p) (ayahStartTime p) (timer p)
    (summaryRoute p).
Definition routerPush (id : uuid) (p : SessionState) : SessionState :=
  mkSession (isActive p) (ayahs p) (ayahIndex p) (currentAyah p)
    (sessionStats p) (uniqueGroups p) (uniqueGroupIndex p) (totalReviewed p)
    (newLearned p) (elapsedTime p) (ayahStartTime p) (timer p) (Some id).

(** The block "Reset session state" of [endSession]. *)
Definition clearSession (p : SessionState) : SessionState :=
  mkSession false [] (-1) None None [] (-1) (totalReviewed p)
    (newLearned p) (elapsedTime p) (ayahStartTime p) (timer p)
    (summaryRoute p).

Definition endSession (s : SessionState) (latestTotalReviewed : option Z)
    (latestRatings : option RatingsTally) (p : SessionState)
  : M SessionState :=
  let p := if timer s then setTimer false p else p in
  try_catch
    (p <- match sessionStats s with
          | Some stats =>
              let finalTotalReviewed :=
                match latestTotalReviewed with
                | Some n => n
                | None => totalReviewed s
                end in
              let finalRatings :=
                match latestRatings with
                | Some r => r
                | None => ss_ratings stats
                end in
              _ <- updateSessionStatistics (ss_id stats)
                     {| su_totalReviewed := finalTotalReviewed;
                        su_newLearned := newLearned s;
                        su_reviewTime := elapsedTime s;
                        su_ratings := finalRatings;
                        su_retention := calculateRetention finalRatings |} ;;
              ret (routerPush (ss_id stats) p)
          | None => ret p
          end ;;
     ret (clearSession p))
    (ret p).

(** [ayahs.findIndex(...)] of [goToNextAyah]; [None] is the result -1. *)
Fixpoint findIndex {A} (f : A -> bool) (l : list A) : option nat :=
  match l with
  | [] => None
  | x :: rest => if f x then Some 0%nat else option_map S (findIndex f rest)
  end.

Definition len {A} (l : list A) : Z := Z.of_nat (List.length l).

Definition goToNextAyah (s : SessionState) (p : SessionState) : SessionState :=
  if (len (ayahs s) - 1 <=? ayahIndex s)%Z then p
  else
    match currentAyah s with
    | Some cur =>
        if ap_testWithGroup cur then
          if (uniqueGroupIndex s <? len (uniqueGroups s) - 1)%Z then
            let p := setUniqueGroupIndex (uniqueGroupIndex s + 1) p in
            let nextGroupId :=
              nth_error (uniqueGroups s) (Z.to_nat (uniqueGroupIndex s + 1)) in
            let nextGroupIndex :=
              match nextGroupId with
              | Some g =>
                  findIndex (fun a =>
                    (ap_testWithGroup a && (ap_groupId a =? g)%nat)
                    || (negb (ap_testWithGroup a) && (ap_id a =? g)%nat))
                    (ayahs s)
              | None => None
              end in
            match nextGroupIndex with
            | Some i => setAyahIndex (Z.of_nat i) p
            | None => setAyahIndex (ayahIndex s + 1) p
            end
          else p
        else
          let p := setAyahIndex (ayahIndex s + 1) p in
          if (uniqueGroupIndex s <? len (uniqueGroups s) - 1)%Z
          then setUniqueGroupIndex (uniqueGroupIndex s + 1) p
          else p
    | None =>
        let p := setAyahIndex (ayahIndex s + 1) p in
        if (uniqueGroupIndex s <? len (uniqueGroups s) - 1)%Z
        then setUniqueGroupIndex (uniqueGroupIndex s + 1) p
        else p
    end.

(** The tally after one more rating. *)
Definition bump_tally (rating : Rating) (t : RatingsTally) : RatingsTally :=
  match rating with
  | Again => mkTally (again t + 1) (hard t) (good t) (easy t)
  | Hard => mkTally (again t) (hard t + 1) (good t) (easy t)
  | Good => mkTally (again t) (hard t) (good t + 1) (easy t)
  | Easy => mkTally (again t) (hard t) (good t) (easy t + 1)
  end.

(** The siblings of the current item among the session items. *)
Definition groupAyahs_of (s : SessionState) (cur : AyahProgress)
  : list AyahProgress :=
  filter (fun a => (ap_groupId a =? ap_groupId cur)%nat
                   && ap_testWithGroup a
                   && negb (ap_id a =? ap_id cur)%nat)
         (ayahs s).

Definition rateAyah (rating : Rating) (s : SessionState) : M SessionState :=
  match currentAyah s with
  | None => ret s
  | Some cur =>
      try_catch
        (elapsed <- match ayahStartTime s with
                    | Some t0 =>
                        now <- dateNow ;;
                        ret (sub (getTime now) (getTime t0))
                    | None => ret (Fin 0)
                    end ;;
         _ <- updateAyahProgress (ap_id cur) rating (Some elapsed) ;;
         _ <- (if ap_testWithGroup cur
               then for_each (fun groupAyah =>
                      updateAyahProgress (ap_id groupAyah) rating
                                         (Some elapsed))
                      (groupAyahs_of s cur)
               else ret []) ;;
         let updatedRatings :=
           match sessionStats s with
           | Some stats => bump_tally rating (ss_ratings stats)
           | None => zeroTally
           end in
         let p :=
           match sessionStats s with
           | Some stats =>
               setSessionStats
                 (Some (mkStats (ss_id stats) (ss_date stats)
                          (ss_totalReviewed stats) (ss_newLearned stats)
                          (ss_reviewTime stats) updatedRatings
                          (ss_retention stats))) s
           | None => s
           end in
         let newTotalReviewed := (totalReviewed s + 1)%Z in
         let p := setTotalReviewed newTotalReviewed p in
         let p := if CardState_eqb (ap_state cur) new
                  then setNewLearned (newLearned p + 1) p else p in
         let isLastAyah := (len (ayahs s) - 1 <=? ayahIndex s)%Z in
         let isLastGroup :=
           (len (uniqueGroups s) - 1 <=? uniqueGroupIndex s)%Z in
         if isLastAyah || (ap_testWithGroup cur && isLastGroup)
         then endSession s (Some newTotalReviewed) (Some updatedRatings) p
         else ret (goToNextAyah s p))
        (ret s)
  end.

(* ================================================================== *)
(** ** The grouping engine (utils/groupings) *)
(* ================================================================== *)

Definition set_rukus (v : list Z) (s : Surah) : Surah :=
  mkSurah (number s) (ayahCount s) v (pages s).
Definition set_pages (v : list Z) (s : Surah) : Surah :=
  mkSurah (number s) (ayahCount s) (rukus s) v.

Definition is_empty {A} (l : list A) : bool :=
  match l with [] => true | _ => false end.

(** [fetchAyahsForSurah] of the content provider: it rejects, or resolves
    after writing the Quran tables. *)
Definition fetchAyahsForSurah (surahNumber : Z) : M unit :=
  fun w => match provider w surahNumber (db w) with
           | Some q => (Returned tt, set_db (set_quran q (db w)) w)
           | None => (Thrown "fetch failed", w)
           end.

(** The guarded block "fetch the ayahs, then re-read the surah row":
    [wantRukus] / [wantPages] say which columns the caller parses, in that
    order.  A rejected fetch, a rejected query and unparsable JSON are all
    caught, and leave the surah as it is at that point. *)
Definition refresh_boundaries (wantRukus wantPages : bool) (surah : Surah)
  : M Surah :=
  try_catch
    (fetchAyahsForSurah (number surah) ;;;
     updatedSurah <- executeQuery (fun d =>
                       filter (fun r => (sr_number r =? number surah)%Z)
                              (quran_surahs d)) ;;
     match updatedSurah with
     | row :: _ =>
         let parsed_rukus :=
           if wantRukus then option_map (fun v => set_rukus v surah)
                                        (sr_rukus row)
           else Some surah in
         match parsed_rukus with
         | None => ret surah
         | Some surah1 =>
             if wantPages then
               match sr_pages row with
               | Some v => ret (set_pages v surah1)
               | None => ret surah1
               end
             else ret surah1
         end
     | [] => ret surah
     end)
    (ret surah).

Definition groups_of (surahNumber : Z) (method : GroupType) (g : AyahGroup)
  : bool :=
  (ag_surahNumber g =? surahNumber)%Z && GroupType_eqb (groupType g) method.

Definition start_leb (a b : AyahGroup) : bool :=
  (startAyah a <=? startAyah b)%Z.

(** [SELECT * FROM ayah_groups WHERE surahNumber = ? AND groupType = ?
    ORDER BY startAyah]. *)
Definition select_groups (surahNumber : Z) (method : GroupType) (d : DB)
  : list AyahGroup :=
  sort_by start_leb (filter (groups_of surahNumber method) (ayah_groups d)).

(** [DELETE FROM ayah_groups WHERE surahNumber = ? AND groupType = ?]. *)
Definition delete_groups (surahNumber : Z) (method : GroupType) (d : DB)
  : DB :=
  set_ayah_groups
    (filter (fun g => negb (groups_of surahNumber method g)) (ayah_groups d))
    d.

Definition newGroup (id : uuid) (surah : Surah) (s e : Z) (t : GroupType)
  : AyahGroup :=
  {| ag_id := id; ag_surahNumber := number surah; startAyah := s;
     endAyah := e; groupType := t; ag_progress := 0; ag_state := g_new;
     ayahIds := []; testAsGroup := true |}.

(** The loop [for (start = 1; start <= ayahCount; start += size)]; the
    fuel bounds the number of iterations. *)
Fixpoint fixed_loop (fuel : nat) (surah : Surah) (size start : Z)
  : M (list AyahGroup) :=
  match fuel with
  | O => ret []
  | S fuel' =>
      if (start <=? ayahCount surah)%Z then
        let e := Z.min (start + size - 1) (ayahCount surah) in
        id <- uuidv4 ;;
        rest <- fixed_loop fuel' surah size (start + size) ;;
        ret (newGroup id surah start e fixed :: rest)
      else ret []
  end.

Definition createFixedGroups (surah : Surah) (groupSize : Z)
  : M (list AyahGroup) :=
  let size := Z.max 1 (if (groupSize =? 0)%Z then 5 else groupSize) in
  executeUpdate (delete_groups (number surah) fixed) ;;;
  fixed_loop (Z.to_nat (ayahCount surah)) surah size 1.

Definition optZ_eqb (a b : option Z) : bool :=
  match a, b with
  | Some x, Some y => (x =? y)%Z
  | None, None => true
  | _, _ => false
  end.

(** The [Map] from a boundary number to the span of the ayahs seen in it. *)
Definition span_step (key : AyahRow -> option Z)
    (m : list (option Z * (Z * Z))) (ayah : AyahRow)
  : list (option Z * (Z * Z)) :=
  let k := key ayah in
  let ayahNumber := ar_ayahNumber ayah in
  match amap_get optZ_eqb k m with
  | None => amap_set optZ_eqb k (ayahNumber, ayahNumber) m
  | Some (s, e) =>
      amap_set optZ_eqb k (Z.min s ayahNumber, Z.max e ayahNumber) m
  end.

(** [createRukuGroups] and [createPageGroups] are the same function up to
    the column they read; [method] is [ruku] or [page]. *)
Definition createBoundaryGroups (method : GroupType) (surah : Surah)
  : M (list AyahGroup) :=
  let boundaries (s : Surah) :=
    match method with page => pages s | _ => rukus s end in
  let key := match method with page => ar_page | _ => ar_ruku end in
  let wantRukus := negb (GroupType_eqb method page) in
  surah_or_fallback <-
    (if is_empty (boundaries surah) then
       surah <- refresh_boundaries wantRukus (negb wantRukus) surah ;;
       if is_empty (boundaries surah)
       then fallback <- createFixedGroups surah 5 ;; ret (inr fallback)
       else ret (inl surah)
     else ret (inl surah)) ;;
  match surah_or_fallback with
  | inr fallback => ret fallback
  | inl surah =>
      ayahs <- executeQuery (fun d =>
                 sort_by (fun a b => (ar_ayahNumber a <=? ar_ayahNumber b)%Z)
                   (filter (fun a => (ar_surahNumber a =? number surah)%Z)
                           (quran_ayahs d))) ;;
      if is_empty ayahs then createFixedGroups surah 5
      else
        let spans := fold_left (span_step key) ayahs [] in
        groups <- for_each (fun entry =>
                    id <- uuidv4 ;;
                    ret (newGroup id surah (fst (snd entry)) (snd (snd entry))
                                  method))
                    spans ;;
        ret (sort_by start_leb groups)
  end.

Definition createRukuGroups : Surah -> M (list AyahGroup) :=
  createBoundaryGroups ruku.
Definition createPageGroups : Surah -> M (list AyahGroup) :=
  createBoundaryGroups page.

Definition set_testAsGroup (v : bool) (g : AyahGroup) : AyahGroup :=
  mkAyahGroup (ag_id g) (ag_surahNumber g) (startAyah g) (endAyah g)
              (groupType g) (ag_progress g) (ag_state g) (ayahIds g) v.

Definition saveGroupToDatabase (group : AyahGroup) : M unit :=
  executeUpdate (fun d => set_ayah_groups (ayah_groups d ++ [group]) d).

(** [createGroupsForSurah]; the enclosing [try { ... } catch (error) {
    console.error(...); throw error }] rethrows and is the identity.  The
    [surah] object is updated in place by the refresh; the updated object
    is the one passed on to the strategy. *)
Definition createGroupsForSurah (surah : Surah) (groupingMethod : GroupType)
    (groupingSize : Z) : M (list AyahGroup) :=
  surah <-
    (if (GroupType_eqb groupingMethod ruku || GroupType_eqb groupingMethod page)
        && (is_empty (rukus surah) || is_empty (pages surah))
     then refresh_boundaries true true surah
     else ret surah) ;;
  existingGroups <-
    (if GroupType_eqb groupingMethod fixed then
       existingGroups <- executeQuery
                           (select_groups (number surah) groupingMethod) ;;
       match existingGroups with
       | first :: _ =>
           let firstGroupSize := (endAyah first - startAyah first + 1)%Z in
           if negb (firstGroupSize =? groupingSize)%Z then
             executeUpdate (delete_groups (number surah) groupingMethod) ;;;
             ret []
           else ret existingGroups
       | [] => ret existingGroups
       end
     else executeQuery (select_groups (number surah) groupingMethod)) ;;
  if negb (is_empty existingGroups) then ret existingGroups
  else
    executeUpdate (delete_groups (number surah) groupingMethod) ;;;
    groups <- match groupingMethod with
              | fixed => createFixedGroups surah groupingSize
              | ruku => createRukuGroups surah
              | page => createPageGroups surah
              | custom => createFixedGroups surah groupingSize
              end ;;
    let groups := map (set_testAsGroup true) groups in
    for_each saveGroupToDatabase groups ;;;
    ret groups.

(** The value of the [i]-th coming [new Date()]. *)
Definition nth_reading (w : World) (i : nat) : Date :=
  mkDate (Fin (IZR (ticks w (reads w + i)))).

(** The due date of a record can be written with [toISOString]. *)
Definition valid_due (u : AyahProgress) : Prop :=
  match ap_nextReview u with
  | Some d => is_finite (getTime d) = true
  | None => True
  end.

(** The elapsed time [rateAyah] passes to every update, and the number of
    clock readings it takes. *)
Definition elapsed_of (s : SessionState) (w : World) : num :=
  match ayahStartTime s with
  | Some t0 => sub (getTime (nth_reading w 0)) (getTime t0)
  | None => Fin 0
  end.

Definition elapsed_reads (s : SessionState) : nat :=
  match ayahStartTime s with Some _ => 1 | None => 0 end.

(** The groups [fixed_loop] builds when the identifiers are drawn from
    [id] on. *)
Fixpoint fixed_layout (fuel : nat) (surah : Surah) (size start : Z) (id : uuid)
  : list AyahGroup :=
  match fuel with
  | O => []
  | S fuel' =>
      if (start <=? ayahCount surah)%Z then
        newGroup id surah start (Z.min (start + size - 1) (ayahCount surah))
                 fixed
        :: fixed_layout fuel' surah size (start + size) (S id)
      else []
  end.

(** The boundary list a strategy reads from the surah object, and the
    column it parses from the surah row. *)
Definition boundaries_of (method : GroupType) (surah : Surah) : list Z :=
  match method with page => pages surah | _ => rukus surah end.

Definition boundary_column (method : GroupType) (row : SurahRow)
  : option (list Z) :=
  match method with page => sr_pages row | _ => sr_rukus row end.

(** The boundary metadata of [surah] is unavailable in [w]: the object has
    none, and a fetch either rejects or leaves a row whose column is empty
    or unparsable (or no row). *)
Definition boundaries_unavailable (method : GroupType) (surah : Surah)
    (w : World) : Prop :=
  boundaries_of method surah = [] /\
  forall d q, provider w (number surah) d = Some q ->
    match filter (fun r => (sr_number r =? number surah)%Z) (fst q) with
    | row :: _ => boundary_column method row = Some []
                  \/ boundary_column method row = None
    | [] => True
    end.

(* ================================================================== *)
(** ** Sample data for the examples *)
(* ================================================================== *)

(** A record as [createAyahProgress] leaves it: new, never reviewed. *)
Definition sampleProgress (id groupId : uuid) (position : Z) (withGroup : bool)
  : AyahProgress :=
  {| ap_id := id; ap_surahNumber := 108; ap_ayahNumber := position;
     ap_groupId := groupId; ap_recallScore := Fin 0;
     ap_lastReviewed := None; ap_nextReview := None;
     ap_easeFactor := easeFactor initializeCard;
     ap_stability := stability initializeCard;
     ap_difficulty := difficulty initializeCard;
     ap_lapses := lapses initializeCard; ap_state := state initializeCard;
     ap_interval := interval initializeCard;
     ap_createdAt := mkDate (Fin 0); ap_history := [];
     ap_testWithGroup := withGroup; ap_groupPosition := position |}.

Definition emptyDB : DB := mkDB [] [] [] None [] [].

(** A world over the database [d]: the clock advances by one millisecond
    per reading, no storage call rejects, the content provider is
    unreachable. *)
Definition quietWorld (d : DB) : World :=
  mkWorld d (fun n => 1000 + Z.of_nat n)%Z 0 100 (fun _ => false) 0
          (fun _ _ => None).

(** The same world with the storage call number [k] rejecting. *)
Definition faultyWorld (d : DB) (k : nat) : World :=
  mkWorld d (fun n => 1000 + Z.of_nat n)%Z 0 100 (fun n => Nat.eqb n k) 0
          (fun _ _ => None).

(** A session on one group of three new items, the first being current. *)
Definition sampleRows : list AyahProgress :=
  [sampleProgress 1 7 1 true; sampleProgress 2 7 2 true;
   sampleProgress 3 7 3 true].

Definition sampleStats : SessionStatistics :=
  mkStats 50 (mkDate (Fin 0)) 0 0 0 zeroTally 0%float.

Definition sampleSession : SessionState :=
  {| isActive := true; ayahs := sampleRows; ayahIndex := 0;
     currentAyah := Some (sampleProgress 1 7 1 true);
     sessionStats := Some sampleStats; uniqueGroups := [7%nat];
     uniqueGroupIndex := 0; totalReviewed := 0; newLearned := 0;
     elapsedTime := 0; ayahStartTime := None; timer := true;
     summaryRoute := None |}.

Definition sampleWorld : World :=
  quietWorld (mkDB sampleRows [] [sampleStats] (Some defaultSettings) [] []).

(* ================================================================== *)
(** ** Further operations of the store (services/database, scheduler) *)
(* ================================================================== *)

Local Open Scope monad_scope.

(** [getSessionStatistics]. *)
Definition getSessionStatistics (id : uuid) : M (option SessionStatistics) :=
  rows <- executeQuery (fun d =>
            filter (fun r => (ss_id r =? id)%nat) (session_statistics d)) ;;
  match rows with
  | [] => ret None
  | row :: _ => ret (Some row)
  end.

(* ================================================================== *)
(** ** Default boundaries (services/database) *)
(* ================================================================== *)

(** The loop [for (i = from; i <= ayahCount; i += step) list.push(i)];
    the fuel bounds the number of iterations. *)
Fixpoint push_every (fuel : nat) (i step ayahCount : Z) : list Z :=
  match fuel with
  | O => []
  | S fuel' =>
      if (i <=? ayahCount)%Z
      then i :: push_every fuel' (i + step) step ayahCount
      else []
  end.

Definition generateDefaultRukus (ayahCount : Z) : list Z :=
  if (ayahCount <=? 10)%Z then [1%Z]
  else if (ayahCount <=? 50)%Z
       then 1%Z :: push_every (Z.to_nat ayahCount) 11 10 ayahCount
       else 1%Z :: push_every (Z.to_nat ayahCount) 16 15 ayahCount.

Definition generateDefaultPages (ayahCount : Z) : list Z :=
  if (ayahCount <=? 15)%Z then [1%Z]
  else 1%Z :: push_every (Z.to_nat ayahCount) 16 15 ayahCount.

(** The two columns as [checkAndUpdateSurahData] parses them: both start
    empty, the ruku column is parsed first, and a parse error leaves what
    has not been assigned yet empty. *)
Definition parsed_boundaries (row : SurahRow) : list Z * list Z :=
  match sr_rukus row with
  | None => ([], [])
  | Some rk =>
      match sr_pages row with
      | None => (rk, [])
      | Some pg => (rk, pg)
      end
  end.

Definition set_surah_boundaries (n : Z) (rk pg : list Z) (d : DB) : DB :=
  mkDB (ayah_progress d) (ayah_groups d) (session_statistics d) (settings d)
       (map (fun r => if (sr_number r =? n)%Z
                      then mkSurahRow (sr_number r) (sr_ayahCount r)
                                      (Some rk) (Some pg)
                      else r)
            (quran_surahs d))
       (quran_ayahs d).

(** The body of the loop of [checkAndUpdateSurahData] for one surah. *)
Definition check_surah (surah : SurahRow) : M unit :=
  let (rk, pg) := parsed_boundaries surah in
  if is_empty rk || is_empty pg then
    let ayahCount := sr_ayahCount surah in
    let newRukus := if is_empty rk then generateDefaultRukus ayahCount
                    else rk in
    let newPages := if is_empty pg then generateDefaultPages ayahCount
                    else pg in
    executeUpdate (set_surah_boundaries (sr_number surah) newRukus newPages)
  else ret tt.

Definition checkAndUpdateSurahData : M unit :=
  try_catch
    (surahs <- executeQuery quran_surahs ;;
     for_each check_surah surahs ;;;
     ret tt)
    (ret tt).

(* ================================================================== *)
(** ** Further parts of the review session (contexts/SessionContext) *)
(* ================================================================== *)

(** The key of the unit an item belongs to: its group when it is tested
    with the group, itself otherwise. *)
Definition unit_key (ayah : AyahProgress) : uuid :=
  if ap_testWithGroup ayah then ap_groupId ayah else ap_id ayah.

(** The second [forEach] of the effect on [ayahs]: the keys of the units in
    the order of their first item. *)
Fixpoint unique_loop (ayahs : list AyahProgress)
    (uniqueGroupIds processedGroups : list uuid) : list uuid :=
  match ayahs with
  | [] => uniqueGroupIds
  | ayah :: rest =>
      let groupId := unit_key ayah in
      if existsb (Nat.eqb groupId) processedGroups
      then unique_loop rest uniqueGroupIds processedGroups
      else unique_loop rest (uniqueGroupIds ++ [groupId])
                       (groupId :: processedGroups)
  end.

Definition uniqueGroupIds (ayahs : list AyahProgress) : list uuid :=
  unique_loop ayahs [] [].

(** The session with the status fields of the provider. *)
Record SessionView : Type := mkView {
  session : SessionState;
  loading : bool;
  error : option string;
  startTime : option Date
}.

(** [startSession].  The audio preload is started on a timer of its own
    and its failures are logged: it is left out. *)
Definition startSession (v : SessionView) : M SessionView :=
  try_catch
    (dueAyahs <- getSessionAyahs ;;
     if is_empty dueAyahs
     then ret (mkView (session v) false (Some "No ayahs due for review"%string)
                      (startTime v))
     else
       stats <- createSessionStatistics ;;
       now <- dateNow ;;
       let s := session v in
       ret (mkView
              (mkSession true dueAyahs 0 (currentAyah s) (Some stats)
                 (uniqueGroups s) (uniqueGroupIndex s) 0 0 0
                 (ayahStartTime s) true (summaryRoute s))
              false None (Some now)))
    (ret (mkView (session v) false (Some "Failed to start review session"%string)
                 (startTime v))).

(* ================================================================== *)
(** ** Committing groups to learning (app/surah-browser/detail) *)
(* ================================================================== *)

(** The inner loop of [addToLearningQueue]: one record per ayah of the
    group, [count] ayahs from [ayahNumber] on, with positions from
    [position] on; it returns the identifiers. *)
Fixpoint queue_loop (count : nat) (surahNumber : Z) (group : AyahGroup)
    (ayahNumber position : Z) : M (list uuid) :=
  match count with
  | O => ret []
  | S count' =>
      ayahProgressId <- uuidv4 ;;
      now <- dateNow ;;
      insertProgress
        {| ap_id := ayahProgressId; ap_surahNumber := surahNumber;
           ap_ayahNumber := ayahNumber; ap_groupId := ag_id group;
           ap_recallScore := Fin 0; ap_lastReviewed := None;
           ap_nextReview := None; ap_easeFactor := Fin (25 / 10);
           ap_stability := Fin 0; ap_difficulty := Fin 0;
           ap_lapses := Fin 0; ap_state := new; ap_interval := Fin 0;
           ap_createdAt := now; ap_history := [];
           ap_testWithGroup := testAsGroup group;
           ap_groupPosition := position |} ;;;
      rest <- queue_loop count' surahNumber group (ayahNumber + 1)
                         (position + 1) ;;
      ret (ayahProgressId :: rest)
  end.

(** [UPDATE ayah_groups SET ayahIds = ?, state = 'learning' WHERE id = ?]. *)
Definition mark_learning (groupId : uuid) (ids : list uuid) (d : DB) : DB :=
  set_ayah_groups
    (map (fun g => if (ag_id g =? groupId)%nat
                   then mkAyahGroup (ag_id g) (ag_surahNumber g)
                          (startAyah g) (endAyah g) (groupType g)
                          (ag_progress g) g_learning ids (testAsGroup g)
                   else g)
         (ayah_groups d)) d.

Inductive QueueAlert : Type :=
| NoGroupsSelected
| AddedToQueue
| QueueError.

(** [addToLearningQueue], over the selection and the groups shown on the
    screen; the loop over the ayahs [startAyah .. endAyah] runs
    [endAyah - startAyah + 1] times. *)
Definition addToLearningQueue (surahNumber : Z) (groups : list AyahGroup)
    (selectedGroups : list uuid) : M QueueAlert :=
  if is_empty selectedGroups then ret NoGroupsSelected
  else
    try_catch
      (for_each (fun groupId =>
         match find (fun g => (ag_id g =? groupId)%nat) groups with
         | Some group =>
             ids <- queue_loop
                      (Z.to_nat (endAyah group - startAyah group + 1))
                      surahNumber group (startAyah group) 1 ;;
             executeUpdate (mark_learning (ag_id group) ids)
         | None => ret tt
         end) selectedGroups ;;;
       ret AddedToQueue)
      (ret QueueError).

(* ================================================================== *)
(** ** Shapes of a list of groups *)
(* ================================================================== *)

(** The groups tile the ayahs [from .. upto]: the first starts at [from],
    each one starts right after the one before, none is empty and none
    passes [upto], and the last one ends at [upto]. *)
Fixpoint tiles (from upto : Z) (groups : list AyahGroup) : Prop :=
  match groups with
  | [] => (upto < from)%Z
  | g :: rest =>
      startAyah g = from /\ (from <= endAyah g <= upto)%Z /\
      tiles (endAyah g + 1) upto rest
  end.

(** The number of ayahs of a group. *)
Definition group_size (g : AyahGroup) : Z := (endAyah g - startAyah g + 1)%Z.

(** The row [check_surah] leaves in the table for the row it was given. *)
Definition repaired_row (surah : SurahRow) : SurahRow :=
  let (rk, pg) := parsed_boundaries surah in
  if is_empty rk || is_empty pg then
    mkSurahRow (sr_number surah) (sr_ayahCount surah)
      (Some (if is_empty rk then generateDefaultRukus (sr_ayahCount surah)
             else rk))
      (Some (if is_empty pg then generateDefaultPages (sr_ayahCount surah)
             else pg))
  else surah.

(** A surah row with ruku and page boundaries: both columns parse and
    neither list is empty. *)
Definition complete_row (r : SurahRow) : Prop :=
  exists rk pg, sr_rukus r = Some rk /\ sr_pages r = Some pg /\
                rk <> [] /\ pg <> [].

(* ================================================================== *)
(** ** Orders: on comparisons, and on dates written as text *)
(* ================================================================== *)

(** The lexicographic combination of two comparisons. *)
Definition lexc (c1 c2 : comparison) : comparison :=
  match c1 with Eq => c2 | _ => c1 end.

(** A time value whose year is written with four digits: from
    0000-01-01T00:00:00.000Z to 9999-12-31T23:59:59.999Z. *)
Definition four_digit_year (t : Z) : Prop :=
  (-62167219200000 <= t < 253402300800000)%Z.

(* ================================================================== *)
(** ** The records the program stores *)
(* ================================================================== *)






(* ================================================================== *)
(** ** Readings of the clock, and the parameters of the comment *)
(* ================================================================== *)

(** The number of clock readings [getSettings] takes: one, in
    [createDefaultSettings], when no settings are stored. *)
Definition settings_reads (d : DB) : nat :=
  match settings d with Some _ => 0%nat | None => 1%nat end.

(** The reading of the clock that [getTodayDueReviews] and
    [getSessionAyahs] compare the due dates with: the first one after
    [getSettings] has returned. *)
Definition due_reading (w : World) : Date :=
  nth_reading w (settings_reads (db w)).

(** [DEFAULT_PARAMETERS] with the initial stability that the comment on
    [w[0]] announces ("optimized from 0.4 to 2.4"). *)
Definition PARAMETERS_W0_2_4 : FSRSParameters :=
  {| w := Fin (24 / 10) :: tl (w DEFAULT_PARAMETERS);
     requestRetention := requestRetention DEFAULT_PARAMETERS |}.

(** The stability after Again, Good, Good (the second Good one day after
    the first) when the initial stability is 2.4:
    [2.4 * 0.94 * 1.01 * R ^ (-2.4)] with
    [R = exp (ln 0.9 * 1 / (2.4 * 0.94))]. *)
Definition S3_W0_2_4 : R :=
  (24 / 10 * (94 / 100) * (101 / 100) *
   Rpower (exp (ln (9 / 10) * 1 / (24 / 10 * (94 / 100)))) (- (24 / 10)))%R.

Unset Implicit Arguments.

(* ================================================================== *)
(** ** Facts about the number model *)
(* ================================================================== *)

Section NumFacts.

Local Open Scope R_scope.

Lemma Rsign_pos (x : R) : 0 < x -> Rsign x = Gt.
Proof.
  intros H. unfold Rsign. destruct (Rlt_dec 0 x); [reflexivity | contradiction].
Qed.

Lemma Rsign_neg (x : R) : x < 0 -> Rsign x = Lt.
Proof.
  intros H. unfold Rsign.
  destruct (Rlt_dec 0 x); [lra |].
  destruct (Rlt_dec x 0); [reflexivity | contradiction].
Qed.

Lemma Rsign_zero : Rsign 0 = Eq.
Proof.
  unfold Rsign.
  destruct (Rlt_dec 0 0); [lra |]. destruct (Rlt_dec 0 0); [lra | reflexivity].
Qed.

Lemma le_Fin (x y : R) : x <= y -> le (Fin x) (Fin y) = true.
Proof. intros H; simpl. destruct (Rle_dec x y); [reflexivity | contradiction]. Qed.

Lemma le_Fin_false (x y : R) : y < x -> le (Fin x) (Fin y) = false.
Proof. intros H; simpl. destruct (Rle_dec x y); [lra | reflexivity]. Qed.

Lemma lt_Fin (x y : R) : x < y -> lt (Fin x) (Fin y) = true.
Proof. intros H; simpl. destruct (Rlt_dec x y); [reflexivity | contradiction]. Qed.

Lemma lt_Fin_false (x y : R) : y <= x -> lt (Fin x) (Fin y) = false.
Proof. intros H; simpl. destruct (Rlt_dec x y); [lra | reflexivity]. Qed.

Lemma div_Fin (x y : R) : y <> 0 -> div (Fin x) (Fin y) = Fin (x / y).
Proof. intros H; simpl. destruct (Req_dec_T y 0); [contradiction | reflexivity]. Qed.

Lemma div_Fin_zero (x : R) : div (Fin x) (Fin 0) = inf_of (Rsign x).
Proof. simpl. destruct (Req_dec_T 0 0); [reflexivity | congruence]. Qed.

Lemma jlog_Fin (x : R) : 0 < x -> jlog (Fin x) = Fin (ln x).
Proof. intros H; simpl. now rewrite Rsign_pos. Qed.

Lemma ln_09_neg : ln (9 / 10) < 0.
Proof.
  rewrite <- ln_1. apply ln_increasing; lra.
Qed.

Lemma ln_lt_1_neg (r : R) : 0 < r < 1 -> ln r < 0.
Proof. intros [H0 H1]. rewrite <- ln_1. apply ln_increasing; lra. Qed.

(** [Int_part] is the floor: it is monotone. *)
Lemma Int_part_mono (x y : R) : x <= y -> (Int_part x <= Int_part y)%Z.
Proof.
  intros Hxy.
  destruct (base_Int_part x) as [Hx1 Hx2].
  destruct (base_Int_part y) as [Hy1 Hy2].
  apply Z.lt_succ_r. apply lt_IZR. rewrite succ_IZR. lra.
Qed.

(** The floor of a real between two consecutive integers. *)
Lemma Int_part_between (x : R) (n : Z) :
  IZR n <= x < IZR n + 1 -> Int_part x = n.
Proof.
  intros [H1 H2].
  destruct (base_Int_part x) as [Hx1 Hx2].
  assert (Ha : (Int_part x < n + 1)%Z).
  { apply lt_IZR. rewrite plus_IZR. simpl. lra. }
  assert (Hb : (n < Int_part x + 1)%Z).
  { apply lt_IZR. rewrite plus_IZR. simpl. lra. }
  lia.
Qed.

End NumFacts.

(* ================================================================== *)
(** ** The order of dates written as ISO text *)
(* ================================================================== *)

Section IsoOrder.

Local Open Scope Z_scope.

Ltac divlia := Z.to_euclidean_division_equations; lia.

Lemma DayFromYear_le (y y' : Z) : y <= y' -> DayFromYear y <= DayFromYear y'.
Proof. unfold DayFromYear. intros H. divlia. Qed.

(** The year computed for a day is the year that contains it. *)
Lemma YearFromDay_spec (d : Z) :
  DayFromYear (YearFromDay d) <= d < DayFromYear (YearFromDay d + 1).
Proof.
  unfold YearFromDay. cbv zeta.
  set (y := 1970 + 400 * d / 146097).
  destruct (Z.leb_spec (DayFromYear (y + 1)) d) as [H1 | H1].
  - split; [exact H1 |]. unfold DayFromYear in *. subst y. divlia.
  - destruct (Z.leb_spec (DayFromYear y) d) as [H2 | H2].
    + split; assumption.
    + replace (y - 1 + 1) with y by lia. split; [| exact H2].
      unfold DayFromYear in *. subst y. divlia.
Qed.

Lemma InLeapYear_range (y : Z) : InLeapYear y = 0 \/ InLeapYear y = 1.
Proof. unfold InLeapYear. destruct (_ || _); [now right | now left]. Qed.

Lemma DayFromYear_step (y : Z) :
  DayFromYear (y + 1) = DayFromYear y + 365 + InLeapYear y.
Proof.
  unfold DayFromYear, InLeapYear.
  destruct (Z.eqb_spec (y mod 4) 0), (Z.eqb_spec (y mod 100) 0),
    (Z.eqb_spec (y mod 400) 0); cbn [andb orb negb]; divlia.
Qed.

Lemma day_within_year (day : Z) :
  0 <= day - DayFromYear (YearFromDay day)
    < 365 + InLeapYear (YearFromDay day).
Proof.
  pose proof (YearFromDay_spec day) as S.
  rewrite DayFromYear_step in S. lia.
Qed.

(** Within a year, month and day of the month order the days. *)
Lemma month_date_order (leap d1 d2 : Z) :
  leap = 0 \/ leap = 1 ->
  0 <= d1 < 365 + leap -> 0 <= d2 < 365 + leap ->
  lexc (MonthFromDay d1 leap + 1 ?= MonthFromDay d2 leap + 1)
       (DateFromDay d1 leap ?= DateFromDay d2 leap) = (d1 ?= d2).
Proof.
  intros Hl H1 H2. unfold DateFromDay, MonthFromDay.
  repeat match goal with
         | |- context [?a <? ?b] => destruct (Z.ltb_spec a b)
         end;
    unfold lexc;
    repeat match goal with
           | |- context [?a ?= ?b] => destruct (Z.compare_spec a b)
           end; try reflexivity; lia.
Qed.

Lemma month_date_range (leap d : Z) :
  leap = 0 \/ leap = 1 -> 0 <= d < 365 + leap ->
  1 <= MonthFromDay d leap + 1 <= 12 /\ 1 <= DateFromDay d leap <= 31.
Proof.
  intros Hl H. unfold DateFromDay, MonthFromDay.
  repeat match goal with
         | |- context [?a <? ?b] => destruct (Z.ltb_spec a b)
         end; lia.
Qed.

(** Hours, minutes, seconds and milliseconds order the times of a day. *)
Lemma time_order (m1 m2 : Z) :
  0 <= m1 < msPerDay -> 0 <= m2 < msPerDay ->
  lexc (m1 / 3600000 ?= m2 / 3600000)
    (lexc ((m1 / 60000) mod 60 ?= (m2 / 60000) mod 60)
       (lexc ((m1 / 1000) mod 60 ?= (m2 / 1000) mod 60)
          (lexc (m1 mod 1000 ?= m2 mod 1000) Eq))) = (m1 ?= m2).
Proof.
  unfold msPerDay. intros H1 H2. unfold lexc.
  destruct (Z.compare_spec (m1 / 3600000) (m2 / 3600000)),
    (Z.compare_spec ((m1 / 60000) mod 60) ((m2 / 60000) mod 60)),
    (Z.compare_spec ((m1 / 1000) mod 60) ((m2 / 1000) mod 60)),
    (Z.compare_spec (m1 mod 1000) (m2 mod 1000)),
    (Z.compare_spec m1 m2); try reflexivity; exfalso; divlia.
Qed.

Lemma digit_cases (n : Z) :
  exists x, n mod 10 = x /\
    (x = 0 \/ x = 1 \/ x = 2 \/ x = 3 \/ x = 4 \/ x = 5 \/ x = 6 \/
     x = 7 \/ x = 8 \/ x = 9).
Proof.
  pose proof (Z.mod_pos_bound n 10 ltac:(lia)) as H.
  exists (n mod 10). split; [reflexivity | lia].
Qed.

(** The characters of the digits are ordered as the digits. *)
Lemma digit_compare (a b : Z) :
  Ascii.compare (digit a) (digit b) = (a mod 10 ?= b mod 10).
Proof.
  unfold digit.
  destruct (digit_cases a) as (x & -> & Hx).
  destruct (digit_cases b) as (y & -> & Hy).
  repeat (destruct Hx as [-> | Hx]); try subst x;
    repeat (destruct Hy as [-> | Hy]); try subst y; reflexivity.
Qed.

Lemma compare_cons (c c' : Ascii.ascii) (s s' : string) :
  String.compare (String c s) (String c' s')
  = lexc (Ascii.compare c c') (String.compare s s').
Proof. cbn [String.compare]. now destruct (Ascii.compare c c'). Qed.

Lemma compare_same_head (c : Ascii.ascii) (s s' : string) :
  String.compare (String c s) (String c s') = String.compare s s'.
Proof.
  cbn [String.compare]. unfold Ascii.compare. now rewrite N.compare_refl.
Qed.

Lemma lexc_div10 (a b : Z) (c : comparison) :
  lexc (a / 10 ?= b / 10) (lexc (a mod 10 ?= b mod 10) c) = lexc (a ?= b) c.
Proof.
  unfold lexc.
  destruct (Z.compare_spec (a / 10) (b / 10)),
    (Z.compare_spec (a mod 10) (b mod 10)), (Z.compare_spec a b);
    try reflexivity; exfalso; divlia.
Qed.

Lemma lexc_assoc (a b c : comparison) :
  lexc a (lexc b c) = lexc (lexc a b) c.
Proof. now destruct a. Qed.

(** Zero-padded numbers of the same width are ordered as the numbers. *)
Lemma digits_compare (k : nat) :
  forall (a b : Z) (s s' : string),
    0 <= a < 10 ^ Z.of_nat k -> 0 <= b < 10 ^ Z.of_nat k ->
    String.compare (digits k a s) (digits k b s')
    = lexc (a ?= b) (String.compare s s').
Proof.
  induction k as [| k IH]; intros a b s s' Ha Hb.
  - cbn in Ha, Hb. assert (a = 0) by lia. assert (b = 0) by lia. subst.
    reflexivity.
  - cbn [digits].
    rewrite Nat2Z.inj_succ, Z.pow_succ_r in Ha, Hb by lia.
    rewrite IH by (split; [apply Z.div_pos; lia |
                            apply Z.div_lt_upper_bound; lia]).
    rewrite compare_cons, digit_compare. apply lexc_div10.
Qed.

Lemma four_digit_year_range (t : Z) :
  four_digit_year t -> 0 <= YearFromDay (t / msPerDay) <= 9999.
Proof.
  unfold four_digit_year, msPerDay. intros H.
  pose proof (YearFromDay_spec (t / 86400000)) as S.
  set (y := YearFromDay (t / 86400000)) in *.
  assert (Hd : -719528 <= t / 86400000 < 2932897) by divlia.
  split.
  - destruct (Z.le_gt_cases 0 y); [assumption |].
    pose proof (DayFromYear_le (y + 1) 0 ltac:(lia)) as L.
    change (DayFromYear 0) with (-719528) in L. lia.
  - destruct (Z.le_gt_cases y 9999); [assumption |].
    pose proof (DayFromYear_le 10000 y ltac:(lia)) as L.
    change (DayFromYear 10000) with 2932897 in L. lia.
Qed.

(** Within the years 0000 to 9999 the order of the ISO texts is the order
    of the time values. *)
Lemma iso_compare (t1 t2 : Z) :
  four_digit_year t1 -> four_digit_year t2 ->
  String.compare (iso_of_ms t1) (iso_of_ms t2) = (t1 ?= t2).
Proof.
  intros F1 F2.
  pose proof (four_digit_year_range t1 F1) as Y1.
  pose proof (four_digit_year_range t2 F2) as Y2.
  unfold iso_of_ms. cbv zeta.
  pose proof (Z.div_mod t1 msPerDay ltac:(unfold msPerDay; lia)) as E1.
  pose proof (Z.div_mod t2 msPerDay ltac:(unfold msPerDay; lia)) as E2.
  pose proof (Z.mod_pos_bound t1 msPerDay ltac:(unfold msPerDay; lia)) as M1.
  pose proof (Z.mod_pos_bound t2 msPerDay ltac:(unfold msPerDay; lia)) as M2.
  pose proof (day_within_year (t1 / msPerDay)) as D1.
  pose proof (day_within_year (t2 / msPerDay)) as D2.
  pose proof (YearFromDay_spec (t1 / msPerDay)) as S1.
  pose proof (YearFromDay_spec (t2 / msPerDay)) as S2.
  set (day1 := t1 / msPerDay) in *. set (day2 := t2 / msPerDay) in *.
  set (ms1 := t1 mod msPerDay) in *. set (ms2 := t2 mod msPerDay) in *.
  set (y1 := YearFromDay day1) in *. set (y2 := YearFromDay day2) in *.
  set (d1 := day1 - DayFromYear y1) in *.
  set (d2 := day2 - DayFromYear y2) in *.
  pose proof (InLeapYear_range y1) as L1.
  pose proof (InLeapYear_range y2) as L2.
  pose proof (month_date_range _ _ L1 D1) as [R1m R1d].
  pose proof (month_date_range _ _ L2 D2) as [R2m R2d].
  replace ((0 <=? y1) && (y1 <=? 9999)) with true
    by (symmetry; apply andb_true_iff; split; apply Z.leb_le; lia).
  replace ((0 <=? y2) && (y2 <=? 9999)) with true
    by (symmetry; apply andb_true_iff; split; apply Z.leb_le; lia).
  cbn [append].
  assert (B60 : forall x, 0 <= x mod 60 < 10 ^ Z.of_nat 2)
    by (intros x; pose proof (Z.mod_pos_bound x 60 ltac:(lia)); cbn; lia).
  assert (B1000 : forall x, 0 <= x mod 1000 < 10 ^ Z.of_nat 3)
    by (intros x; pose proof (Z.mod_pos_bound x 1000 ltac:(lia)); cbn; lia).
  assert (BH : forall m, 0 <= m < msPerDay ->
                         0 <= m / 3600000 < 10 ^ Z.of_nat 2)
    by (unfold msPerDay; intros m Hm; cbn; divlia).
  rewrite digits_compare by (cbn; lia).
  rewrite compare_same_head.
  rewrite digits_compare by (cbn; lia).
  rewrite compare_same_head.
  rewrite digits_compare by (cbn; lia).
  rewrite compare_same_head.
  rewrite digits_compare by (apply BH; assumption).
  rewrite compare_same_head.
  rewrite digits_compare by apply B60.
  rewrite compare_same_head.
  rewrite digits_compare by apply B60.
  rewrite compare_same_head.
  rewrite digits_compare by apply B1000.
  change (String.compare "Z" "Z") with Eq.
  rewrite time_order by assumption.
  assert (Ed1 : d1 = day1 - DayFromYear y1) by reflexivity.
  assert (Ed2 : d2 = day2 - DayFromYear y2) by reflexivity.
  clearbody d1 d2 y1 y2 day1 day2 ms1 ms2.
  destruct (Z.compare_spec y1 y2) as [Ey | Ly | Gy]; cbn [lexc].
  - subst y2. rewrite lexc_assoc.
    rewrite month_date_order by assumption.
    unfold lexc.
    destruct (Z.compare_spec d1 d2), (Z.compare_spec ms1 ms2),
      (Z.compare_spec t1 t2); try reflexivity; exfalso;
      unfold msPerDay in *; lia.
  - pose proof (DayFromYear_le (y1 + 1) y2 ltac:(lia)).
    symmetry. apply Z.compare_lt_iff. unfold msPerDay in *. lia.
  - pose proof (DayFromYear_le (y2 + 1) y1 ltac:(lia)).
    symmetry. apply Z.compare_gt_iff. unfold msPerDay in *. lia.
Qed.

Lemma iso_leb_four_digit (t1 t2 : Z) :
  four_digit_year t1 -> four_digit_year t2 ->
  String.leb (iso_of_ms t1) (iso_of_ms t2) = (t1 <=? t2).
Proof.
  intros F1 F2. unfold String.leb. rewrite iso_compare by assumption.
  unfold Z.leb. now destruct (t1 ?= t2).
Qed.

(** A date in the year 10000 or later is written with a leading "+",
    which sorts before every digit. *)
Lemma iso_leb_expanded_year (t1 t2 : Z) :
  253402300800000 <= t1 -> four_digit_year t2 ->
  String.leb (iso_of_ms t1) (iso_of_ms t2) = true.
Proof.
  intros H1 F2.
  pose proof (four_digit_year_range t2 F2) as Y2.
  assert (Y1 : 10000 <= YearFromDay (t1 / msPerDay)).
  { pose proof (YearFromDay_spec (t1 / msPerDay)) as S.
    destruct (Z.le_gt_cases 10000 (YearFromDay (t1 / msPerDay)));
      [assumption |].
    pose proof (DayFromYear_le (YearFromDay (t1 / msPerDay) + 1) 10000
                  ltac:(lia)) as L.
    change (DayFromYear 10000) with 2932897 in L.
    assert (2932897 <= t1 / msPerDay) by (unfold msPerDay; divlia). lia. }
  unfold iso_of_ms. cbv zeta.
  set (y1 := YearFromDay (t1 / msPerDay)) in *.
  set (y2 := YearFromDay (t2 / msPerDay)) in *.
  replace ((0 <=? y1) && (y1 <=? 9999)) with false
    by (symmetry; apply andb_false_iff; right; apply Z.leb_gt; lia).
  replace (y1 <? 0) with false by (symmetry; apply Z.ltb_ge; lia).
  replace ((0 <=? y2) && (y2 <=? 9999)) with true
    by (symmetry; apply andb_true_iff; split; apply Z.leb_le; lia).
  cbn [append digits].
  unfold String.leb. rewrite compare_cons.
  match goal with
  | |- context [Ascii.compare ?c (digit ?n)] =>
      assert (Hc : Ascii.compare c (digit n) = Lt)
  end.
  { unfold digit.
    destruct (digit_cases (y2 / 10 / 10 / 10)) as (x & -> & Hx).
    repeat (destruct Hx as [-> | Hx]); try subst x; reflexivity. }
  rewrite Hc. reflexivity.
Qed.

Lemma Int_part_IZR (z : Z) : Int_part (IZR z) = z.
Proof. apply Int_part_between. lra. Qed.

Lemma iso_text_IZR (z : Z) :
  iso_text (mkDate (Fin (IZR z))) = Some (iso_of_ms z).
Proof. unfold iso_text. cbn [getTime]. now rewrite Int_part_IZR. Qed.

(** The filter of the due-set queries, on a record with a due date: within
    the years 0000 to 9999 it compares the time values. *)
Lemma due_at_four_digit (r : AyahProgress) (t n : Z) :
  ap_nextReview r = Some (mkDate (Fin (IZR t))) ->
  four_digit_year t -> four_digit_year n ->
  due_at (mkDate (Fin (IZR n))) r = (t <=? n).
Proof.
  intros Hr Ft Fn. unfold due_at. rewrite Hr, !iso_text_IZR.
  cbn [text_le]. now apply iso_leb_four_digit.
Qed.

(** A due date in the year 10000 or later passes the filter at every
    reading of a clock that shows a year up to 9999. *)
Lemma due_at_expanded_year (r : AyahProgress) (t n : Z) :
  ap_nextReview r = Some (mkDate (Fin (IZR t))) ->
  253402300800000 <= t -> four_digit_year n ->
  due_at (mkDate (Fin (IZR n))) r = true.
Proof.
  intros Hr Ht Fn. unfold due_at. rewrite Hr, !iso_text_IZR.
  cbn [text_le]. now apply iso_leb_expanded_year.
Qed.

End IsoOrder.

(* ================================================================== *)
(** ** The FSRS engine *)
(* ================================================================== *)

Section FsrsFacts.

Local Open Scope R_scope.

(** On a positive finite stability and a retention in (0,1) the interval
    is the rounded real quotient, floored at one day. *)
Lemma nextInterval_finite (s r : R) :
  0 < s -> 0 < r < 1 ->
  nextInterval (Fin s) (Fin r) =
  jmax (Fin 1) (Fin (IZR (Int_part (s * ln r / ln (9 / 10) + / 2)))).
Proof.
  intros Hs Hr. unfold nextInterval.
  rewrite le_Fin_false by assumption.
  rewrite !jlog_Fin by lra. cbn [mul].
  rewrite div_Fin by (pose proof ln_09_neg; lra).
  reflexivity.
Qed.

Lemma jmax_one_mono (a b : Z) :
  (a <= b)%Z -> le (jmax (Fin 1) (Fin (IZR a))) (jmax (Fin 1) (Fin (IZR b))) = true.
Proof.
  intros Hab. apply IZR_le in Hab. cbn.
  destruct (Rle_dec 1 (IZR a)), (Rle_dec 1 (IZR b)); apply le_Fin; lra.
Qed.

(** C8. For a fixed stability [s > 0], lowering the requested retention
    never shortens the interval: for 0 < r2 < r1 < 1,
    nextInterval(s, r2) >= nextInterval(s, r1). *)
Theorem nextInterval_monotone_retention (s r1 r2 : R) :
  0 < s -> 0 < r2 -> r2 < r1 -> r1 < 1 ->
  le (nextInterval (Fin s) (Fin r1)) (nextInterval (Fin s) (Fin r2)) = true.
Proof.
  intros Hs H2 H21 H1.
  rewrite !nextInterval_finite by lra.
  apply jmax_one_mono, Int_part_mono.
  assert (Hln : ln r2 < ln r1) by (apply ln_increasing; lra).
  pose proof ln_09_neg as H09.
  assert (Hq : s * ln r1 / ln (9 / 10) <= s * ln r2 / ln (9 / 10)).
  { unfold Rdiv.
    assert (Hk : / ln (9 / 10) < 0) by (apply Rinv_lt_0_compat; exact H09).
    assert (Hd : 0 < s * (ln r1 - ln r2)) by (apply Rmult_lt_0_compat; lra).
    nra. }
  lra.
Qed.

Lemma nextInterval_monotone_retention_witness :
  le (nextInterval (Fin 10) (Fin (9 / 10)))
     (nextInterval (Fin 10) (Fin (8 / 10))) = true.
Proof.
  apply (nextInterval_monotone_retention 10 (9 / 10) (8 / 10)); lra.
Defined.

(** Scheduling a new card: the state and interval for each rating. *)
Lemma scheduleReview_new_outcome (card : FSRSCard) (rating : Rating)
    (now : Date) (params : FSRSParameters) :
  state card = new ->
  let r := scheduleReview card rating now params in
  match rating with
  | Again => state r = learning /\ interval r = Fin 0
  | Hard => state r = new /\ interval r = Fin 1
  | Good => state r = review /\ interval r = Fin 1
  | Easy => state r = review /\ interval r = Fin 4
  end.
Proof.
  intros Hnew. unfold scheduleReview. rewrite Hnew.
  destruct rating; cbn -[gt]; try (split; reflexivity).
  destruct (gt (widx (w params) 0) (Fin 0)); cbn; split; reflexivity.
Qed.

(** C1 (code defect).  Rating a new card Hard leaves it in state [new]:
    the branch sets [learning], and the assignment that follows the branch
    overwrites it with the state of the input card.  The interval is one
    day. *)
Theorem scheduleReview_new_Hard_stays_new (card : FSRSCard) (now : Date)
    (params : FSRSParameters) :
  state card = new ->
  state (scheduleReview card Hard now params) = new /\
  state (scheduleReview card Hard now params) <> learning /\
  state (scheduleReview card Hard now params) <> review /\
  interval (scheduleReview card Hard now params) = Fin 1.
Proof.
  intros Hnew.
  destruct (scheduleReview_new_outcome card Hard now params Hnew) as [Hs Hi].
  rewrite Hs, Hi. repeat split; discriminate.
Qed.

Lemma scheduleReview_new_Hard_stays_new_witness :
  state (scheduleReview initializeCard Hard (mkDate (Fin 0))
                        DEFAULT_PARAMETERS) = new.
Proof.
  apply (scheduleReview_new_Hard_stays_new initializeCard (mkDate (Fin 0))
           DEFAULT_PARAMETERS).
  reflexivity.
Defined.

(** For the three other ratings the claim of C1 holds: the state is
    [learning] or [review] and the interval is 0, 1 or 4 days. *)
Lemma scheduleReview_new_other_ratings (card : FSRSCard) (rating : Rating)
    (now : Date) (params : FSRSParameters) :
  state card = new -> rating <> Hard ->
  (state (scheduleReview card rating now params) = learning \/
   state (scheduleReview card rating now params) = review) /\
  le (Fin 0) (interval (scheduleReview card rating now params)) = true.
Proof.
  intros Hnew Hr.
  pose proof (scheduleReview_new_outcome card rating now params Hnew) as H.
  destruct rating; try congruence; destruct H as [Hs Hi]; rewrite Hs, Hi;
    (split; [auto | apply le_Fin; lra]).
Qed.

(** The retrievability at stability zero after a positive elapsed time:
    the quotient is [-Infinity] and its exponential is 0. *)
Lemma memoryRetention_zero_stability (e : R) (ws : list num) :
  0 < e -> memoryRetention (Fin 0) (Fin e) ws = Fin 0.
Proof.
  intros He. unfold memoryRetention.
  rewrite le_Fin_false by assumption.
  rewrite jlog_Fin by lra. cbn [mul].
  rewrite div_Fin_zero, Rsign_neg; [reflexivity |].
  pose proof ln_09_neg. nra.
Qed.

(** The retrievability at a negative stability exceeds 1. *)
Lemma memoryRetention_negative_stability (s e : R) (ws : list num) :
  s < 0 -> 0 < e ->
  exists x, memoryRetention (Fin s) (Fin e) ws = Fin x /\ 1 < x.
Proof.
  intros Hs He. unfold memoryRetention.
  rewrite le_Fin_false by assumption.
  rewrite jlog_Fin by lra. cbn [mul].
  rewrite div_Fin by lra. cbn [jexp].
  eexists; split; [reflexivity |].
  rewrite <- exp_0. apply exp_increasing.
  pose proof ln_09_neg as H09.
  assert (Hn : 0 < - (ln (9 / 10) * e)) by nra.
  assert (Hi : 0 < / - s) by (apply Rinv_0_lt_compat; lra).
  replace (ln (9 / 10) * e / s) with (- (ln (9 / 10) * e) * / - s).
  - apply Rmult_lt_0_compat; assumption.
  - field. lra.
Qed.

End FsrsFacts.

Section EndToEnd.

Local Open Scope R_scope.

Lemma ln_09_bounds : - (1 / 9) <= ln (9 / 10) <= - (1 / 10).
Proof.
  split.
  - pose proof (exp_ineq1_le (- ln (9 / 10))) as H.
    rewrite exp_Ropp, exp_ln in H by lra. lra.
  - pose proof (exp_ineq1_le (ln (9 / 10))) as H.
    rewrite exp_ln in H by lra. lra.
Qed.

Lemma exp_upper (x : R) : x < 1 -> exp x <= / (1 - x).
Proof.
  intros Hx.
  pose proof (exp_ineq1_le (- x)) as H. rewrite exp_Ropp in H.
  pose proof (exp_pos x) as Hp.
  rewrite <- (Rinv_inv (exp x)).
  apply Rinv_le_contravar; lra.
Qed.

Ltac rdec :=
  repeat match goal with
  | |- context [Rlt_dec ?a ?b] => destruct (Rlt_dec a b); try lra
  | |- context [Rle_dec ?a ?b] => destruct (Rle_dec a b); try lra
  | |- context [Req_dec_T ?a ?b] => destruct (Req_dec_T a b); try lra
  end.

Lemma clamp01_above (x : R) : 1 <= x -> clamp01 (Fin x) = Fin 1.
Proof.
  intros H. unfold clamp01, jmax, jmin, le. rdec; try reflexivity; f_equal; lra.
Qed.

Lemma after_Again (a : R) :
  scheduleReview initializeCard Again (mkDate (Fin a)) DEFAULT_PARAMETERS =
  mkCard learning (Fin (25 / 10)) (Fin (4 / 10 * (94 / 100))) (Fin 1) (Fin 0)
         (Some (mkDate (Fin a))) (Some (mkDate (Fin a))) (Fin 0).
Proof.
  unfold scheduleReview, initializeCard, DEFAULT_PARAMETERS.
  cbn -[gt clamp01 add mul].
  unfold gt. rewrite lt_Fin by lra.
  cbn -[clamp01]. rewrite clamp01_above by lra. reflexivity.
Qed.

Lemma newDate_small (x : R) :
  Rabs x <= 8640000000000000 -> newDate (Fin x) = mkDate (Fin (Rtrunc x)).
Proof.
  intros H. unfold newDate. destruct (Rle_dec (Rabs x) 8640000000000000);
    [reflexivity | contradiction].
Qed.

(** The first Good on the relearnt card: graduation with a one-day
    interval; the stability is left as it was. *)
Lemma after_Again_Good (a b : R) :
  scheduleReview
    (scheduleReview initializeCard Again (mkDate (Fin a)) DEFAULT_PARAMETERS)
    Good (mkDate (Fin b)) DEFAULT_PARAMETERS =
  mkCard review (Fin (25 / 10)) (Fin (4 / 10 * (94 / 100))) (Fin 1) (Fin 0)
         (Some (mkDate (Fin b)))
         (Some (date_plus_days (mkDate (Fin b)) (Fin 1))) (Fin 1).
Proof.
  rewrite after_Again.
  unfold scheduleReview. cbn -[clamp01 add date_plus_days].
  cbn [add]. rewrite clamp01_above by lra. reflexivity.
Qed.

Lemma S3_bounds : 6 / 10 < S3 < 14 / 10.
Proof.
  unfold S3, Rpower. rewrite ln_exp.
  pose proof ln_09_bounds as [Hlo Hhi].
  set (x := - (24 / 10) * (ln (9 / 10) * 1 / (4 / 10 * (94 / 100)))).
  assert (Hx : 63 / 100 <= x <= 71 / 100).
  { subst x.
    replace (- (24 / 10) * (ln (9 / 10) * 1 / (4 / 10 * (94 / 100))))
      with (- ln (9 / 10) * (24 / 10 / (4 / 10 * (94 / 100)))) by (field; lra).
    replace (24 / 10 / (4 / 10 * (94 / 100))) with (300 / 47) by (field; lra).
    lra. }
  pose proof (exp_ineq1_le x) as Hl.
  pose proof (exp_upper x ltac:(lra)) as Hu.
  assert (Hu' : / (1 - x) <= 100 / 29).
  { replace (100 / 29) with (/ (29 / 100)) by (field; lra).
    apply Rinv_le_contravar; lra. }
  split; nra.
Qed.

Lemma retrievability_one_day (b : R) (ws : list num) :
  memoryRetention (Fin (4 / 10 * (94 / 100)))
    (div (sub (Fin (b + 86400000)) (Fin b)) DAY_MS) ws =
  Fin (exp (ln (9 / 10) * 1 / (4 / 10 * (94 / 100)))).
Proof.
  unfold DAY_MS. cbn [sub neg add].
  rewrite div_Fin by lra.
  replace ((b + 86400000 + - b) / (24 * 60 * 60 * 1000)) with 1 by (field; lra).
  unfold memoryRetention. rewrite le_Fin_false by lra.
  rewrite jlog_Fin by lra. cbn [mul]. rewrite div_Fin by lra. reflexivity.
Qed.

Lemma interval_of_S3 : nextInterval (Fin S3) (Fin (9 / 10)) = Fin 1.
Proof.
  pose proof S3_bounds as [Hlo Hhi].
  rewrite nextInterval_finite by lra.
  pose proof ln_09_neg as H09.
  replace (S3 * ln (9 / 10) / ln (9 / 10)) with S3 by (field; lra).
  rewrite (Int_part_between (S3 + / 2) 1) by lra.
  cbn. rdec; reflexivity.
Qed.

Lemma after_Again_Good_Good (a b : R) :
  let c1 := scheduleReview initializeCard Again (mkDate (Fin a))
                           DEFAULT_PARAMETERS in
  let c2 := scheduleReview c1 Good (mkDate (Fin b)) DEFAULT_PARAMETERS in
  let c3 := scheduleReview c2 Good (mkDate (Fin (b + 86400000)))
                           DEFAULT_PARAMETERS in
  state c3 = review /\ stability c3 = Fin S3 /\ interval c3 = Fin 1.
Proof.
  intros c1 c2 c3. subst c1 c2 c3. rewrite after_Again_Good.
  unfold scheduleReview.
  cbn -[clamp01 add nextInterval date_plus_days memoryRetention jpow mul
        div sub neg DAY_MS].
  rewrite retrievability_one_day.
  cbn [neg jpow]. rewrite Rsign_neg by lra.
  rewrite Rsign_pos by apply exp_pos.
  cbn [mul]. fold S3.
  rewrite interval_of_S3. repeat split.
Qed.

(** The same three ratings with the initial stability 2.4. *)
Lemma after_Again_W0_2_4 (a : R) :
  scheduleReview initializeCard Again (mkDate (Fin a)) PARAMETERS_W0_2_4 =
  mkCard learning (Fin (25 / 10)) (Fin (24 / 10 * (94 / 100))) (Fin 1) (Fin 0)
         (Some (mkDate (Fin a))) (Some (mkDate (Fin a))) (Fin 0).
Proof.
  unfold scheduleReview, initializeCard, PARAMETERS_W0_2_4, DEFAULT_PARAMETERS.
  cbn -[gt clamp01 add mul].
  unfold gt. rewrite lt_Fin by lra.
  cbn -[clamp01]. rewrite clamp01_above by lra. reflexivity.
Qed.

Lemma after_Again_Good_W0_2_4 (a b : R) :
  scheduleReview
    (scheduleReview initializeCard Again (mkDate (Fin a)) PARAMETERS_W0_2_4)
    Good (mkDate (Fin b)) PARAMETERS_W0_2_4 =
  mkCard review (Fin (25 / 10)) (Fin (24 / 10 * (94 / 100))) (Fin 1) (Fin 0)
         (Some (mkDate (Fin b)))
         (Some (date_plus_days (mkDate (Fin b)) (Fin 1))) (Fin 1).
Proof.
  rewrite after_Again_W0_2_4.
  unfold scheduleReview. cbn -[clamp01 add date_plus_days].
  cbn [add]. rewrite clamp01_above by lra. reflexivity.
Qed.

Lemma S3_W0_2_4_bounds : 5 / 2 < S3_W0_2_4 < 7 / 2.
Proof.
  unfold S3_W0_2_4, Rpower. rewrite ln_exp.
  pose proof ln_09_bounds as [Hlo Hhi].
  set (x := - (24 / 10) * (ln (9 / 10) * 1 / (24 / 10 * (94 / 100)))).
  assert (Hx : 10 / 100 <= x <= 12 / 100).
  { subst x.
    replace (- (24 / 10) * (ln (9 / 10) * 1 / (24 / 10 * (94 / 100))))
      with (- ln (9 / 10) * (50 / 47)) by (field; lra).
    lra. }
  pose proof (exp_ineq1_le x) as Hl.
  pose proof (exp_upper x ltac:(lra)) as Hu.
  assert (Hu' : / (1 - x) <= 100 / 88).
  { replace (100 / 88) with (/ (88 / 100)) by (field; lra).
    apply Rinv_le_contravar; lra. }
  split; nra.
Qed.

Lemma retrievability_one_day_W0_2_4 (b : R) (ws : list num) :
  memoryRetention (Fin (24 / 10 * (94 / 100)))
    (div (sub (Fin (b + 86400000)) (Fin b)) DAY_MS) ws =
  Fin (exp (ln (9 / 10) * 1 / (24 / 10 * (94 / 100)))).
Proof.
  unfold DAY_MS. cbn [sub neg add].
  rewrite div_Fin by lra.
  replace ((b + 86400000 + - b) / (24 * 60 * 60 * 1000)) with 1 by (field; lra).
  unfold memoryRetention. rewrite le_Fin_false by lra.
  rewrite jlog_Fin by lra. cbn [mul]. rewrite div_Fin by lra. reflexivity.
Qed.

Lemma interval_of_S3_W0_2_4 :
  nextInterval (Fin S3_W0_2_4) (Fin (9 / 10)) = Fin 3.
Proof.
  pose proof S3_W0_2_4_bounds as [Hlo Hhi].
  rewrite nextInterval_finite by lra.
  pose proof ln_09_neg as H09.
  replace (S3_W0_2_4 * ln (9 / 10) / ln (9 / 10)) with S3_W0_2_4
    by (field; lra).
  rewrite (Int_part_between (S3_W0_2_4 + / 2) 3) by lra.
  cbn. rdec; reflexivity.
Qed.

Lemma after_Again_Good_Good_W0_2_4 (a b : R) :
  let c1 := scheduleReview initializeCard Again (mkDate (Fin a))
                           PARAMETERS_W0_2_4 in
  let c2 := scheduleReview c1 Good (mkDate (Fin b)) PARAMETERS_W0_2_4 in
  let c3 := scheduleReview c2 Good (mkDate (Fin (b + 86400000)))
                           PARAMETERS_W0_2_4 in
  state c3 = review /\ stability c3 = Fin S3_W0_2_4 /\ interval c3 = Fin 3.
Proof.
  intros c1 c2 c3. subst c1 c2 c3. rewrite after_Again_Good_W0_2_4.
  unfold scheduleReview.
  cbn -[clamp01 add nextInterval date_plus_days memoryRetention jpow mul
        div sub neg DAY_MS].
  rewrite retrievability_one_day_W0_2_4.
  cbn [neg jpow]. rewrite Rsign_neg by lra.
  rewrite Rsign_pos by apply exp_pos.
  cbn [mul]. fold S3_W0_2_4.
  rewrite interval_of_S3_W0_2_4. repeat split.
Qed.

End EndToEnd.

(* ================================================================== *)
(** ** Claims about the FSRS engine *)
(* ================================================================== *)

Section FsrsClaims.

Local Open Scope R_scope.

(** A review card of stability 0 rated Good some time after its last
    review: the retrievability is 0, its power is [Infinity], and the new
    stability [0 * Infinity], the interval and the due date are [NaN]. *)
Lemma Good_on_zero_stability (card : FSRSCard) (a b : R) :
  state card = review -> stability card = Fin 0 ->
  lastReview card = Some (mkDate (Fin a)) -> a < b ->
  let r := scheduleReview card Good (mkDate (Fin b)) DEFAULT_PARAMETERS in
  stability r = NaN /\ interval r = NaN /\ dueDate r = Some (mkDate NaN).
Proof.
  intros Hs Hst Hl Hab r. subst r. unfold scheduleReview.
  rewrite Hs, Hst, Hl.
  cbn -[clamp01 add nextInterval date_plus_days memoryRetention jpow mul
        div sub neg DAY_MS].
  unfold DAY_MS. cbn [sub neg add].
  rewrite div_Fin by lra.
  rewrite memoryRetention_zero_stability.
  2:{ apply Rdiv_lt_0_compat; lra. }
  cbn [neg jpow]. rewrite Rsign_neg by lra. rewrite Rsign_zero.
  cbn [mul widx nth DEFAULT_PARAMETERS w].
  replace (0 * (101 / 100)) with 0 by lra.
  rewrite Rsign_zero. cbn [inf_of].
  assert (Hn : nextInterval NaN (Fin (9 / 10)) = NaN).
  { unfold nextInterval. cbn [le]. rewrite jlog_Fin by lra. reflexivity. }
  rewrite Hn. repeat split.
Qed.

(** C2 (code defect).  [memoryRetention] guards the elapsed time only.  At
    stability 0 after one day the quotient is [-Infinity] and the
    retrievability is 0, not 1; scheduling a review card of stability 0
    with Good then yields the stability [0 * Infinity = NaN], the interval
    [NaN] and an invalid due date, which reach the caller. *)
Theorem scheduleReview_zero_stability_reaches_caller :
  let card := mkCard review (Fin (25 / 10)) (Fin 0) (Fin (5 / 10)) (Fin 0)
                     (Some (mkDate (Fin 0))) (Some (mkDate (Fin 86400000)))
                     (Fin 1) in
  let r := scheduleReview card Good (mkDate (Fin 86400000))
                          DEFAULT_PARAMETERS in
  memoryRetention (stability card) (Fin 1) (w DEFAULT_PARAMETERS) = Fin 0 /\
  memoryRetention (stability card) (Fin 1) (w DEFAULT_PARAMETERS) <> Fin 1 /\
  stability r = NaN /\ interval r = NaN /\ dueDate r = Some (mkDate NaN).
Proof.
  intros card r.
  assert (Hm : memoryRetention (Fin 0) (Fin 1) (w DEFAULT_PARAMETERS) = Fin 0)
    by (apply memoryRetention_zero_stability; lra).
  split; [exact Hm |].
  split; [cbn [stability card]; rewrite Hm; intros H; inversion H; lra |].
  apply (Good_on_zero_stability card 0 86400000); try reflexivity. lra.
Qed.

(** The three ratings Again, Good, Good as the code computes them with
    the default parameters: Again at time [a] gives state [learning],
    interval 0 and a due date equal to [a]; Good at time [b] gives state
    [review] and interval 1; Good one day later gives a stability between
    0.6 and 1.4 days and again the interval 1. *)
Lemma again_good_good_as_computed (a b : R) :
  let c1 := scheduleReview initializeCard Again (mkDate (Fin a))
                           DEFAULT_PARAMETERS in
  let c2 := scheduleReview c1 Good (mkDate (Fin b)) DEFAULT_PARAMETERS in
  let c3 := scheduleReview c2 Good (mkDate (Fin (b + 86400000)))
                           DEFAULT_PARAMETERS in
  (state c1 = learning /\ interval c1 = Fin 0 /\
   dueDate c1 = Some (mkDate (Fin a)) /\ isDue c1 (mkDate (Fin a)) = true) /\
  (state c2 = review /\ interval c2 = Fin 1) /\
  (state c3 = review /\ interval c3 = Fin 1 /\
   exists s3, stability c3 = Fin s3 /\ 6 / 10 < s3 < 14 / 10).
Proof.
  intros c1 c2 c3.
  destruct (after_Again_Good_Good a b) as (H3s & H3st & H3i).
  fold c1 c2 c3 in H3s, H3st, H3i.
  assert (H1 : c1 = mkCard learning (Fin (25 / 10)) (Fin (4 / 10 * (94 / 100)))
                      (Fin 1) (Fin 0) (Some (mkDate (Fin a)))
                      (Some (mkDate (Fin a))) (Fin 0))
    by apply after_Again.
  assert (H2 : c2 = mkCard review (Fin (25 / 10)) (Fin (4 / 10 * (94 / 100)))
                      (Fin 1) (Fin 0) (Some (mkDate (Fin b)))
                      (Some (date_plus_days (mkDate (Fin b)) (Fin 1))) (Fin 1))
    by apply after_Again_Good.
  split; [| split].
  - rewrite H1. cbn -[le]. repeat split. apply le_Fin; lra.
  - rewrite H2. split; reflexivity.
  - repeat split; try assumption.
    exists S3. split; [assumption | apply S3_bounds].
Qed.

(** C5 (code defect).  From a new card with [DEFAULT_PARAMETERS], the
    ratings Again, Good, Good (the second Good one day after the first)
    give: after Again, state [learning] and a card that is due at once;
    after the first Good, state [review] and interval 1; after the second
    Good the interval is again 1 day, not more than 1.  The constant
    [w[0]] is 0.4 where its comment announces 2.4: with 2.4 the same
    ratings end with an interval of 3 days. *)
Theorem again_good_good_interval_one_day (a b : R) :
  let c1 := scheduleReview initializeCard Again (mkDate (Fin a))
                           DEFAULT_PARAMETERS in
  let c2 := scheduleReview c1 Good (mkDate (Fin b)) DEFAULT_PARAMETERS in
  let c3 := scheduleReview c2 Good (mkDate (Fin (b + 86400000)))
                           DEFAULT_PARAMETERS in
  let d1 := scheduleReview initializeCard Again (mkDate (Fin a))
                           PARAMETERS_W0_2_4 in
  let d2 := scheduleReview d1 Good (mkDate (Fin b)) PARAMETERS_W0_2_4 in
  let d3 := scheduleReview d2 Good (mkDate (Fin (b + 86400000)))
                           PARAMETERS_W0_2_4 in
  (state c1 = learning /\ isDue c1 (mkDate (Fin a)) = true /\
   state c2 = review /\ interval c2 = Fin 1) /\
  (interval c3 = Fin 1 /\ gt (interval c3) (Fin 1) = false) /\
  (interval d3 = Fin 3 /\ gt (interval d3) (Fin 1) = true).
Proof.
  intros c1 c2 c3 d1 d2 d3.
  destruct (again_good_good_as_computed a b)
    as ((H1 & _ & _ & H1d) & (H2 & H2i) & (_ & H3 & _)).
  fold c1 c2 c3 in H1, H1d, H2, H2i, H3.
  destruct (after_Again_Good_Good_W0_2_4 a b) as (_ & _ & H3').
  fold d1 d2 d3 in H3'.
  split; [repeat split; assumption |]. split.
  - split; [exact H3 |]. rewrite H3. unfold gt.
    apply lt_Fin_false. lra.
  - split; [exact H3' |]. rewrite H3'. unfold gt. apply lt_Fin. lra.
Qed.

End FsrsClaims.

(* ================================================================== *)
(** ** Session retention *)
(* ================================================================== *)

(** C9. The retention is [passed / total * 100] with
    [passed = hard + good + easy] (and 0 for an empty tally); on the tally
    {again: 1, hard: 1, good: 2, easy: 1} the binary64 result is exactly
    80. *)
Theorem calculateRetention_formula_and_example :
  (forall t : RatingsTally,
     (again t + hard t + good t + easy t <> 0)%Z ->
     calculateRetention t =
     (float_of_Z (hard t + good t + easy t) /
      float_of_Z (again t + hard t + good t + easy t) * 100)%float) /\
  calculateRetention (mkTally 1 1 2 1) = 80%float.
Proof.
  split.
  - intros t Ht. unfold calculateRetention.
    destruct (Z.eqb_spec (again t + hard t + good t + easy t) 0);
      [contradiction | reflexivity].
  - vm_compute. reflexivity.
Qed.

(* ================================================================== *)
(** ** The due-set selector *)
(* ================================================================== *)

Section DueSet.

Lemma In_insert_by {A} (leb : A -> A -> bool) (x y : A) (l : list A) :
  In x (insert_by leb y l) <-> x = y \/ In x l.
Proof.
  induction l as [| z l IH]; simpl.
  - intuition congruence.
  - destruct (leb y z); simpl; [intuition congruence |].
    rewrite IH. intuition congruence.
Qed.

Lemma In_sort_by {A} (leb : A -> A -> bool) (x : A) (l : list A) :
  In x (sort_by leb l) <-> In x l.
Proof.
  unfold sort_by. induction l as [| y l IH]; simpl; [reflexivity |].
  rewrite In_insert_by, IH. intuition congruence.
Qed.

Lemma due_at_null (now : Date) (r : AyahProgress) :
  ap_nextReview r = None -> due_at now r = true.
Proof. intros H. unfold due_at. now rewrite H. Qed.



























End DueSet.

(* ================================================================== *)
(** ** Effects: returning runs and rejected storage calls *)
(* ================================================================== *)

Section CleanRuns.

Lemma clean_ret {A} (a : A) : clean_returns (ret a).
Proof.
  intros w a' w' H. inversion H; subst. repeat split; [lia | intros; lia].
Qed.

Lemma clean_throw {A} (msg : string) : clean_returns (@throw A msg).
Proof. intros w a w' H. discriminate. Qed.

Lemma clean_bind {A B} (m : M A) (k : A -> M B) :
  clean_returns m -> (forall a, clean_returns (k a)) -> clean_returns (bind m k).
Proof.
  intros Hm Hk w b w' H. unfold bind in H.
  destruct (m w) as [[a | e] w1] eqn:Em; [| discriminate].
  destruct (Hm _ _ _ Em) as (Hf1 & Hc1 & Hn1).
  destruct (Hk a _ _ _ H) as (Hf2 & Hc2 & Hn2).
  repeat split.
  - congruence.
  - lia.
  - intros n Hn. destruct (Nat.lt_ge_cases n (calls w1)).
    + apply Hn1. lia.
    + rewrite <- Hf1. apply Hn2. lia.
Qed.

Lemma clean_executeQuery {A} (q : DB -> A) : clean_returns (executeQuery q).
Proof.
  intros w a w' H. unfold executeQuery in H.
  destruct (faults w (calls w)) eqn:Ef; inversion H; subst.
  cbn. repeat split; [lia |].
  intros n Hn. assert (n = calls w) by lia. congruence.
Qed.

Lemma clean_executeUpdate (u : DB -> DB) : clean_returns (executeUpdate u).
Proof.
  intros w a w' H. unfold executeUpdate in H.
  destruct (faults w (calls w)) eqn:Ef; inversion H; subst.
  cbn. repeat split; [lia |].
  intros n Hn. assert (n = calls w) by lia. congruence.
Qed.

Lemma clean_dateNow : clean_returns dateNow.
Proof.
  intros w a w' H. inversion H; subst. cbn. repeat split; [lia | intros; lia].
Qed.

Lemma clean_getSettings : clean_returns getSettings.
Proof.
  unfold getSettings. apply clean_bind; [apply clean_executeQuery |].
  intros [s |]; [apply clean_ret |].
  unfold createDefaultSettings.
  apply clean_bind; [apply clean_dateNow | intros _].
  apply clean_bind; [apply clean_executeUpdate | intros _; apply clean_ret].
Qed.

Lemma clean_getDueAyahs (limit : option Z) : clean_returns (getDueAyahs limit).
Proof.
  unfold getDueAyahs. apply clean_bind; [apply clean_dateNow |].
  intros now. apply clean_executeQuery.
Qed.

Lemma clean_session_loop (dueAyahs acc : list AyahProgress) (seen : list uuid) :
  clean_returns (session_loop dueAyahs acc seen).
Proof.
  revert acc seen. induction dueAyahs as [| a rest IH]; intros acc seen; cbn.
  - apply clean_ret.
  - destruct (ap_testWithGroup a &&
              negb (existsb (Nat.eqb (ap_groupId a)) seen)).
    + apply clean_bind; [apply clean_executeQuery | intros; apply IH].
    + destruct (negb (ap_testWithGroup a)); apply IH.
Qed.

Lemma clean_getTodayDueReviews_body : clean_returns getTodayDueReviews_body.
Proof.
  unfold getTodayDueReviews_body.
  apply clean_bind; [apply clean_getSettings | intros _].
  apply clean_bind; [apply clean_dateNow | intros now].
  apply clean_bind; [apply clean_executeQuery | intros due].
  destruct due; [apply clean_ret |].
  destruct (fold_left count_step _ _) as [[[n l] r] |];
    [apply clean_ret | apply clean_throw].
Qed.

Lemma clean_getSessionAyahs_body : clean_returns getSessionAyahs_body.
Proof.
  unfold getSessionAyahs_body.
  apply clean_bind; [apply clean_getSettings | intros s].
  apply clean_bind; [apply clean_getDueAyahs | intros due].
  apply clean_session_loop.
Qed.

(** A guarded block with a returning handler: it returns, and when a
    storage call was rejected on the way the result is the handler's. *)
Lemma try_catch_swallows {A} (body : M A) (fallback : A) (w : World) :
  clean_returns body ->
  exists a w', try_catch body (ret fallback) w = (Returned a, w') /\
               (fault_between w w' -> a = fallback).
Proof.
  intros Hc. unfold try_catch.
  destruct (body w) as [[a | e] w1] eqn:Eb.
  - exists a, w1. split; [reflexivity |].
    intros (n & Hn & Hf). destruct (Hc _ _ _ Eb) as (_ & _ & Hclean).
    rewrite (Hclean n Hn) in Hf. discriminate.
  - exists fallback, w1. split; [reflexivity | reflexivity].
Qed.

End CleanRuns.

(* ================================================================== *)
(** ** The grouping engine *)
(* ================================================================== *)

Section Grouping.

Lemma bind_returned {A B} {m : M A} (k : A -> M B) {w w1 : World} {a : A} :
  m w = (Returned a, w1) -> bind m k w = k a w1.
Proof. intros H. unfold bind. now rewrite H. Qed.

Lemma bind_ret {A B} (a : A) (k : A -> M B) (w : World) :
  bind (ret a) k w = k a w.
Proof. reflexivity. Qed.

Lemma bind_assoc_returned {A B C} {m : M A} (k0 : A -> M B) (k : B -> M C)
    {w w1 : World} {a : A} :
  m w = (Returned a, w1) -> bind (bind m k0) k w = bind (k0 a) k w1.
Proof. intros H. unfold bind. now rewrite H. Qed.

Lemma run_executeQuery {A} (q : DB -> A) (w : World) :
  fault_free w -> executeQuery q w = (Returned (q (db w)), count_call w).
Proof. intros H. unfold executeQuery. now rewrite H. Qed.

Lemma run_executeUpdate (u : DB -> DB) (w : World) :
  fault_free w ->
  executeUpdate u w = (Returned tt, set_db (u (db w)) (count_call w)).
Proof. intros H. unfold executeUpdate. now rewrite H. Qed.

Lemma same_env_refl (w : World) : same_env w w.
Proof. repeat split. Qed.

Lemma same_env_trans (a b c : World) :
  same_env a b -> same_env b c -> same_env a c.
Proof. unfold same_env. intuition congruence. Qed.

Lemma same_env_fault_free (w w' : World) :
  same_env w w' -> fault_free w -> fault_free w'.
Proof. intros (Hf & _) H n. rewrite Hf. apply H. Qed.

Lemma fixed_loop_layout (surah : Surah) (size : Z) (fuel : nat) :
  forall (start : Z) (w : World),
  exists w',
    fixed_loop fuel surah size start w =
      (Returned (fixed_layout fuel surah size start (next_uuid w)), w') /\
    same_env w w' /\ db w' = db w.
Proof.
  induction fuel as [| fuel IH]; intros start w; cbn.
  - exists w. repeat split.
  - destruct (start <=? ayahCount surah)%Z.
    + unfold bind at 1. cbn [uuidv4].
      set (w1 := mkWorld (db w) (ticks w) (reads w) (S (next_uuid w))
                         (faults w) (calls w) (provider w)).
      destruct (IH (start + size)%Z w1) as (w' & Hrun & Henv & Hdb).
      rewrite (bind_returned _ Hrun). cbn.
      exists w'. split; [reflexivity |]. split; [| exact Hdb].
      eapply same_env_trans; [| exact Henv]. repeat split.
    + exists w. repeat split.
Qed.

(** The fuel given by [createFixedGroups] is enough: past the bound the
    loop has stopped by its own test, and more fuel changes nothing. *)
Lemma fixed_layout_fuel_enough (s : Surah) (size : Z) :
  (1 <= size)%Z ->
  forall (fuel : nat) (start : Z) (id : uuid),
    (Z.to_nat (ayahCount s - start + 1) <= fuel)%nat ->
    fixed_layout (S fuel) s size start id = fixed_layout fuel s size start id.
Proof.
  intros Hsize. induction fuel as [| fuel IH]; intros start id Hf.
  - cbn. destruct (Z.leb_spec start (ayahCount s)); [lia | reflexivity].
  - cbn [fixed_layout].
    destruct (Z.leb_spec start (ayahCount s)); [| reflexivity].
    f_equal. apply IH. lia.
Qed.

Lemma createFixedGroups_run (surah : Surah) (n : Z) (w : World) :
  fault_free w ->
  exists w',
    createFixedGroups surah n w =
      (Returned (fixed_layout (Z.to_nat (ayahCount surah)) surah
                   (Z.max 1 (if (n =? 0)%Z then 5 else n)) 1 (next_uuid w)),
       w') /\
    same_env w w' /\ db w' = delete_groups (number surah) fixed (db w).
Proof.
  intros Hff. unfold createFixedGroups.
  rewrite (bind_returned _ (run_executeUpdate _ _ Hff)).
  destruct (fixed_loop_layout surah (Z.max 1 (if (n =? 0)%Z then 5 else n))
              (Z.to_nat (ayahCount surah)) 1
              (set_db (delete_groups (number surah) fixed (db w))
                      (count_call w))) as (w' & Hrun & Henv & Hdb).
  exists w'. split; [exact Hrun |]. split; [| exact Hdb].
  eapply same_env_trans; [| exact Henv]. repeat split.
Qed.

Lemma save_all_run (groups : list AyahGroup) :
  forall w : World,
  fault_free w ->
  exists w',
    for_each saveGroupToDatabase groups w =
      (Returned (map (fun _ => tt) groups), w') /\
    same_env w w' /\ next_uuid w' = next_uuid w /\
    db w' = set_ayah_groups (ayah_groups (db w) ++ groups) (db w).
Proof.
  induction groups as [| g rest IH]; intros w Hff; cbn [for_each map].
  - exists w. split; [reflexivity |]. split; [apply same_env_refl |].
    split; [reflexivity |].
    rewrite app_nil_r. destruct (db w); reflexivity.
  - unfold saveGroupToDatabase at 1.
    rewrite (bind_returned _ (run_executeUpdate _ _ Hff)).
    set (w1 := set_db _ (count_call w)).
    assert (Hff1 : fault_free w1) by exact Hff.
    destruct (IH w1 Hff1) as (w' & Hrun & Henv & Hid & Hdb).
    rewrite (bind_returned _ Hrun). cbn.
    exists w'. split; [reflexivity |].
    split; [eapply same_env_trans; [| exact Henv]; repeat split |].
    split; [exact Hid |].
    rewrite Hdb. subst w1. cbn. unfold set_ayah_groups. cbn.
    now rewrite <- app_assoc.
Qed.

(** The guarded refresh never throws, and leaves the boundaries missing
    when they are unavailable. *)
Lemma refresh_unavailable (method : GroupType) (surah : Surah)
    (wantRukus wantPages : bool) (w : World) :
  fault_free w ->
  boundaries_unavailable method surah w ->
  exists surah' w',
    refresh_boundaries wantRukus wantPages surah w = (Returned surah', w') /\
    same_env w w' /\
    ayah_groups (db w') = ayah_groups (db w) /\
    next_uuid w' = next_uuid w /\
    number surah' = number surah /\ ayahCount surah' = ayahCount surah /\
    boundaries_of method surah' = [].
Proof.
  intros Hff (Hempty & Hfetch).
  unfold refresh_boundaries, try_catch, bind, fetchAyahsForSurah.
  destruct (provider w (number surah) (db w)) as [q |] eqn:Ep.
  - specialize (Hfetch _ _ Ep).
    unfold executeQuery. cbn [faults calls db set_db count_call].
    rewrite Hff. cbn [quran_surahs set_quran].
    destruct (filter _ (fst q)) as [| row rest].
    + cbn. exists surah, (count_call (set_db (set_quran q (db w)) w)).
      repeat split; assumption.
    + unfold boundaries_of, boundary_column in *.
      destruct method, wantRukus, wantPages, (sr_rukus row) as [rk |],
        (sr_pages row) as [pg |];
        cbn; eexists _, _; (split; [reflexivity |]);
        repeat split; cbn;
        try assumption;
        try (destruct Hfetch as [Hc | Hc]; congruence).
  - exists surah, w. repeat split; assumption.
Qed.

Lemma fixed_layout_ext (s s' : Surah) (fuel : nat) :
  number s = number s' -> ayahCount s = ayahCount s' ->
  forall size start id,
    fixed_layout fuel s size start id = fixed_layout fuel s' size start id.
Proof.
  intros Hn Hc. induction fuel as [| fuel IH]; intros size start id; cbn;
    [reflexivity |].
  rewrite Hc, IH. unfold newGroup. now rewrite Hn.
Qed.

Lemma fixed_layout_testAsGroup (s : Surah) (fuel : nat) :
  forall size start id,
    map (set_testAsGroup true) (fixed_layout fuel s size start id) =
    fixed_layout fuel s size start id.
Proof.
  induction fuel as [| fuel IH]; intros size start id; cbn; [reflexivity |].
  destruct (start <=? ayahCount s)%Z; cbn; [| reflexivity].
  now rewrite IH.
Qed.

Lemma unavailable_transfer (method : GroupType) (s s' : Surah) (w w' : World) :
  same_env w w' -> number s' = number s -> boundaries_of method s' = [] ->
  boundaries_unavailable method s w -> boundaries_unavailable method s' w'.
Proof.
  intros (_ & Hp & _) Hn He (_ & Hf). split; [exact He |].
  intros d q Hq. rewrite Hn. apply (Hf d q). now rewrite <- Hp, <- Hn.
Qed.

Lemma is_empty_nil {A} (l : list A) : l = [] -> is_empty l = true.
Proof. intros ->. reflexivity. Qed.

(** The strategy for a boundary method falls back to [fixed(5)] when the
    boundaries are unavailable. *)
Lemma createBoundaryGroups_fallback (method : GroupType) (surah : Surah)
    (w : World) :
  fault_free w ->
  boundaries_unavailable method surah w ->
  exists w',
    createBoundaryGroups method surah w =
      (Returned (fixed_layout (Z.to_nat (ayahCount surah)) surah 5 1
                              (next_uuid w)), w') /\
    same_env w w' /\
    ayah_groups (db w') =
      filter (fun g => negb (groups_of (number surah) fixed g))
             (ayah_groups (db w)).
Proof.
  intros Hff Hun. unfold createBoundaryGroups.
  destruct Hun as (Hempty & Hfetch).
  fold (boundaries_of method surah). rewrite (is_empty_nil _ Hempty).
  destruct (refresh_unavailable method surah
              (negb (GroupType_eqb method page))
              (negb (negb (GroupType_eqb method page))) w Hff
              (conj Hempty Hfetch))
    as (s1 & w1 & Hrun & Henv & Hg & Hid & Hn & Hc & He).
  match goal with
  | |- context [bind (bind ?m ?k1) ?k2] =>
      assert (Hb : bind m k1 w =
                   (fallback <- createFixedGroups s1 5 ;; ret (inr fallback))%monad
                     w1)
  end.
  { rewrite (bind_returned _ Hrun).
    fold (boundaries_of method s1). now rewrite (is_empty_nil _ He). }
  destruct (createFixedGroups_run s1 5 w1 (same_env_fault_free _ _ Henv Hff))
    as (w2 & Hfix & Henv2 & Hdb2).
  rewrite (bind_returned _ Hfix) in Hb. cbn [ret] in Hb.
  unfold bind at 1. rewrite Hb. cbn [ret].
  exists w2. split; [| split].
  - unfold ret.
    change (Z.max 1 (if (5 =? 0)%Z then 5 else 5)) with 5%Z.
    rewrite Hid, (fixed_layout_ext s1 surah _ Hn Hc), Hc. reflexivity.
  - eapply same_env_trans; eassumption.
  - rewrite Hdb2. cbn. now rewrite Hg, Hn.
Qed.

Lemma select_groups_ext (n : Z) (method : GroupType) (d d' : DB) :
  ayah_groups d' = ayah_groups d ->
  select_groups n method d' = select_groups n method d.
Proof. intros H. unfold select_groups. now rewrite H. Qed.

(** C7. For the ruku and page strategies, with no stored groups of that
    strategy and a store that accepts every call: when the boundary
    metadata is unavailable (a fetch that rejects, or that leaves the
    column empty or unparsable), [createGroupsForSurah] returns, and what
    it returns and saves are the fixed groups of 5 covering the surah,
    whatever the requested size. *)
Theorem boundary_fallback_creates_fixed_groups (method : GroupType)
    (surah : Surah) (size : Z) (w : World) :
  method = ruku \/ method = page ->
  fault_free w ->
  boundaries_unavailable method surah w ->
  select_groups (number surah) method (db w) = [] ->
  exists w',
    createGroupsForSurah surah method size w =
      (Returned (fixed_layout (Z.to_nat (ayahCount surah)) surah 5 1
                              (next_uuid w)), w') /\
    ayah_groups (db w') =
      filter (fun g => negb (groups_of (number surah) fixed g))
        (filter (fun g => negb (groups_of (number surah) method g))
                (ayah_groups (db w)))
      ++ fixed_layout (Z.to_nat (ayahCount surah)) surah 5 1 (next_uuid w).
Proof.
  intros Hm Hff Hun Hnone.
  assert (Hcond : (GroupType_eqb method ruku || GroupType_eqb method page)
                  && (is_empty (rukus surah) || is_empty (pages surah))
                  = true).
  { destruct Hun as (He & _).
    destruct Hm as [-> | ->]; cbn in He; rewrite He; cbn;
      [reflexivity | apply orb_true_r]. }
  assert (Hnf : GroupType_eqb method fixed = false)
    by (destruct Hm as [-> | ->]; reflexivity).
  destruct (refresh_unavailable method surah true true w Hff Hun)
    as (s1 & w1 & Hrun & Henv1 & Hg1 & Hid1 & Hn1 & Hc1 & He1).
  pose proof (same_env_fault_free _ _ Henv1 Hff) as Hff1.
  unfold createGroupsForSurah. rewrite Hcond, Hnf.
  rewrite (bind_returned _ Hrun).
  rewrite (bind_returned _ (run_executeQuery _ _ Hff1)).
  rewrite (select_groups_ext _ _ _ _ Hg1), Hn1, Hnone. cbn [is_empty negb].
  assert (Hff2 : fault_free (count_call w1)) by exact Hff1.
  rewrite (bind_returned _ (run_executeUpdate _ _ Hff2)).
  set (w2 := set_db _ (count_call (count_call w1))).
  assert (Henv2 : same_env w w2).
  { eapply same_env_trans; [exact Henv1 |]. repeat split. }
  pose proof (same_env_fault_free _ _ Henv2 Hff) as Hff3.
  assert (Hun2 : boundaries_unavailable method s1 w2)
    by (eapply unavailable_transfer; eassumption).
  destruct (createBoundaryGroups_fallback method s1 w2 Hff3 Hun2)
    as (w3 & Hfb & Henv3 & Hg3).
  assert (Hstrategy :
            match method with
            | fixed => createFixedGroups s1 size
            | ruku => createRukuGroups s1
            | page => createPageGroups s1
            | custom => createFixedGroups s1 size
            end = createBoundaryGroups method s1)
    by (destruct Hm as [-> | ->]; reflexivity).
  rewrite Hstrategy, (bind_returned _ Hfb).
  rewrite fixed_layout_testAsGroup.
  destruct (save_all_run
              (fixed_layout (Z.to_nat (ayahCount s1)) s1 5 1 (next_uuid w2))
              w3 (same_env_fault_free _ _ Henv3 Hff3))
    as (w4 & Hsave & Henv4 & Hid4 & Hdb4).
  rewrite (bind_returned _ Hsave).
  assert (Hlay : fixed_layout (Z.to_nat (ayahCount s1)) s1 5 1 (next_uuid w2)
                 = fixed_layout (Z.to_nat (ayahCount surah)) surah 5 1
                                (next_uuid w)).
  { subst w2. cbn [next_uuid set_db count_call].
    rewrite Hid1, (fixed_layout_ext s1 surah _ Hn1 Hc1), Hc1. reflexivity. }
  exists w4. split.
  - unfold ret. now rewrite Hlay.
  - rewrite Hdb4. cbn [ayah_groups set_ayah_groups]. rewrite Hg3, Hlay.
    subst w2. cbn. now rewrite Hg1, Hn1.
Qed.

Lemma boundary_fallback_creates_fixed_groups_witness :
  exists w',
    createGroupsForSurah (mkSurah 2 12 [] []) ruku 7 (quietWorld emptyDB) =
      (Returned (fixed_layout 12 (mkSurah 2 12 [] []) 5 1 100), w') /\
    ayah_groups (db w') = fixed_layout 12 (mkSurah 2 12 [] []) 5 1 100.
Proof.
  apply (boundary_fallback_creates_fixed_groups ruku (mkSurah 2 12 [] []) 7
           (quietWorld emptyDB)).
  - left. reflexivity.
  - intros n. reflexivity.
  - split; [reflexivity |]. intros d q H. discriminate.
  - reflexivity.
Defined.

(** The layout of the fallback for twelve ayahs: [1-5], [6-10], [11-12]. *)
Example fixed_layout_twelve :
  map (fun g => (startAyah g, endAyah g, groupType g, testAsGroup g))
      (fixed_layout 12 (mkSurah 2 12 [] []) 5 1 100) =
  [(1, 5, fixed, true); (6, 10, fixed, true); (11, 12, fixed, true)]%Z.
Proof. reflexivity. Qed.

(** C6 (code defect).  A surah of three ayahs, an empty store: the first
    call stores the single group [1-3]; the second call finds it, computes
    its size 3, takes it for a change of the requested size 5, deletes it
    and stores a new group [1-3] under a new identifier. *)
Theorem createGroupsForSurah_short_surah_regenerates :
  let surah := mkSurah 108 3 [1%Z] [1%Z] in
  exists g1 g2 w1 w2,
    createGroupsForSurah surah fixed 5 (quietWorld emptyDB)
      = (Returned [g1], w1) /\
    createGroupsForSurah surah fixed 5 w1 = (Returned [g2], w2) /\
    (startAyah g1, endAyah g1) = (1, 3)%Z /\
    (startAyah g2, endAyah g2) = (1, 3)%Z /\
    ag_id g1 <> ag_id g2 /\ [g1] <> [g2] /\
    ayah_groups (db w1) = [g1] /\ ayah_groups (db w2) = [g2].
Proof.
  intros surah. eexists _, _, _, _.
  split; [vm_compute; reflexivity |].
  split; [vm_compute; reflexivity |].
  cbn. repeat split; try discriminate.
Qed.

Lemma filter_groups_of_deleted (n : Z) (m : GroupType) (l : list AyahGroup) :
  filter (groups_of n m) (filter (fun g => negb (groups_of n m g)) l) = [].
Proof.
  induction l as [| g l IH]; cbn; [reflexivity |].
  destruct (groups_of n m g) eqn:E; cbn; [exact IH |].
  now rewrite E.
Qed.

Lemma fixed_layout_groups_of (s : Surah) (fuel : nat) :
  forall size start id,
    filter (groups_of (number s) fixed) (fixed_layout fuel s size start id) =
    fixed_layout fuel s size start id.
Proof.
  induction fuel as [| fuel IH]; intros size start id; cbn; [reflexivity |].
  destruct (start <=? ayahCount s)%Z; cbn; [| reflexivity].
  unfold groups_of at 1. cbn. rewrite Z.eqb_refl. cbn. now rewrite IH.
Qed.

(** The loop emits the groups in ascending order of their first ayah. *)
Lemma fixed_layout_sorted (s : Surah) (fuel : nat) :
  forall size start id,
    (0 <= size)%Z ->
    sort_by start_leb (fixed_layout fuel s size start id) =
    fixed_layout fuel s size start id.
Proof.
  unfold sort_by.
  induction fuel as [| fuel IH]; intros size start id Hsize; cbn;
    [reflexivity |].
  destruct (start <=? ayahCount s)%Z; cbn; [| reflexivity].
  rewrite IH by assumption.
  destruct fuel as [| fuel']; cbn; [reflexivity |].
  destruct (start + size <=? ayahCount s)%Z; cbn; [| reflexivity].
  unfold start_leb. cbn.
  destruct (Z.leb_spec start (start + size)); [reflexivity | lia].
Qed.

(** The regeneration of the fixed groups: delete, build, save. *)
Lemma regenerate_fixed_run (surah : Surah) (size : Z) (w : World) :
  fault_free w -> (1 <= size)%Z ->
  exists w',
    (executeUpdate (delete_groups (number surah) fixed) ;;;
     groups <- createFixedGroups surah size ;;
     (for_each saveGroupToDatabase (map (set_testAsGroup true) groups) ;;;
      ret (map (set_testAsGroup true) groups)))%monad w =
    (Returned (fixed_layout (Z.to_nat (ayahCount surah)) surah size 1
                            (next_uuid w)), w') /\
    same_env w w' /\
    select_groups (number surah) fixed (db w') =
      fixed_layout (Z.to_nat (ayahCount surah)) surah size 1 (next_uuid w).
Proof.
  intros Hff Hsize.
  rewrite (bind_returned _ (run_executeUpdate _ _ Hff)).
  set (w1 := set_db _ (count_call w)).
  assert (Hff1 : fault_free w1) by exact Hff.
  destruct (createFixedGroups_run surah size w1 Hff1)
    as (w2 & Hfix & Henv2 & Hdb2).
  assert (Hsz : Z.max 1 (if (size =? 0)%Z then 5%Z else size) = size).
  { destruct (Z.eqb_spec size 0); lia. }
  rewrite Hsz in Hfix. rewrite (bind_returned _ Hfix).
  rewrite fixed_layout_testAsGroup.
  change (next_uuid w1) with (next_uuid w).
  set (L := fixed_layout _ surah size 1 (next_uuid w)).
  assert (Hff2 : fault_free w2) by (eapply same_env_fault_free; eassumption).
  destruct (save_all_run L w2 Hff2) as (w3 & Hsave & Henv3 & _ & Hdb3).
  rewrite (bind_returned _ Hsave). cbn [ret].
  exists w3. split; [reflexivity |]. split.
  - eapply same_env_trans; [| exact Henv3].
    eapply same_env_trans; [| exact Henv2]. repeat split.
  - unfold select_groups. rewrite Hdb3. cbn [ayah_groups set_ayah_groups].
    rewrite filter_app, Hdb2. cbn [ayah_groups delete_groups set_ayah_groups].
    rewrite filter_groups_of_deleted. cbn [app].
    unfold L. rewrite fixed_layout_groups_of.
    apply fixed_layout_sorted. lia.
Qed.

(** When the surah has at least [size] ayahs, two calls in a row for the
    fixed strategy return the same groups and the second call leaves the
    table as it is: the case in which the grouping is idempotent. *)
Lemma createGroupsForSurah_fixed_idempotent (surah : Surah) (size : Z)
    (w : World) :
  fault_free w -> (1 <= size <= ayahCount surah)%Z ->
  exists groups w1 w2,
    createGroupsForSurah surah fixed size w = (Returned groups, w1) /\
    createGroupsForSurah surah fixed size w1 = (Returned groups, w2) /\
    ayah_groups (db w2) = ayah_groups (db w1).
Proof.
  intros Hff [Hs1 Hs2].
  (* a call that finds stored groups whose first has the requested size *)
  assert (Hkeep : forall (v : World) first rest,
            fault_free v ->
            select_groups (number surah) fixed (db v) = first :: rest ->
            (endAyah first - startAyah first + 1 =? size)%Z = true ->
            createGroupsForSurah surah fixed size v
              = (Returned (first :: rest), count_call v)).
  { intros v first rest Hv Hsel Hsz. unfold createGroupsForSurah.
    cbn [GroupType_eqb orb andb]. rewrite bind_ret.
    rewrite (bind_assoc_returned _ _ (run_executeQuery _ _ Hv)).
    rewrite Hsel, Hsz. cbn [negb]. rewrite bind_ret.
    reflexivity. }
  (* a call that regenerates *)
  assert (Hregen : forall (v : World),
            fault_free v ->
            match select_groups (number surah) fixed (db v) with
            | first :: _ =>
                (endAyah first - startAyah first + 1 =? size)%Z = false
            | [] => True
            end ->
            exists v',
              createGroupsForSurah surah fixed size v =
                (Returned (fixed_layout (Z.to_nat (ayahCount surah)) surah
                             size 1 (next_uuid v)), v') /\
              same_env v v' /\
              select_groups (number surah) fixed (db v') =
                fixed_layout (Z.to_nat (ayahCount surah)) surah size 1
                             (next_uuid v)).
  { intros v Hv Hsel. unfold createGroupsForSurah.
    cbn [GroupType_eqb orb andb]. rewrite bind_ret.
    destruct (select_groups (number surah) fixed (db v))
      as [| first rest] eqn:Esel.
    - rewrite (bind_assoc_returned _ _ (run_executeQuery _ _ Hv)).
      rewrite Esel, bind_ret. cbn [is_empty negb].
      destruct (regenerate_fixed_run surah size (count_call v) Hv Hs1)
        as (v' & Hrun & Henv & Hsel').
      exists v'. split; [exact Hrun |]. split; [| exact Hsel'].
      eapply same_env_trans; [| exact Henv]. repeat split.
    - rewrite (bind_assoc_returned _ _ (run_executeQuery _ _ Hv)).
      rewrite Esel, Hsel. cbn [negb].
      assert (Hv1 : fault_free (count_call v)) by exact Hv.
      rewrite (bind_assoc_returned _ _ (run_executeUpdate _ _ Hv1)).
      rewrite bind_ret. cbn [is_empty negb].
      set (v2 := set_db _ (count_call (count_call v))).
      assert (Hv2 : fault_free v2) by exact Hv.
      destruct (regenerate_fixed_run surah size v2 Hv2 Hs1)
        as (v' & Hrun & Henv & Hsel').
      exists v'. split; [exact Hrun |]. split; [| exact Hsel'].
      eapply same_env_trans; [| exact Henv]. repeat split. }
  (* the stored groups after a regeneration start with a group of [size] *)
  assert (Hhead : forall id,
            exists first rest,
              fixed_layout (Z.to_nat (ayahCount surah)) surah size 1 id
                = first :: rest /\
              (endAyah first - startAyah first + 1 =? size)%Z = true).
  { intros id. destruct (Z.to_nat (ayahCount surah)) as [| fuel] eqn:Ef;
      [lia |].
    cbn [fixed_layout]. destruct (Z.leb_spec 1 (ayahCount surah)); [| lia].
    eexists _, _. split; [reflexivity |].
    cbn [newGroup startAyah endAyah]. apply Z.eqb_eq. lia. }
  destruct (select_groups (number surah) fixed (db w))
    as [| first rest] eqn:Esel.
  - destruct (Hregen w Hff) as (w1 & Hrun & Henv & Hsel1);
      [now rewrite Esel |].
    destruct (Hhead (next_uuid w)) as (f & r & Hl & Hsz).
    rewrite Hl in *.
    exists (f :: r), w1, (count_call w1). split; [exact Hrun |].
    split; [| reflexivity].
    apply Hkeep; [eapply same_env_fault_free; eassumption | exact Hsel1
                 | exact Hsz].
  - destruct (endAyah first - startAyah first + 1 =? size)%Z eqn:Esz.
    + exists (first :: rest), (count_call w), (count_call (count_call w)).
      split; [now apply Hkeep |]. split; [| reflexivity].
      apply Hkeep; [exact Hff | exact Esel | exact Esz].
    + destruct (Hregen w Hff) as (w1 & Hrun & Henv & Hsel1);
        [now rewrite Esel |].
      destruct (Hhead (next_uuid w)) as (f & r & Hl & Hsz).
      rewrite Hl in *.
      exists (f :: r), w1, (count_call w1). split; [exact Hrun |].
      split; [| reflexivity].
      apply Hkeep; [eapply same_env_fault_free; eassumption | exact Hsel1
                   | exact Hsz].
Qed.

End Grouping.

(* ================================================================== *)
(** ** The review session *)
(* ================================================================== *)

Section Session.

Lemma write_progress_own (r : AyahProgress) (rating : Rating)
    (e : option num) (now : Date) :
  write_progress (updatedProgress r rating e now) r =
  updatedProgress r rating e now.
Proof.
  unfold write_progress. cbn [ap_id updatedProgress].
  now rewrite Nat.eqb_refl.
Qed.

Lemma write_progress_id (u r : AyahProgress) :
  ap_id (write_progress u r) = ap_id r.
Proof. unfold write_progress. now destruct (ap_id r =? ap_id u)%nat. Qed.

Lemma write_progress_other (u r : AyahProgress) :
  ap_id r <> ap_id u -> write_progress u r = r.
Proof.
  intros H. unfold write_progress.
  destruct (Nat.eqb_spec (ap_id r) (ap_id u)); [contradiction | reflexivity].
Qed.

Lemma filter_id_after_write (u : AyahProgress) (id : uuid)
    (rows : list AyahProgress) :
  ap_id u <> id ->
  filter (fun r => (ap_id r =? id)%nat) (map (write_progress u) rows) =
  filter (fun r => (ap_id r =? id)%nat) rows.
Proof.
  intros Hne. induction rows as [| r rows IH]; cbn [map filter];
    [reflexivity |].
  rewrite write_progress_id, IH.
  destruct (Nat.eqb_spec (ap_id r) id) as [He | He]; [| reflexivity].
  rewrite write_progress_other by congruence. reflexivity.
Qed.

(** One update of a stored record in a store that accepts the calls. *)
Lemma updateAyahProgress_run (id : uuid) (rating : Rating) (e : option num)
    (w : World) (r : AyahProgress) (rest : list AyahProgress) :
  fault_free w ->
  filter (fun x => (ap_id x =? id)%nat) (ayah_progress (db w)) = r :: rest ->
  valid_due (updatedProgress r rating e (nth_reading w 0)) ->
  exists w',
    updateAyahProgress id rating e w =
      (Returned (updatedProgress r rating e (nth_reading w 0)), w') /\
    same_env w w' /\ reads w' = S (reads w) /\
    ayah_progress (db w') =
      map (write_progress (updatedProgress r rating e (nth_reading w 0)))
          (ayah_progress (db w)).
Proof.
  intros Hff Hrow Hvalid. unfold updateAyahProgress.
  rewrite (bind_returned _ (run_executeQuery _ _ Hff)), Hrow.
  unfold bind at 1. cbn [dateNow].
  replace (mkDate (Fin (IZR (ticks (count_call w) (reads (count_call w))))))
    with (nth_reading w 0)
    by (unfold nth_reading; cbn; now rewrite Nat.add_0_r).
  set (u := updatedProgress r rating e (nth_reading w 0)) in *.
  unfold bind at 1. unfold toISOString at 1.
  cbn [nth_reading getTime is_finite ret].
  unfold valid_due in Hvalid. unfold bind at 1.
  destruct (ap_nextReview u) as [d |] eqn:Ed.
  - unfold toISOString. rewrite Hvalid. cbn [ret].
    set (w1 := mkWorld _ _ _ _ _ _ _).
    assert (Hff1 : fault_free w1) by exact Hff.
    rewrite (bind_returned _ (run_executeUpdate _ _ Hff1)). cbn.
    eexists. split; [reflexivity |]. repeat split.
  - cbn [ret].
    set (w1 := mkWorld _ _ _ _ _ _ _).
    assert (Hff1 : fault_free w1) by exact Hff.
    rewrite (bind_returned _ (run_executeUpdate _ _ Hff1)). cbn.
    eexists. split; [reflexivity |]. repeat split.
Qed.

(** [endSession] returns in every world; it leaves the item records and
    the count of reviews alone. *)
Lemma endSession_returns (s p : SessionState) (n : option Z)
    (t : option RatingsTally) (w : World) :
  exists p' w',
    endSession s n t p w = (Returned p', w') /\
    totalReviewed p' = totalReviewed p /\
    ayah_progress (db w') = ayah_progress (db w) /\
    reads w' = reads w.
Proof.
  unfold endSession, updateSessionStatistics, try_catch, executeQuery,
    executeUpdate, throw, ret, bind.
  destruct (sessionStats s) as [stats |].
  - destruct (faults w (calls w)).
    + eexists _, _. split; [reflexivity |]. destruct (timer s); repeat split.
    + destruct (filter _ (session_statistics (db w))).
      * eexists _, _. split; [reflexivity |].
        destruct (timer s); repeat split.
      * cbn [faults calls count_call].
        destruct (faults w (S (calls w))).
        -- eexists _, _. split; [reflexivity |].
           destruct (timer s); repeat split.
        -- eexists _, _. split; [reflexivity |].
           destruct (timer s); repeat split.
  - eexists _, _. split; [reflexivity |]. destruct (timer s); repeat split.
Qed.

Lemma goToNextAyah_totalReviewed (s p : SessionState) :
  totalReviewed (goToNextAyah s p) = totalReviewed p.
Proof.
  unfold goToNextAyah.
  destruct (len (ayahs s) - 1 <=? ayahIndex s)%Z; [reflexivity |].
  destruct (currentAyah s) as [cur |].
  - destruct (ap_testWithGroup cur).
    + destruct (uniqueGroupIndex s <? len (uniqueGroups s) - 1)%Z;
        [| reflexivity].
      destruct (nth_error _ _); [destruct (findIndex _ _) |]; reflexivity.
    + destruct (uniqueGroupIndex s <? len (uniqueGroups s) - 1)%Z;
        reflexivity.
  - destruct (uniqueGroupIndex s <? len (uniqueGroups s) - 1)%Z; reflexivity.
Qed.

Lemma nth_reading_shift (w w' : World) (j i : nat) :
  same_env w w' -> reads w' = (reads w + j)%nat ->
  nth_reading w' i = nth_reading w (j + i).
Proof.
  intros (_ & _ & Ht) Hr. unfold nth_reading.
  now rewrite Ht, Hr, Nat.add_assoc.
Qed.

Lemma filter_singleton_id (id : uuid) (rows : list AyahProgress)
    (r : AyahProgress) :
  filter (fun x => (ap_id x =? id)%nat) rows = [r] -> ap_id r = id.
Proof.
  intros H.
  assert (Hin : In r (filter (fun x => (ap_id x =? id)%nat) rows))
    by (rewrite H; now left).
  apply filter_In in Hin. now apply Nat.eqb_eq.
Qed.

(** The elapsed time of [rateAyah] and the clock readings it costs. *)
Lemma elapsed_run (s : SessionState) (w : World) :
  exists wa,
    match ayahStartTime s with
    | Some t0 =>
        (now <- dateNow ;; ret (sub (getTime now) (getTime t0)))%monad
    | None => ret (Fin 0)
    end w = (Returned (elapsed_of s w), wa) /\
    same_env w wa /\ db wa = db w /\
    reads wa = (reads w + elapsed_reads s)%nat.
Proof.
  unfold elapsed_of, elapsed_reads, nth_reading.
  destruct (ayahStartTime s) as [t0 |].
  - unfold bind, dateNow, ret. rewrite Nat.add_0_r.
    eexists. split; [reflexivity |]. cbn. repeat split. lia.
  - exists w. cbn. repeat split. lia.
Qed.

(** Rating a unit of three members in a store that accepts every call:
    the three records are updated one after the other, each at its own
    reading of the clock, and the count of reviews grows by one. *)
Lemma rateAyah_group_run (rating : Rating) (s : SessionState) (w : World)
    (cur m2 m3 r1 r2 r3 : AyahProgress) :
  currentAyah s = Some cur -> ap_testWithGroup cur = true ->
  groupAyahs_of s cur = [m2; m3] ->
  fault_free w ->
  ap_id cur <> ap_id m2 -> ap_id cur <> ap_id m3 -> ap_id m2 <> ap_id m3 ->
  filter (fun x => (ap_id x =? ap_id cur)%nat) (ayah_progress (db w)) = [r1] ->
  filter (fun x => (ap_id x =? ap_id m2)%nat) (ayah_progress (db w)) = [r2] ->
  filter (fun x => (ap_id x =? ap_id m3)%nat) (ayah_progress (db w)) = [r3] ->
  let e := Some (elapsed_of s w) in
  let k := elapsed_reads s in
  let u1 := updatedProgress r1 rating e (nth_reading w k) in
  let u2 := updatedProgress r2 rating e (nth_reading w (S k)) in
  let u3 := updatedProgress r3 rating e (nth_reading w (S (S k))) in
  valid_due u1 -> valid_due u2 -> valid_due u3 ->
  exists s' w',
    rateAyah rating s w = (Returned s', w') /\
    totalReviewed s' = (totalReviewed s + 1)%Z /\
    ayah_progress (db w') =
      map (write_progress u3)
        (map (write_progress u2)
           (map (write_progress u1) (ayah_progress (db w)))).
Proof.
  intros Hcur Hgrp Hsib Hff H12 H13 H23 Hr1 Hr2 Hr3 e k u1 u2 u3 Hv1 Hv2 Hv3.
  pose proof (filter_singleton_id _ _ _ Hr1) as Hid1.
  pose proof (filter_singleton_id _ _ _ Hr2) as Hid2.
  destruct (elapsed_run s w) as (wa & Hea & Henva & Hdba & Hra).
  (* the current item *)
  assert (Hna : nth_reading wa 0 = nth_reading w k).
  { rewrite (nth_reading_shift w wa k 0 Henva Hra). now rewrite Nat.add_0_r. }
  destruct (updateAyahProgress_run (ap_id cur) rating e wa r1 []
              (same_env_fault_free _ _ Henva Hff))
    as (w1 & Hu1 & Henv1 & Hrd1 & Hdb1).
  { now rewrite Hdba. }
  { now rewrite Hna. }
  rewrite Hna, Hdba in *. fold u1 in Hu1, Hdb1.
  assert (Henvw1 : same_env w w1) by (eapply same_env_trans; eassumption).
  (* the first sibling *)
  assert (Hn1 : nth_reading w1 0 = nth_reading w (S k)).
  { rewrite (nth_reading_shift w w1 (S k) 0 Henvw1) by lia.
    now rewrite Nat.add_0_r. }
  destruct (updateAyahProgress_run (ap_id m2) rating e w1 r2 []
              (same_env_fault_free _ _ Henvw1 Hff))
    as (w2 & Hu2 & Henv2 & Hrd2 & Hdb2).
  { rewrite Hdb1, filter_id_after_write; [exact Hr2 |].
    unfold u1. cbn [ap_id updatedProgress]. congruence. }
  { now rewrite Hn1. }
  rewrite Hn1 in *. fold u2 in Hu2, Hdb2.
  assert (Henvw2 : same_env w w2) by (eapply same_env_trans; eassumption).
  (* the second sibling *)
  assert (Hn2 : nth_reading w2 0 = nth_reading w (S (S k))).
  { rewrite (nth_reading_shift w w2 (S (S k)) 0 Henvw2) by lia.
    now rewrite Nat.add_0_r. }
  destruct (updateAyahProgress_run (ap_id m3) rating e w2 r3 []
              (same_env_fault_free _ _ Henvw2 Hff))
    as (w3 & Hu3 & Henv3 & Hrd3 & Hdb3).
  { rewrite Hdb2, Hdb1, !filter_id_after_write; [exact Hr3 | |].
    - unfold u1. cbn [ap_id updatedProgress]. congruence.
    - unfold u2. cbn [ap_id updatedProgress]. congruence. }
  { now rewrite Hn2. }
  rewrite Hn2 in *. fold u3 in Hu3, Hdb3.
  (* the handler *)
  unfold rateAyah. rewrite Hcur. unfold try_catch.
  rewrite (bind_returned _ Hea). fold e.
  rewrite (bind_returned _ Hu1).
  assert (Hfe : for_each (fun groupAyah =>
                  updateAyahProgress (ap_id groupAyah) rating e) [m2; m3] w1
                = (Returned [u2; u3], w3)).
  { cbn [for_each]. unfold bind, ret. now rewrite Hu2, Hu3. }
  rewrite Hgrp, Hsib. rewrite (bind_returned _ Hfe).
  cbv zeta.
  match goal with
  | |- context [if ?c then endSession s ?n ?t ?p else ret (goToNextAyah s ?p)] =>
      assert (Hp : totalReviewed p = (totalReviewed s + 1)%Z)
        by (destruct (sessionStats s), (CardState_eqb (ap_state cur) new);
            reflexivity);
      destruct c;
      [ destruct (endSession_returns s p n t w3)
          as (p' & w' & Hend & Htot & Hrows & _);
        rewrite Hend; exists p', w'
      | exists (goToNextAyah s p), w3 ]
  end.
  - split; [reflexivity |]. split; [congruence |].
    rewrite Hrows, Hdb3, Hdb2, Hdb1. reflexivity.
  - split; [reflexivity |].
    split; [now rewrite goToNextAyah_totalReviewed |].
    rewrite Hdb3, Hdb2, Hdb1. reflexivity.
Qed.

Lemma filter_singleton_unique (id : uuid) (rows : list AyahProgress)
    (r0 r : AyahProgress) :
  filter (fun x => (ap_id x =? id)%nat) rows = [r0] ->
  In r rows -> ap_id r = id -> r = r0.
Proof.
  intros Hf Hin Hid.
  assert (H : In r (filter (fun x => (ap_id x =? id)%nat) rows))
    by (apply filter_In; split; [assumption | now apply Nat.eqb_eq]).
  rewrite Hf in H. destruct H as [H | []]. now symmetry.
Qed.

(** The three successive writes replace the three records and nothing
    else. *)
Lemma three_writes (rows : list AyahProgress) (r1 r2 r3 : AyahProgress)
    (rating : Rating) (e : option num) (n1 n2 n3 : Date) :
  ap_id r1 <> ap_id r2 -> ap_id r1 <> ap_id r3 -> ap_id r2 <> ap_id r3 ->
  filter (fun x => (ap_id x =? ap_id r1)%nat) rows = [r1] ->
  filter (fun x => (ap_id x =? ap_id r2)%nat) rows = [r2] ->
  filter (fun x => (ap_id x =? ap_id r3)%nat) rows = [r3] ->
  let u1 := updatedProgress r1 rating e n1 in
  let u2 := updatedProgress r2 rating e n2 in
  let u3 := updatedProgress r3 rating e n3 in
  map (write_progress u3) (map (write_progress u2) (map (write_progress u1) rows))
  = map (fun r => if (ap_id r =? ap_id r1)%nat then u1
                  else if (ap_id r =? ap_id r2)%nat then u2
                  else if (ap_id r =? ap_id r3)%nat then u3
                  else r) rows.
Proof.
  intros H12 H13 H23 Hf1 Hf2 Hf3 u1 u2 u3.
  rewrite !map_map. apply map_ext_in. intros r Hin.
  destruct (Nat.eqb_spec (ap_id r) (ap_id r1)) as [E1 | E1].
  { rewrite (filter_singleton_unique _ _ _ _ Hf1 Hin E1).
    unfold u1 at 1. rewrite write_progress_own. fold u1.
    rewrite (write_progress_other u2 u1)
      by (unfold u1, u2; cbn [ap_id updatedProgress]; congruence).
    apply write_progress_other.
    unfold u1, u3; cbn [ap_id updatedProgress]; congruence. }
  rewrite (write_progress_other u1 r)
    by (unfold u1; cbn [ap_id updatedProgress]; congruence).
  destruct (Nat.eqb_spec (ap_id r) (ap_id r2)) as [E2 | E2].
  { rewrite (filter_singleton_unique _ _ _ _ Hf2 Hin E2).
    unfold u2 at 1. rewrite write_progress_own. fold u2.
    apply write_progress_other.
    unfold u2, u3; cbn [ap_id updatedProgress]; congruence. }
  rewrite (write_progress_other u2 r)
    by (unfold u2; cbn [ap_id updatedProgress]; congruence).
  destruct (Nat.eqb_spec (ap_id r) (ap_id r3)) as [E3 | E3].
  { rewrite (filter_singleton_unique _ _ _ _ Hf3 Hin E3).
    unfold u3. now rewrite write_progress_own. }
  apply write_progress_other.
  unfold u3; cbn [ap_id updatedProgress]; congruence.
Qed.

(** What an update stamps on a record. *)
Lemma updatedProgress_stamp (r : AyahProgress) (rating : Rating)
    (e : option num) (now : Date) :
  let u := updatedProgress r rating e now in
  ap_lastReviewed u = Some now /\
  ap_interval u =
    interval (scheduleReview (card_of_progress r) rating now
                             DEFAULT_PARAMETERS) /\
  ap_nextReview u =
    dueDate (scheduleReview (card_of_progress r) rating now
                            DEFAULT_PARAMETERS) /\
  ap_history u =
    ap_history r ++
    [mkReviewEntry now rating e (ap_interval r) (ap_interval u)].
Proof. cbn. repeat split. Qed.

(** C3, as the code has it.  Rating a unit of three members updates
    exactly the three records of the unit, each with the same rating and
    elapsed time, and adds exactly one to [totalReviewed].  Every record
    is stamped with the reading of the clock taken by its own update:
    [lastReviewed] is that reading and [interval] and [nextReview] are
    scheduled from it, so the three records agree on them when the
    readings and the cards agree. *)
Theorem group_rating_updates_three_records (rating : Rating)
    (s : SessionState) (w : World) (cur m2 m3 r1 r2 r3 : AyahProgress) :
  currentAyah s = Some cur -> ap_testWithGroup cur = true ->
  groupAyahs_of s cur = [m2; m3] ->
  fault_free w ->
  ap_id cur <> ap_id m2 -> ap_id cur <> ap_id m3 -> ap_id m2 <> ap_id m3 ->
  filter (fun x => (ap_id x =? ap_id cur)%nat) (ayah_progress (db w)) = [r1] ->
  filter (fun x => (ap_id x =? ap_id m2)%nat) (ayah_progress (db w)) = [r2] ->
  filter (fun x => (ap_id x =? ap_id m3)%nat) (ayah_progress (db w)) = [r3] ->
  let e := Some (elapsed_of s w) in
  let k := elapsed_reads s in
  let u1 := updatedProgress r1 rating e (nth_reading w k) in
  let u2 := updatedProgress r2 rating e (nth_reading w (S k)) in
  let u3 := updatedProgress r3 rating e (nth_reading w (S (S k))) in
  valid_due u1 -> valid_due u2 -> valid_due u3 ->
  exists s' w',
    rateAyah rating s w = (Returned s', w') /\
    totalReviewed s' = (totalReviewed s + 1)%Z /\
    ayah_progress (db w') =
      map (fun r => if (ap_id r =? ap_id cur)%nat then u1
                    else if (ap_id r =? ap_id m2)%nat then u2
                    else if (ap_id r =? ap_id m3)%nat then u3
                    else r) (ayah_progress (db w)) /\
    ap_lastReviewed u1 = Some (nth_reading w k) /\
    ap_lastReviewed u2 = Some (nth_reading w (S k)) /\
    ap_lastReviewed u3 = Some (nth_reading w (S (S k))) /\
    (nth_reading w k = nth_reading w (S k) ->
     nth_reading w (S k) = nth_reading w (S (S k)) ->
     card_of_progress r1 = card_of_progress r2 ->
     card_of_progress r2 = card_of_progress r3 ->
     ap_lastReviewed u1 = ap_lastReviewed u2 /\
     ap_lastReviewed u2 = ap_lastReviewed u3 /\
     ap_interval u1 = ap_interval u2 /\ ap_interval u2 = ap_interval u3 /\
     ap_nextReview u1 = ap_nextReview u2 /\
     ap_nextReview u2 = ap_nextReview u3).
Proof.
  intros Hcur Hgrp Hsib Hff H12 H13 H23 Hr1 Hr2 Hr3 e k u1 u2 u3 Hv1 Hv2 Hv3.
  destruct (rateAyah_group_run rating s w cur m2 m3 r1 r2 r3
              Hcur Hgrp Hsib Hff H12 H13 H23 Hr1 Hr2 Hr3 Hv1 Hv2 Hv3)
    as (s' & w' & Hrun & Htot & Hrows).
  pose proof (filter_singleton_id _ _ _ Hr1) as Hid1.
  pose proof (filter_singleton_id _ _ _ Hr2) as Hid2.
  pose proof (filter_singleton_id _ _ _ Hr3) as Hid3.
  exists s', w'. split; [exact Hrun |]. split; [exact Htot |].
  split.
  - rewrite Hrows. fold e k. rewrite <- Hid1, <- Hid2, <- Hid3 in *.
    apply three_writes; assumption.
  - do 3 (split; [reflexivity |]).
    intros Ha Hb Hc Hd. unfold u1, u2, u3.
    cbn [ap_lastReviewed ap_interval ap_nextReview updatedProgress].
    rewrite Ha, Hb, Hc, Hd. repeat split.
Qed.

(** A new record rated Good at a time value [x]: the due date is valid. *)
Lemma valid_due_new_Good (id g : uuid) (pos : Z) (e : option num) (x : R) :
  (0 <= x <= 1000000000000)%R ->
  valid_due (updatedProgress (sampleProgress id g pos true) Good e
                             (mkDate (Fin x))).
Proof.
  intros Hx. unfold valid_due, updatedProgress.
  cbn [ap_nextReview]. unfold scheduleReview, card_of_progress, sampleProgress.
  cbn -[clamp01 add date_plus_days].
  unfold date_plus_days, DAY_MS. cbn [getTime add mul].
  rewrite newDate_small; [reflexivity |].
  rewrite Rabs_pos_eq; lra.
Qed.

Lemma sample_reading (n : nat) :
  nth_reading sampleWorld n = mkDate (Fin (IZR (1000 + Z.of_nat n))).
Proof. reflexivity. Qed.

Lemma sample_valid (id : uuid) (pos : Z) (n : nat) :
  (n <= 2)%nat ->
  valid_due (updatedProgress (sampleProgress id 7 pos true) Good
               (Some (elapsed_of sampleSession sampleWorld))
               (nth_reading sampleWorld n)).
Proof.
  intros Hn. rewrite sample_reading. apply valid_due_new_Good.
  assert (H : (1000 <= 1000 + Z.of_nat n <= 1002)%Z) by lia.
  destruct H as [H1 H2]. apply IZR_le in H1, H2. lra.
Qed.

(** The run of the sample session: three new items of one group, rated
    Good, the clock advancing by a millisecond per reading. *)
Lemma sample_run :
  exists s' w',
    rateAyah Good sampleSession sampleWorld = (Returned s', w') /\
    totalReviewed s' = 1%Z /\
    ayah_progress (db w') =
      [updatedProgress (sampleProgress 1 7 1 true) Good (Some (Fin 0))
                       (mkDate (Fin (IZR 1000)));
       updatedProgress (sampleProgress 2 7 2 true) Good (Some (Fin 0))
                       (mkDate (Fin (IZR 1001)));
       updatedProgress (sampleProgress 3 7 3 true) Good (Some (Fin 0))
                       (mkDate (Fin (IZR 1002)))].
Proof.
  destruct (rateAyah_group_run Good sampleSession sampleWorld
              (sampleProgress 1 7 1 true) (sampleProgress 2 7 2 true)
              (sampleProgress 3 7 3 true)
              (sampleProgress 1 7 1 true) (sampleProgress 2 7 2 true)
              (sampleProgress 3 7 3 true))
    as (s' & w' & Hrun & Htot & Hrows);
    try reflexivity; try (intros n; reflexivity); try (cbn; lia);
    try (apply sample_valid; cbn; lia).
  exists s', w'. split; [exact Hrun |]. split; [exact Htot |].
  rewrite Hrows.
  rewrite three_writes; try reflexivity; try (cbn; lia).
Qed.

Lemma group_rating_updates_three_records_witness :
  exists s' w',
    rateAyah Good sampleSession sampleWorld = (Returned s', w') /\
    totalReviewed s' = (totalReviewed sampleSession + 1)%Z.
Proof.
  destruct (group_rating_updates_three_records Good sampleSession sampleWorld
              (sampleProgress 1 7 1 true) (sampleProgress 2 7 2 true)
              (sampleProgress 3 7 3 true)
              (sampleProgress 1 7 1 true) (sampleProgress 2 7 2 true)
              (sampleProgress 3 7 3 true))
    as (s' & w' & Hrun & Htot & _);
    try reflexivity; try (intros n; reflexivity); try (cbn; lia);
    try (apply sample_valid; cbn; lia).
  exists s', w'. split; assumption.
Defined.

(** C3, as stated, fails on the sample session: the three records are
    stamped 1000, 1001 and 1002. *)
Lemma group_rating_timestamps_differ :
  ~ (forall s' w' a b c,
       rateAyah Good sampleSession sampleWorld = (Returned s', w') ->
       ayah_progress (db w') = [a; b; c] ->
       ap_lastReviewed a = ap_lastReviewed b /\
       ap_lastReviewed b = ap_lastReviewed c /\
       ap_interval a = ap_interval b /\ ap_interval b = ap_interval c /\
       ap_nextReview a = ap_nextReview b /\
       ap_nextReview b = ap_nextReview c).
Proof.
  intros H. destruct sample_run as (s' & w' & Hrun & _ & Hrows).
  destruct (H _ _ _ _ _ Hrun Hrows) as (Hab & _).
  cbn [ap_lastReviewed updatedProgress] in Hab.
  inversion Hab as [Heq]. apply eq_IZR in Heq. discriminate.
Qed.

(** The invalid due date of a record of stability 0 makes the update
    throw: [toISOString] raises a RangeError before the row is written. *)
Lemma updateAyahProgress_zero_stability_throws :
  let r := mkAyahProgress 1 108 1 7 (Fin 100) (Some (mkDate (Fin 0)))
             (Some (mkDate (Fin 0))) (Fin (25 / 10)) (Fin 0) (Fin (5 / 10))
             (Fin 0) review (Fin 1) (mkDate (Fin 0)) [] false 1 in
  let w := quietWorld (set_ayah_progress [r] emptyDB) in
  fst (updateAyahProgress 1 Good None w)
    = Thrown "RangeError: Invalid time value" /\
  ayah_progress (db (snd (updateAyahProgress 1 Good None w))) = [r].
Proof.
  intros r w.
  destruct (Good_on_zero_stability (card_of_progress r) 0 (IZR 1000))
    as (_ & _ & Hd); try reflexivity; [lra |].
  assert (H : exists w',
            updateAyahProgress 1 Good None w
              = (Thrown "RangeError: Invalid time value", w') /\
            ayah_progress (db w') = [r]).
  { unfold updateAyahProgress.
    rewrite (bind_returned _ (run_executeQuery _ w (fun n => eq_refl))).
    cbn [db w quietWorld set_ayah_progress ayah_progress emptyDB filter r
         ap_id Nat.eqb].
    unfold bind at 1. cbn [dateNow ticks reads count_call quietWorld w].
    change (IZR (1000 + Z.of_nat 0)) with (IZR 1000).
    unfold bind at 1. cbn [toISOString getTime is_finite ret].
    unfold bind at 1. unfold updatedProgress at 1. cbn [ap_nextReview].
    rewrite Hd. cbn. eexists. split; reflexivity. }
  destruct H as (w' & Hrun & Hrows). rewrite Hrun.
  split; [reflexivity | exact Hrows].
Qed.

End Session.

(* ================================================================== *)
(** ** Errors of the store in the due-set operations *)
(* ================================================================== *)

Section DueErrors.

Lemma getSettings_run (w : World) :
  fault_free w ->
  exists st w',
    getSettings w = (Returned st, w') /\ same_env w w' /\
    ayah_progress (db w') = ayah_progress (db w).
Proof.
  intros Hff. unfold getSettings.
  rewrite (bind_returned _ (run_executeQuery _ _ Hff)).
  destruct (settings (db w)) as [st |].
  - exists st, (count_call w). repeat split.
  - unfold createDefaultSettings, bind, dateNow, executeUpdate, ret.
    cbn [faults calls count_call]. rewrite Hff.
    eexists _, _. split; [reflexivity |]. repeat split.
Qed.

(** [getSettings] on a store that accepts the calls: it reads the clock
    once when it has to create the default settings, and not otherwise. *)
Lemma getSettings_reads (w : World) :
  fault_free w ->
  exists st w',
    getSettings w = (Returned st, w') /\ same_env w w' /\
    ayah_progress (db w') = ayah_progress (db w) /\
    reads w' = (reads w + settings_reads (db w))%nat.
Proof.
  intros Hff. unfold getSettings, settings_reads.
  rewrite (bind_returned _ (run_executeQuery _ _ Hff)).
  destruct (settings (db w)) as [st |].
  - exists st, (count_call w). repeat split. cbn. lia.
  - unfold createDefaultSettings, bind, dateNow, executeUpdate, ret.
    cbn [faults calls count_call]. rewrite Hff.
    eexists _, _. split; [reflexivity |]. repeat split. cbn. lia.
Qed.

Lemma dateNow_due_reading (w w1 : World) :
  same_env w w1 -> reads w1 = (reads w + settings_reads (db w))%nat ->
  mkDate (Fin (IZR (ticks w1 (reads w1)))) = due_reading w.
Proof.
  intros (_ & _ & Ht) Hr. unfold due_reading, nth_reading.
  now rewrite Ht, Hr.
Qed.

(** With nothing due at the reading of the clock and a store that accepts
    every call, the results are the zero counts and the empty list: the
    values returned on an error. *)
Lemma empty_due_set_results (w : World) :
  fault_free w ->
  filter (due_at (due_reading w)) (ayah_progress (db w)) = [] ->
  (exists w', getTodayDueReviews w = (Returned zeroCounts, w')) /\
  (exists w', getSessionAyahs w = (Returned [], w')).
Proof.
  intros Hff Hnone.
  destruct (getSettings_reads w Hff) as (st & w1 & Hset & Henv & Hrows & Hr).
  pose proof (same_env_fault_free _ _ Henv Hff) as Hff1.
  pose proof (dateNow_due_reading w w1 Henv Hr) as Hnow.
  split.
  - unfold getTodayDueReviews, try_catch, getTodayDueReviews_body.
    rewrite (bind_returned _ Hset).
    unfold bind, dateNow, executeQuery. cbn [faults calls db].
    rewrite Hff1, Hrows, Hnow, Hnone. eexists. reflexivity.
  - unfold getSessionAyahs, try_catch, getSessionAyahs_body.
    rewrite (bind_returned _ Hset).
    unfold getDueAyahs, bind, dateNow, executeQuery. cbn [faults calls db].
    rewrite Hff1, Hrows, Hnow, Hnone. cbn [sort_by fold_right apply_limit].
    destruct (0 <? reviewLimit st)%Z; [rewrite firstn_nil |];
      eexists; reflexivity.
Qed.

(** C10. Both operations always return.  When a storage call is rejected
    while they run, [getTodayDueReviews] returns the all-zero counts and
    [getSessionAyahs] the empty list; these are the values they return
    when no call is rejected and no record is due at the reading of the
    clock, whatever records the store holds that are due later. *)
Theorem due_queries_swallow_storage_errors (w : World) :
  (exists c w', getTodayDueReviews w = (Returned c, w') /\
                (fault_between w w' -> c = zeroCounts)) /\
  (exists l w', getSessionAyahs w = (Returned l, w') /\
                (fault_between w w' -> l = [])) /\
  (fault_free w ->
   filter (due_at (due_reading w)) (ayah_progress (db w)) = [] ->
   (exists w', getTodayDueReviews w = (Returned zeroCounts, w')) /\
   (exists w', getSessionAyahs w = (Returned [], w'))).
Proof.
  split; [| split].
  - apply try_catch_swallows, clean_getTodayDueReviews_body.
  - apply try_catch_swallows, clean_getSessionAyahs_body.
  - apply empty_due_set_results.
Qed.

(** Two stores.  The first holds three due records and its second call
    (the query for the due records) is rejected: zero counts, and the
    rejected call lies between the two worlds.  The second accepts every
    call and holds one record, due on 2033-05-18 while the clock shows
    1970: the same zero counts and the empty list. *)
Lemma due_queries_swallow_storage_errors_witness :
  let later :=
    mkAyahProgress 1 108 1 7 (Fin 0) None
      (Some (mkDate (Fin (IZR 2000000000000)))) (Fin (25 / 10)) (Fin 1)
      (Fin 0) (Fin 0) review (Fin 1) (mkDate (Fin 0)) [] false 1 in
  let quiet :=
    quietWorld (mkDB [later] [] [] (Some defaultSettings) [] []) in
  (exists c w',
     getTodayDueReviews (faultyWorld (db sampleWorld) 1) = (Returned c, w') /\
     (fault_between (faultyWorld (db sampleWorld) 1) w' -> c = zeroCounts)) /\
  (exists w', getTodayDueReviews quiet = (Returned zeroCounts, w')) /\
  (exists w', getSessionAyahs quiet = (Returned [], w')).
Proof.
  intros later quiet. split.
  - exact (proj1 (due_queries_swallow_storage_errors
                    (faultyWorld (db sampleWorld) 1))).
  - apply (proj2 (proj2 (due_queries_swallow_storage_errors quiet))).
    + intros n. reflexivity.
    + unfold due_reading, nth_reading, settings_reads, quiet.
      cbn [db settings quietWorld ayah_progress ticks reads filter Nat.add].
      change (1000 + Z.of_nat 0)%Z with 1000%Z.
      rewrite (due_at_four_digit later 2000000000000 1000);
        [reflexivity | reflexivity | |]; unfold four_digit_year; lia.
Defined.

(** The same store, evaluated: one due unit when the calls are accepted,
    the zero counts and the empty list when the due query is rejected. *)
Example due_summary_with_and_without_fault :
  fst (getTodayDueReviews sampleWorld) = Returned (mkDueCounts 1 1 0 0) /\
  fst (getTodayDueReviews (faultyWorld (db sampleWorld) 1))
    = Returned zeroCounts /\
  fst (getSessionAyahs (faultyWorld (db sampleWorld) 1)) = Returned [] /\
  fault_between (faultyWorld (db sampleWorld) 1)
                (snd (getTodayDueReviews (faultyWorld (db sampleWorld) 1))).
Proof.
  repeat split.
  exists 1%nat. split; [cbn; lia | reflexivity].
Qed.

End DueErrors.

(* ================================================================== *)
(** ** Further properties of the FSRS engine *)
(* ================================================================== *)

Section FsrsMore.

Local Open Scope R_scope.

Lemma memoryRetention_positive_stability (s e : R) (ws : list num) :
  0 < s ->
  memoryRetention (Fin s) (Fin e) ws =
  Fin (if Rle_dec e 0 then 1 else exp (ln (9 / 10) * e / s)).
Proof.
  intros Hs. unfold memoryRetention. cbn [le].
  destruct (Rle_dec e 0); [reflexivity |].
  rewrite jlog_Fin by lra. cbn [mul]. rewrite div_Fin by lra. reflexivity.
Qed.

Lemma decay_exponent_neg (s e : R) : 0 < s -> 0 < e -> ln (9 / 10) * e / s < 0.
Proof.
  intros Hs He. pose proof ln_09_neg as H09.
  assert (Hi : 0 < / s) by now apply Rinv_0_lt_compat.
  assert (Hn : ln (9 / 10) * e < 0) by nra.
  unfold Rdiv. nra.
Qed.

(** Over the reals the retrievability of a positive stability is positive,
    at most 1, and does not grow as time passes. *)
Lemma memoryRetention_decays_aux (s e1 e2 : R) (ws : list num) :
  0 < s -> e1 <= e2 ->
  exists r1 r2,
    memoryRetention (Fin s) (Fin e1) ws = Fin r1 /\
    memoryRetention (Fin s) (Fin e2) ws = Fin r2 /\
    0 < r2 /\ r2 <= r1 /\ r1 <= 1.
Proof.
  intros Hs H12.
  rewrite !memoryRetention_positive_stability by assumption.
  eexists _, _. split; [reflexivity |]. split; [reflexivity |].
  destruct (Rle_dec e1 0), (Rle_dec e2 0); try lra.
  - repeat split; try lra.
    + apply exp_pos.
    + left. rewrite <- exp_0. apply exp_increasing.
      apply decay_exponent_neg; lra.
  - repeat split.
    + apply exp_pos.
    + destruct H12 as [Hlt | ->]; [| right; reflexivity].
      left. apply exp_increasing.
      pose proof ln_09_neg as H09.
      assert (Hi : 0 < / s) by now apply Rinv_0_lt_compat.
      assert (Hn : ln (9 / 10) * e2 < ln (9 / 10) * e1) by nra.
      unfold Rdiv. nra.
    + left. rewrite <- exp_0. apply exp_increasing.
      apply decay_exponent_neg; lra.
Qed.

(** X1.  For a positive stability the retrievability is a probability: it
    lies in [0, 1], and it does not grow as time passes. *)
Theorem memoryRetention_probability_decays (s e1 e2 : R) (ws : list num) :
  0 < s -> e1 <= e2 ->
  exists r1 r2,
    memoryRetention (Fin s) (Fin e1) ws = Fin r1 /\
    memoryRetention (Fin s) (Fin e2) ws = Fin r2 /\
    0 <= r2 /\ r2 <= r1 /\ r1 <= 1.
Proof.
  intros Hs H12.
  destruct (memoryRetention_decays_aux s e1 e2 ws Hs H12)
    as (r1 & r2 & H1 & H2 & Hpos & Hle & Hone).
  exists r1, r2. repeat split; try assumption. lra.
Qed.

Lemma memoryRetention_probability_decays_witness :
  exists r1 r2,
    memoryRetention (Fin 2) (Fin 1) [] = Fin r1 /\
    memoryRetention (Fin 2) (Fin 3) [] = Fin r2 /\
    0 <= r2 /\ r2 <= r1 /\ r1 <= 1.
Proof.
  apply (memoryRetention_probability_decays 2 1 3 []); lra.
Defined.

Lemma jmax_one_Z (n : Z) : jmax (Fin 1) (Fin (IZR n)) = Fin (IZR (Z.max 1 n)).
Proof.
  cbn. destruct (Rle_dec 1 (IZR n)) as [H | H].
  - apply le_IZR in H. now rewrite Z.max_r.
  - rewrite Z.max_l; [reflexivity |].
    destruct (Z.le_gt_cases n 1) as [Hle | Hgt]; [exact Hle |].
    exfalso. apply H. apply IZR_le. lia.
Qed.

(** X3.  The interval is a whole number of days: 0 for a stability that
    is not positive, at least 1 otherwise.  (The stability is bounded by
    [10 ^ 300] days, well inside the range where the product the code
    rounds stays finite in binary64.) *)
Theorem nextInterval_whole_days (s r : R) :
  0 < r < 1 -> s <= 10 ^ 300 ->
  exists n : Z,
    nextInterval (Fin s) (Fin r) = Fin (IZR n) /\
    (s <= 0 -> n = 0%Z) /\ (0 < s -> (1 <= n)%Z).
Proof.
  intros Hr _. destruct (Rle_dec s 0) as [Hs | Hs].
  - exists 0%Z. split; [| split; [reflexivity | lra]].
    unfold nextInterval. now rewrite le_Fin.
  - rewrite nextInterval_finite by lra. rewrite jmax_one_Z.
    eexists. split; [reflexivity |]. split; [lra | lia].
Qed.

Lemma nextInterval_whole_days_witness :
  exists n : Z,
    nextInterval (Fin 3) (Fin (8 / 10)) = Fin (IZR n) /\
    (3 <= 0 -> n = 0%Z) /\ (0 < 3 -> (1 <= n)%Z).
Proof.
  apply (nextInterval_whole_days 3 (8 / 10)); [lra |].
  apply Rle_trans with (10 ^ 1); [lra |].
  apply Rle_pow; [lra | lia].
Defined.

Lemma nextInterval_le_of_le (s1 s2 r : R) :
  0 < s1 -> s1 <= s2 -> 0 < r < 1 ->
  le (nextInterval (Fin s1) (Fin r)) (nextInterval (Fin s2) (Fin r)) = true.
Proof.
  intros H1 H12 Hr. rewrite !nextInterval_finite by lra.
  apply jmax_one_mono, Int_part_mono.
  pose proof ln_09_neg as H09. pose proof (ln_lt_1_neg r Hr) as Hlr.
  assert (Hq : 0 < ln r / ln (9 / 10)).
  { unfold Rdiv.
    assert (Hi : / ln (9 / 10) < 0) by now apply Rinv_lt_0_compat.
    nra. }
  unfold Rdiv in *. nra.
Qed.

(** X4.  A longer stability never gives a shorter interval. *)
Theorem nextInterval_monotone_stability (s1 s2 r : R) :
  0 < s1 -> s1 <= s2 -> 0 < r < 1 ->
  le (nextInterval (Fin s1) (Fin r)) (nextInterval (Fin s2) (Fin r)) = true.
Proof. exact (nextInterval_le_of_le s1 s2 r). Qed.

Lemma nextInterval_monotone_stability_witness :
  le (nextInterval (Fin 2) (Fin (9 / 10))) (nextInterval (Fin 5) (Fin (9 / 10)))
  = true.
Proof. apply (nextInterval_monotone_stability 2 5 (9 / 10)); lra. Defined.

(** X5.  Again, on any card: the interval is 0 and the due date is the time of
    the rating, so the card is due at once; the state is [relearning]
    exactly when the card was in review or relearning, and only then is a
    lapse counted. *)
Theorem scheduleReview_Again_due_at_once (card : FSRSCard) (now : Date)
    (params : FSRSParameters) :
  let r := scheduleReview card Again now params in
  interval r = Fin 0 /\ dueDate r = Some now /\
  state r = match state card with
            | new | learning => learning
            | review | relearning => relearning
            end /\
  lapses r = match state card with
             | new | learning => lapses card
             | review | relearning => add (lapses card) (Fin 1)
             end /\
  (is_finite (getTime now) = true -> isDue r now = true).
Proof.
  intros r. subst r. unfold scheduleReview.
  set (pre := if CardState_eqb (state card) new then _ else card).
  assert (Hl : lapses pre = lapses card)
    by (subst pre; destruct (CardState_eqb (state card) new); reflexivity).
  cbv zeta. unfold isDue.
  destruct (state card) eqn:Es;
    match goal with
    | |- context [gt ?a ?b] => destruct (gt a b)
    end;
    cbn -[clamp01 add le]; rewrite ?Hl; repeat split;
    intros Hf; destruct (getTime now); try discriminate;
    apply le_Fin; lra.
Qed.

Lemma clamp01_range (x : num) :
  match clamp01 x with
  | Fin d => 0 <= d <= 1
  | NaN => x = NaN
  | _ => False
  end.
Proof.
  unfold clamp01, jmax, jmin, le.
  destruct x as [v | | |]; try reflexivity.
  - destruct (Rle_dec 0 v); destruct (Rle_dec _ 1); lra.
  - destruct (Rle_dec 0 1); lra.
  - destruct (Rle_dec 0 1); lra.
Qed.

(** X6.  Whenever a rating adjusts the difficulty (Again, Good, Easy, and Hard
    on a review card), the new difficulty lies in [0, 1], or is [NaN] when
    the sum was; Hard on a card that is not in review leaves the
    difficulty as it is (the seed [w[1]] for a new card). *)
Theorem scheduleReview_difficulty_clamped (card : FSRSCard) (rating : Rating)
    (now : Date) (params : FSRSParameters) :
  let r := scheduleReview card rating now params in
  let seeded :=
    if CardState_eqb (state card) new then widx (w params) 1
    else difficulty card in
  (rating <> Hard \/ state card = review ->
   match difficulty r with
   | Fin d => 0 <= d <= 1
   | NaN => True
   | _ => False
   end) /\
  (rating = Hard -> state card <> review -> difficulty r = seeded).
Proof.
  intros r seeded. subst r seeded. unfold scheduleReview. cbv zeta.
  split.
  - intros Hcase.
    assert (Hc : forall x, match clamp01 x with
                           | Fin d => 0 <= d <= 1
                           | NaN => True
                           | _ => False
                           end).
    { intros x. pose proof (clamp01_range x).
      destruct (clamp01 x); auto. }
    destruct rating, (state card) eqn:Es;
      try (destruct Hcase as [Hcase | Hcase]; congruence);
      try match goal with
          | |- context [gt ?a ?b] => destruct (gt a b)
          end;
      cbn -[clamp01 add nextInterval date_plus_days memoryRetention jpow mul];
      apply Hc.
  - intros -> Hs. destruct (state card) eqn:Es; try congruence; reflexivity.
Qed.

(** What scheduling never touches: the ease factor is kept, the last
    review becomes the time of the rating, and no rating other than Again
    changes the number of lapses. *)
Theorem scheduleReview_frame (card : FSRSCard) (rating : Rating)
    (now : Date) (params : FSRSParameters) :
  let r := scheduleReview card rating now params in
  easeFactor r = easeFactor card /\ lastReview r = Some now /\
  (rating <> Again -> lapses r = lapses card).
Proof.
  intros r. subst r. unfold scheduleReview. cbv zeta.
  destruct rating, (state card) eqn:Es;
    try match goal with
        | |- context [gt ?a ?b] => destruct (gt a b)
        end;
    cbn -[clamp01 add nextInterval date_plus_days memoryRetention jpow mul];
    repeat split; intros H; congruence.
Qed.

(** The factor [R ^ (-w2)] of a successful review: at least 1 for a
    positive stability and a non-negative exponent [w2]. *)
Lemma recall_factor (s e a : R) (ws : list num) :
  0 < s -> 0 <= a ->
  exists p, jpow (memoryRetention (Fin s) (Fin e) ws) (neg (Fin a)) = Fin p
            /\ 1 <= p.
Proof.
  intros Hs Ha.
  destruct (memoryRetention_decays_aux s e e ws Hs (Rle_refl e))
    as (r & r' & Hr & Hr' & Hpos & Hle & H1).
  rewrite Hr in Hr'. inversion Hr'; subst r'. clear Hr'.
  rewrite Hr. cbn [neg jpow].
  destruct Ha as [Ha | <-].
  - rewrite Rsign_neg by lra. rewrite Rsign_pos by lra.
    eexists. split; [reflexivity |].
    unfold Rpower. rewrite <- exp_0.
    destruct H1 as [Hlt | ->].
    + left. apply exp_increasing.
      assert (Hln : ln r < 0) by (apply ln_lt_1_neg; lra). nra.
    + rewrite ln_1. right. f_equal. lra.
  - replace (- 0) with 0 by lra. rewrite Rsign_zero.
    exists 1. split; [reflexivity | lra].
Qed.

Lemma elapsed_finite (tn tl : R) :
  div (sub (Fin tn) (Fin tl)) DAY_MS = Fin ((tn + - tl) / (24 * 60 * 60 * 1000)).
Proof. unfold DAY_MS. cbn [sub neg add]. now rewrite div_Fin by lra. Qed.

(** X7.  Good on a card in review or relearning never lowers the stability
    when the Good factor [w5] is at least 1 and the exponent [w2] is not
    negative. *)
Theorem Good_review_stability_grows (card : FSRSCard) (params : FSRSParameters)
    (s tl tn a b : R) :
  state card = review \/ state card = relearning ->
  stability card = Fin s -> 0 < s ->
  lastReview card = Some (mkDate (Fin tl)) ->
  widx (w params) 2 = Fin a -> 0 <= a ->
  widx (w params) 5 = Fin b -> 1 <= b ->
  exists s',
    stability (scheduleReview card Good (mkDate (Fin tn)) params) = Fin s' /\
    s <= s'.
Proof.
  intros Hstate Hst Hs Hl Ha Ha0 Hb Hb1.
  destruct (recall_factor s ((tn + - tl) / (24 * 60 * 60 * 1000)) a (w params)
              Hs Ha0) as (p & Hp & Hp1).
  unfold scheduleReview. rewrite Hl, Hst, Ha, Hb. cbn [getTime].
  rewrite elapsed_finite, Hp. cbn [mul].
  exists (s * b * p).
  split.
  2:{ assert (H1 : s <= s * b) by nra.
      assert (H2 : s * b <= s * b * p) by nra. lra. }
  destruct Hstate as [-> | ->];
    cbn -[clamp01 add nextInterval date_plus_days]; reflexivity.
Qed.

Lemma Good_review_stability_grows_witness :
  exists s',
    stability (scheduleReview
                 (mkCard review (Fin (25 / 10)) (Fin 3) (Fin (5 / 10)) (Fin 0)
                         (Some (mkDate (Fin 0))) None (Fin 3))
                 Good (mkDate (Fin 86400000)) DEFAULT_PARAMETERS) = Fin s' /\
    3 <= s'.
Proof.
  apply (Good_review_stability_grows _ DEFAULT_PARAMETERS 3 0 86400000
           (24 / 10) (101 / 100));
    try reflexivity; try lra.
  left. reflexivity.
Defined.

(** X8.  With the default parameters the three passing buttons of a review
    card are ordered: the interval for Hard is at most the one for Good,
    which is at most the one for Easy. *)
Theorem review_intervals_ordered (card : FSRSCard) (s tl tn : R) :
  state card = review -> stability card = Fin s -> 0 < s ->
  lastReview card = Some (mkDate (Fin tl)) ->
  let now := mkDate (Fin tn) in
  le (interval (scheduleReview card Hard now DEFAULT_PARAMETERS))
     (interval (scheduleReview card Good now DEFAULT_PARAMETERS)) = true /\
  le (interval (scheduleReview card Good now DEFAULT_PARAMETERS))
     (interval (scheduleReview card Easy now DEFAULT_PARAMETERS)) = true.
Proof.
  intros Hstate Hst Hs Hl now. subst now.
  destruct (recall_factor s ((tn + - tl) / (24 * 60 * 60 * 1000)) (24 / 10)
              (w DEFAULT_PARAMETERS) Hs ltac:(lra)) as (p & Hp & Hp1).
  unfold scheduleReview. rewrite Hl, Hst, Hstate. cbn [getTime].
  rewrite elapsed_finite.
  cbn [DEFAULT_PARAMETERS w widx nth requestRetention] in *.
  rewrite Hp. cbn [mul].
  cbn -[clamp01 add nextInterval date_plus_days].
  assert (Hsp : 0 < s * p) by nra.
  split; apply nextInterval_le_of_le; try lra; nra.
Qed.

Lemma review_intervals_ordered_witness :
  le (interval (scheduleReview
                  (mkCard review (Fin (25 / 10)) (Fin 3) (Fin (5 / 10)) (Fin 0)
                          (Some (mkDate (Fin 0))) None (Fin 3))
                  Hard (mkDate (Fin 86400000)) DEFAULT_PARAMETERS))
     (interval (scheduleReview
                  (mkCard review (Fin (25 / 10)) (Fin 3) (Fin (5 / 10)) (Fin 0)
                          (Some (mkDate (Fin 0))) None (Fin 3))
                  Good (mkDate (Fin 86400000)) DEFAULT_PARAMETERS)) = true.
Proof.
  apply (review_intervals_ordered
           (mkCard review (Fin (25 / 10)) (Fin 3) (Fin (5 / 10)) (Fin 0)
                   (Some (mkDate (Fin 0))) None (Fin 3)) 3 0 86400000);
    try reflexivity. lra.
Defined.

(** The preview of a new card shows 0, 1, 1 and 4 days for the four
    buttons, whatever the clock and the parameters. *)
Theorem calculateOptimalIntervals_new (card : FSRSCard) (now : Date)
    (params : FSRSParameters) :
  state card = new ->
  calculateOptimalIntervals card now params =
  [(Again, Fin 0); (Hard, Fin 1); (Good, Fin 1); (Easy, Fin 4)]%R.
Proof.
  intros Hnew. unfold calculateOptimalIntervals. cbn [map].
  destruct (scheduleReview_new_outcome card Again now params Hnew) as [_ ->].
  destruct (scheduleReview_new_outcome card Hard now params Hnew) as [_ ->].
  destruct (scheduleReview_new_outcome card Good now params Hnew) as [_ ->].
  destruct (scheduleReview_new_outcome card Easy now params Hnew) as [_ ->].
  reflexivity.
Qed.

Lemma calculateOptimalIntervals_new_witness :
  calculateOptimalIntervals initializeCard (mkDate (Fin 0)) DEFAULT_PARAMETERS =
  [(Again, Fin 0); (Hard, Fin 1); (Good, Fin 1); (Easy, Fin 4)]%R.
Proof.
  apply (calculateOptimalIntervals_new initializeCard (mkDate (Fin 0))
           DEFAULT_PARAMETERS).
  reflexivity.
Defined.

(** X9.  A card that is due stays due as time passes. *)
Theorem isDue_monotone (card : FSRSCard) (t1 t2 : R) :
  isDue card (mkDate (Fin t1)) = true -> t1 <= t2 ->
  isDue card (mkDate (Fin t2)) = true.
Proof.
  unfold isDue. intros H H12.
  destruct (CardState_eqb (state card) new); [reflexivity |].
  destruct (dueDate card) as [d |]; [| discriminate].
  cbn [getTime] in *. destruct (getTime d) as [x | | |]; cbn in *;
    try discriminate; try reflexivity.
  destruct (Rle_dec x t1); [| discriminate].
  destruct (Rle_dec x t2); [reflexivity | lra].
Qed.

Lemma isDue_monotone_witness :
  isDue (mkCard review (Fin 0) (Fin 1) (Fin 0) (Fin 0) None
                (Some (mkDate (Fin 5))) (Fin 1)) (mkDate (Fin 9)) = true.
Proof.
  apply (isDue_monotone _ 5 9); [| lra].
  cbn. destruct (Rle_dec 5 5); [reflexivity | lra].
Defined.

End FsrsMore.

(* ================================================================== *)
(** ** Sorting, and the order of the due set *)
(* ================================================================== *)

Section SortFacts.

Context {A : Type} (leb : A -> A -> bool) (P : A -> A -> Prop).
Hypothesis P_trans : forall a b c, P a b -> P b c -> P a c.
Hypothesis leb_true : forall a b, leb a b = true -> P a b.
Hypothesis leb_false : forall a b, leb a b = false -> P b a.

Lemma insert_by_sorted (x : A) (l : list A) :
  StronglySorted P l -> StronglySorted P (insert_by leb x l).
Proof.
  induction 1 as [| y l Hs IH Hy]; cbn.
  - constructor; constructor.
  - destruct (leb x y) eqn:E.
    + constructor; [constructor; assumption |].
      constructor; [now apply leb_true |].
      apply Forall_forall. intros z Hz.
      apply P_trans with y; [now apply leb_true |].
      rewrite Forall_forall in Hy. now apply Hy.
    + constructor; [exact IH |].
      apply Forall_forall. intros z Hz.
      apply In_insert_by in Hz. destruct Hz as [-> | Hz].
      * now apply leb_false.
      * rewrite Forall_forall in Hy. now apply Hy.
Qed.

Lemma sort_by_sorted (l : list A) : StronglySorted P (sort_by leb l).
Proof.
  unfold sort_by. induction l as [| x l IH]; cbn;
    [constructor | now apply insert_by_sorted].
Qed.

End SortFacts.

Section SortPerm.

Lemma insert_by_perm {A} (leb : A -> A -> bool) (x : A) (l : list A) :
  Permutation (insert_by leb x l) (x :: l).
Proof.
  induction l as [| y l IH]; cbn; [reflexivity |].
  destruct (leb x y); [reflexivity |].
  rewrite IH. apply perm_swap.
Qed.

Lemma sort_by_perm {A} (leb : A -> A -> bool) (l : list A) :
  Permutation (sort_by leb l) l.
Proof.
  unfold sort_by. induction l as [| x l IH]; cbn; [reflexivity |].
  rewrite insert_by_perm. now constructor.
Qed.

Lemma In_firstn {A} (z : A) (n : nat) (l : list A) :
  In z (firstn n l) -> In z l.
Proof.
  revert l. induction n as [| n IHn]; intros [| y l]; cbn; try tauto.
  intros [-> | H]; [now left | right; now apply IHn].
Qed.

Lemma StronglySorted_firstn {A} (P : A -> A -> Prop) (n : nat) (l : list A) :
  StronglySorted P l -> StronglySorted P (firstn n l).
Proof.
  intros H. revert n. induction H as [| x l Hs IH Hx]; intros [| n]; cbn;
    try constructor.
  - apply IH.
  - apply Forall_forall. intros z Hz.
    rewrite Forall_forall in Hx. apply Hx. eapply In_firstn; eassumption.
Qed.

End SortPerm.

Section DueOrder.

Lemma getDueAyahs_run (limit : option Z) (w : World) :
  faults w (calls w) = false ->
  exists w',
    getDueAyahs limit w =
      (Returned
         (apply_limit limit
            (sort_by due_order_leb
               (filter (due_at (nth_reading w 0)) (ayah_progress (db w))))),
       w') /\
    same_env w w' /\ db w' = db w.
Proof.
  intros Hok. unfold getDueAyahs, bind, dateNow, executeQuery, nth_reading.
  cbn [faults calls db]. rewrite Hok, Nat.add_0_r.
  eexists. split; [reflexivity |]. repeat split.
Qed.

Lemma In_apply_limit {A} (limit : option Z) (x : A) (l : list A) :
  In x (apply_limit limit l) -> In x l.
Proof.
  unfold apply_limit. destruct limit as [n |]; [| trivial].
  destruct (0 <? n)%Z; [apply In_firstn | trivial].
Qed.

Lemma getDueAyahs_due_and_bounded_aux (limit : option Z) (w : World) :
  faults w (calls w) = false ->
  exists rows w',
    getDueAyahs limit w = (Returned rows, w') /\
    (forall r, In r rows -> In r (ayah_progress (db w))).
Proof.
  intros Hok. destruct (getDueAyahs_run limit w Hok) as (w' & Hrun & _).
  eexists _, w'. split; [exact Hrun |].
  intros r Hin. apply In_apply_limit, In_sort_by, filter_In in Hin.
  apply Hin.
Qed.

(** X10.  What [getDueAyahs] returns when its query is accepted: stored
    records that pass the filter of the query at the reading of the clock
    (no due date, or a due date whose ISO text is not after the text of
    the reading), at most [limit] of them for a positive limit, and all
    the records that pass when there is no limit.  When the clock and the
    due date of a returned record both show a year from 0000 to 9999, the
    due date is not later than the reading. *)
Theorem getDueAyahs_due_and_bounded (limit : option Z) (w : World) :
  faults w (calls w) = false ->
  exists rows w',
    getDueAyahs limit w = (Returned rows, w') /\
    (forall r, In r rows ->
       In r (ayah_progress (db w)) /\ due_at (nth_reading w 0) r = true) /\
    (forall n, limit = Some n -> (0 < n)%Z ->
       (List.length rows <= Z.to_nat n)%nat) /\
    ((forall n, limit = Some n -> (n <= 0)%Z) ->
     Permutation rows
       (filter (due_at (nth_reading w 0)) (ayah_progress (db w)))) /\
    (four_digit_year (ticks w (reads w)) ->
     forall r t, In r rows ->
       ap_nextReview r = Some (mkDate (Fin (IZR t))) ->
       four_digit_year t -> (t <= ticks w (reads w))%Z).
Proof.
  intros Hok. destruct (getDueAyahs_run limit w Hok) as (w' & Hrun & _).
  eexists _, w'. split; [exact Hrun |]. split; [| split; [| split]].
  - intros r Hin. apply In_apply_limit, In_sort_by, filter_In in Hin.
    exact Hin.
  - intros n -> Hn. cbn [apply_limit].
    destruct (Z.ltb_spec 0 n); [| lia]. apply firstn_le_length.
  - intros Hno. unfold apply_limit. destruct limit as [n |].
    + specialize (Hno n eq_refl). destruct (Z.ltb_spec 0 n); [lia |].
      apply sort_by_perm.
    + apply sort_by_perm.
  - intros Fn r t Hin Hr Ft.
    apply In_apply_limit, In_sort_by, filter_In in Hin.
    destruct Hin as [_ Hdue]. unfold nth_reading in Hdue.
    rewrite Nat.add_0_r in Hdue.
    rewrite (due_at_four_digit r t _ Hr Ft Fn) in Hdue.
    now apply Z.leb_le.
Qed.

Lemma getDueAyahs_due_and_bounded_witness :
  exists rows w',
    getDueAyahs (Some 2%Z) sampleWorld = (Returned rows, w') /\
    (forall r, In r rows ->
       In r (ayah_progress (db sampleWorld)) /\
       due_at (nth_reading sampleWorld 0) r = true) /\
    (forall n, Some 2%Z = Some n -> (0 < n)%Z ->
       (List.length rows <= Z.to_nat n)%nat).
Proof.
  destruct (getDueAyahs_due_and_bounded (Some 2%Z) sampleWorld)
    as (rows & w' & Hrun & Hdue & Hlim & _).
  - reflexivity.
  - exists rows, w'. split; [exact Hrun |]. split; assumption.
Defined.

(** X31.  The filter compares texts, not times: a stored record whose due
    date lies in the year 10000 or later is written with a leading "+",
    which sorts before the digits, so [getDueAyahs] returns it at every
    reading of a clock that shows a year up to 9999, although it is not
    due yet. *)
Theorem getDueAyahs_selects_far_future (w : World) (r : AyahProgress)
    (t : Z) :
  faults w (calls w) = false ->
  In r (ayah_progress (db w)) ->
  ap_nextReview r = Some (mkDate (Fin (IZR t))) ->
  (253402300800000 <= t)%Z ->
  four_digit_year (ticks w (reads w)) ->
  exists rows w',
    getDueAyahs None w = (Returned rows, w') /\ In r rows /\
    (ticks w (reads w) < t)%Z /\
    le (Fin (IZR t)) (getTime (nth_reading w 0)) = false.
Proof.
  intros Hok Hin Hr Ht Fn.
  destruct (getDueAyahs_run None w Hok) as (w' & Hrun & _).
  eexists _, w'. split; [exact Hrun |].
  assert (Hlt : (ticks w (reads w) < t)%Z)
    by (unfold four_digit_year in Fn; lia).
  split; [| split; [exact Hlt |]].
  - cbn [apply_limit]. apply In_sort_by, filter_In. split; [exact Hin |].
    unfold nth_reading. rewrite Nat.add_0_r.
    now apply (due_at_expanded_year r t).
  - unfold nth_reading. rewrite Nat.add_0_r. cbn [getTime].
    apply le_Fin_false. now apply IZR_lt.
Qed.

Lemma getDueAyahs_selects_far_future_witness :
  let far :=
    mkAyahProgress 1 108 1 7 (Fin 0) None
      (Some (mkDate (Fin (IZR 400000000000000)))) (Fin (25 / 10)) (Fin 1)
      (Fin 0) (Fin 0) review (Fin 1) (mkDate (Fin 0)) [] false 1 in
  let w := quietWorld (mkDB [far] [] [] (Some defaultSettings) [] []) in
  exists rows w',
    getDueAyahs None w = (Returned rows, w') /\ In far rows /\
    (ticks w (reads w) < 400000000000000)%Z.
Proof.
  intros far w.
  destruct (getDueAyahs_selects_far_future w far 400000000000000)
    as (rows & w' & Hrun & Hin & Hlt & _).
  - reflexivity.
  - left. reflexivity.
  - reflexivity.
  - lia.
  - unfold four_digit_year. cbn. lia.
  - exists rows, w'. split; [exact Hrun |]. split; assumption.
Defined.

(** X11.  The order of the due set: new records first, then learning, then
    relearning, then review. *)
Theorem getDueAyahs_priority_order (limit : option Z) (w : World) :
  faults w (calls w) = false ->
  exists rows w',
    getDueAyahs limit w = (Returned rows, w') /\
    StronglySorted
      (fun a b => (state_priority (ap_state a)
                   <= state_priority (ap_state b))%Z) rows.
Proof.
  intros Hok. destruct (getDueAyahs_run limit w Hok) as (w' & Hrun & _).
  eexists _, w'. split; [exact Hrun |].
  assert (Hs : forall l,
            StronglySorted
              (fun a b => (state_priority (ap_state a)
                           <= state_priority (ap_state b))%Z)
              (sort_by due_order_leb l)).
  { intros l. apply sort_by_sorted.
    - intros a b c. lia.
    - intros a b. unfold due_order_leb. cbv zeta.
      destruct (Z.ltb_spec (state_priority (ap_state a))
                           (state_priority (ap_state b))); [lia |].
      destruct (Z.eqb_spec (state_priority (ap_state a))
                           (state_priority (ap_state b)));
        cbn; [lia | discriminate].
    - intros a b. unfold due_order_leb. cbv zeta.
      destruct (Z.ltb_spec (state_priority (ap_state a))
                           (state_priority (ap_state b)));
        cbn; [discriminate | lia]. }
  unfold apply_limit. destruct limit as [n |]; [| apply Hs].
  destruct (0 <? n)%Z; [apply StronglySorted_firstn |]; apply Hs.
Qed.

Lemma getDueAyahs_priority_order_witness :
  exists rows w',
    getDueAyahs None sampleWorld = (Returned rows, w') /\
    StronglySorted
      (fun a b => (state_priority (ap_state a)
                   <= state_priority (ap_state b))%Z) rows.
Proof.
  apply (getDueAyahs_priority_order None sampleWorld). reflexivity.
Defined.

End DueOrder.

(* ================================================================== *)
(** ** Units: the map of the dashboard and the list of the session *)
(* ================================================================== *)

Section Units.

Lemma amap_get_set_same {V} (k : uuid) (v : V) (m : list (uuid * V)) :
  amap_get Nat.eqb k (amap_set Nat.eqb k v m) = Some v.
Proof.
  induction m as [| [k' v'] m IH]; cbn.
  - now rewrite Nat.eqb_refl.
  - destruct (k' =? k)%nat eqn:E; cbn; [now rewrite Nat.eqb_refl |].
    now rewrite E.
Qed.

Lemma amap_has_mem {V} (k : uuid) (m : list (uuid * V)) :
  amap_has Nat.eqb k m = existsb (Nat.eqb k) (map fst m).
Proof.
  unfold amap_has. induction m as [| [k' v'] m IH]; cbn; [reflexivity |].
  rewrite (Nat.eqb_sym k k'). destruct (k' =? k)%nat; [reflexivity | exact IH].
Qed.

Lemma amap_set_keys {V} (k : uuid) (v : V) (m : list (uuid * V)) :
  map fst (amap_set Nat.eqb k v m) =
  if amap_has Nat.eqb k m then map fst m else map fst m ++ [k].
Proof.
  unfold amap_has. induction m as [| [k' v'] m IH]; cbn; [reflexivity |].
  destruct (Nat.eqb_spec k' k) as [-> | Hne]; cbn; [reflexivity |].
  rewrite IH. now destruct (amap_get Nat.eqb k m).
Qed.

Lemma amap_set_Forall {V} (Q : uuid * V -> Prop) (k : uuid) (v : V)
    (m : list (uuid * V)) :
  Q (k, v) -> Forall Q m -> Forall Q (amap_set Nat.eqb k v m).
Proof.
  intros Hq. induction 1 as [| [k' v'] m Hx Hm IH]; cbn.
  - constructor; [exact Hq | constructor].
  - destruct (k' =? k)%nat; constructor; assumption.
Qed.

(** One step of the map: the key of the unit is added when it is new, and
    the order of the keys is kept. *)
Lemma group_step_keys (m : list (uuid * list AyahProgress)) (a : AyahProgress) :
  map fst (group_step m a) =
  if amap_has Nat.eqb (unit_key a) m then map fst m
  else map fst m ++ [unit_key a].
Proof.
  unfold group_step, unit_key. destruct (ap_testWithGroup a).
  - destruct (amap_has Nat.eqb (ap_groupId a) m) eqn:Eh.
    + unfold amap_has in Eh.
      destruct (amap_get Nat.eqb (ap_groupId a) m) as [members |] eqn:Eg;
        [| discriminate].
      rewrite amap_set_keys. unfold amap_has. now rewrite Eg.
    + rewrite amap_get_set_same, amap_set_keys.
      unfold amap_has. rewrite amap_get_set_same.
      rewrite amap_set_keys, Eh. reflexivity.
  - apply amap_set_keys.
Qed.

Lemma group_step_nonempty (m : list (uuid * list AyahProgress))
    (a : AyahProgress) :
  Forall (fun e => snd e <> []) m ->
  Forall (fun e => snd e <> []) (group_step m a).
Proof.
  intros Hm. unfold group_step. destruct (ap_testWithGroup a).
  - destruct (amap_has Nat.eqb (ap_groupId a) m) eqn:Eh.
    + unfold amap_has in Eh.
      destruct (amap_get Nat.eqb (ap_groupId a) m) as [members |] eqn:Eg;
        [| discriminate].
      apply amap_set_Forall; [| exact Hm]. cbn. now destruct members.
    + rewrite amap_get_set_same.
      (* the empty list set first is replaced at once *)
      clear Eh. induction Hm as [| [k' v'] m Hx Hm' IH]; cbn.
      * rewrite Nat.eqb_refl. constructor; [cbn; discriminate | constructor].
      * destruct (k' =? ap_groupId a)%nat eqn:E; cbn.
        -- rewrite Nat.eqb_refl. constructor; [cbn; discriminate | exact Hm'].
        -- rewrite E. constructor; [exact Hx | exact IH].
  - apply amap_set_Forall; [cbn; discriminate | exact Hm].
Qed.

Lemma build_groupMap_nonempty (l : list AyahProgress) :
  Forall (fun e => snd e <> []) (build_groupMap l).
Proof.
  unfold build_groupMap.
  assert (H : forall m, Forall (fun e : uuid * list AyahProgress =>
                                  snd e <> []) m ->
                        Forall (fun e => snd e <> []) (fold_left group_step l m)).
  { induction l as [| a l IH]; intros m Hm; cbn; [exact Hm |].
    apply IH. now apply group_step_nonempty. }
  apply H. constructor.
Qed.

Lemma unique_loop_keys (l : list AyahProgress) :
  forall (m : list (uuid * list AyahProgress)) (proc : list uuid),
    (forall k, existsb (Nat.eqb k) proc = existsb (Nat.eqb k) (map fst m)) ->
    map fst (fold_left group_step l m) = unique_loop l (map fst m) proc.
Proof.
  induction l as [| a l IH]; intros m proc Hinv; cbn [fold_left unique_loop];
    [reflexivity |].
  pose proof (group_step_keys m a) as Hk.
  rewrite Hinv, <- amap_has_mem.
  destruct (amap_has Nat.eqb (unit_key a) m) eqn:Eh.
  - rewrite (IH (group_step m a) proc); rewrite Hk; [reflexivity | exact Hinv].
  - rewrite (IH (group_step m a) (unit_key a :: proc)); rewrite Hk;
      [reflexivity |].
    intros k. cbn [existsb]. rewrite existsb_app, Hinv. cbn.
    rewrite orb_false_r. apply orb_comm.
Qed.

Lemma unique_loop_NoDup (l : list AyahProgress) :
  forall acc proc : list uuid,
    (forall k, existsb (Nat.eqb k) proc = existsb (Nat.eqb k) acc) ->
    NoDup acc -> NoDup (unique_loop l acc proc).
Proof.
  induction l as [| a l IH]; intros acc proc Hinv Hnd; cbn; [exact Hnd |].
  destruct (existsb (Nat.eqb (unit_key a)) proc) eqn:E.
  - now apply IH.
  - apply IH.
    + intros k. cbn [existsb]. rewrite existsb_app, Hinv. cbn.
      rewrite orb_false_r. apply orb_comm.
    + apply NoDup_app; [exact Hnd | repeat constructor; intros [] |].
      intros x Hx [<- | []].
      rewrite Hinv in E.
      assert (Ht : existsb (Nat.eqb (unit_key a)) acc = true).
      { apply existsb_exists. exists (unit_key a).
        split; [exact Hx | apply Nat.eqb_refl]. }
      congruence.
Qed.

Lemma groupMap_keys_are_session_units_aux (l : list AyahProgress) :
  map fst (build_groupMap l) = uniqueGroupIds l /\
  NoDup (uniqueGroupIds l) /\
  (forall a, In a l -> In (unit_key a) (uniqueGroupIds l)).
Proof.
  assert (Hk : map fst (build_groupMap l) = uniqueGroupIds l)
    by (apply (unique_loop_keys l [] []); reflexivity).
  split; [exact Hk |]. split.
  - apply unique_loop_NoDup; [reflexivity | constructor].
  - rewrite <- Hk. clear Hk. unfold build_groupMap.
    assert (H : forall (m : list (uuid * list AyahProgress)) a,
              (In a l \/ In (unit_key a) (map fst m)) ->
              In (unit_key a) (map fst (fold_left group_step l m))).
    { induction l as [| b l IH]; intros m a Hin; cbn.
      - destruct Hin as [[] | H]; exact H.
      - apply IH. rewrite group_step_keys.
        destruct Hin as [[-> | Hin] | Hin].
        + right. destruct (amap_has Nat.eqb (unit_key a) m) eqn:Eh.
          * rewrite amap_has_mem in Eh. apply existsb_exists in Eh.
            destruct Eh as (x & Hx & Heq). apply Nat.eqb_eq in Heq.
            now subst x.
          * apply in_or_app. right. now left.
        + now left.
        + right. destruct (amap_has Nat.eqb (unit_key b) m);
            [exact Hin | apply in_or_app; now left]. }
    intros a Hin. apply H. now left.
Qed.

(** X12.  Run on the same list of records, the loop of
    [getTodayDueReviews] that fills its group map and the loop of the
    session effect that lists the unique groups find the same units, in
    the same order (that of the first record of each unit); no unit is
    listed twice and the unit of every record is listed.  (The two are
    not run on the same list: the dashboard groups all the records due,
    the session the list that [getSessionAyahs] composed.) *)
Theorem unit_loops_agree_on_a_list (l : list AyahProgress) :
  map fst (build_groupMap l) = uniqueGroupIds l /\
  NoDup (uniqueGroupIds l) /\
  (forall a, In a l -> In (unit_key a) (uniqueGroupIds l)).
Proof. exact (groupMap_keys_are_session_units_aux l). Qed.

End Units.

Section DueCountsFacts.

Lemma bind_inv {A B} (m : M A) (k : A -> M B) (w w' : World) (b : B) :
  bind m k w = (Returned b, w') ->
  exists a w1, m w = (Returned a, w1) /\ k a w1 = (Returned b, w').
Proof.
  unfold bind. destruct (m w) as [[a | e] w1]; [| discriminate].
  intros H. now exists a, w1.
Qed.

Lemma count_fold (gm : list (uuid * list AyahProgress)) :
  Forall (fun e => snd e <> []) gm ->
  forall n l r : Z,
  exists n' l' r',
    fold_left count_step gm (Some (n, l, r)) = Some (n', l', r') /\
    (n' + l' + r' = n + l + r + Z.of_nat (List.length gm))%Z /\
    (n <= n')%Z /\ (l <= l')%Z /\ (r <= r')%Z.
Proof.
  induction 1 as [| [k members] gm Hne Hgm IH]; intros n l r.
  - exists n, l, r. cbn. repeat split; lia.
  - cbn [fold_left]. unfold count_step at 2. cbn [snd] in *.
    destruct members as [| firstAyah rest]; [congruence |].
    destruct (ap_state firstAyah);
      match goal with
      | |- context [fold_left count_step gm (Some (?a, ?b, ?c))] =>
          destruct (IH a b c) as (n' & l' & r' & Hf & Hsum & H1 & H2 & H3)
      end;
      exists n', l', r'; (split; [exact Hf |]);
      cbn [List.length]; repeat split; lia.
Qed.

(** X13.  The counts of the dashboard add up: every unit is counted once,
    as new, as learning (learning or relearning) or as review.  When the
    store accepts the calls, the number of due units is the number of
    units among the records that pass the filter of the query at the
    reading of the clock taken after the settings were read. *)
Theorem getTodayDueReviews_counts_add_up (w : World) :
  (forall c w', getTodayDueReviews w = (Returned c, w') ->
     (due_count c = new_count c + learning_count c + review_count c)%Z /\
     (0 <= new_count c)%Z /\ (0 <= learning_count c)%Z /\
     (0 <= review_count c)%Z) /\
  (fault_free w ->
   exists c w',
     getTodayDueReviews w = (Returned c, w') /\
     due_count c =
       Z.of_nat (List.length
                   (uniqueGroupIds
                      (filter (due_at (due_reading w))
                              (ayah_progress (db w)))))).
Proof.
  assert (Hcounts : forall rows : list AyahProgress,
            rows <> [] ->
            exists n l r,
              fold_left count_step (build_groupMap rows) (Some (0, 0, 0)%Z)
                = Some (n, l, r) /\
              (n + l + r = Z.of_nat (List.length (build_groupMap rows)))%Z /\
              (0 <= n)%Z /\ (0 <= l)%Z /\ (0 <= r)%Z).
  { intros rows _.
    destruct (count_fold _ (build_groupMap_nonempty rows) 0 0 0)
      as (n & l & r & Hf & Hsum & H1 & H2 & H3).
    exists n, l, r. repeat split; assumption || lia. }
  split.
  - intros c w' Hrun. unfold getTodayDueReviews, try_catch in Hrun.
    destruct (getTodayDueReviews_body w) as [[c0 | e] w0] eqn:Eb.
    2:{ inversion Hrun; subst. cbn. clear. lia. }
    inversion Hrun; subst c0 w0. clear Hrun.
    unfold getTodayDueReviews_body in Eb.
    apply bind_inv in Eb. destruct Eb as (st & w1 & _ & Eb).
    apply bind_inv in Eb. destruct Eb as (now & w2 & _ & Eb).
    apply bind_inv in Eb. destruct Eb as (rows & w3 & _ & Eb).
    destruct rows as [| r0 rows].
    { unfold ret in Eb. inversion Eb. subst. cbn. clear. lia. }
    destruct (Hcounts (r0 :: rows)) as (n & l & r & Hf & Hsum & H1 & H2 & H3);
      [discriminate |].
    rewrite Hf in Eb. unfold ret in Eb. inversion Eb; subst.
    cbn [due_count new_count learning_count review_count]. lia.
  - intros Hff.
    destruct (getSettings_reads w Hff)
      as (st & w1 & Hset & Henv & Hrows & Hreads).
    pose proof (same_env_fault_free _ _ Henv Hff) as Hff1.
    pose proof (dateNow_due_reading w w1 Henv Hreads) as Hnow.
    unfold getTodayDueReviews, try_catch, getTodayDueReviews_body.
    rewrite (bind_returned _ Hset).
    unfold bind at 1. cbn [dateNow]. rewrite Hnow.
    set (now := due_reading w). set (w2 := mkWorld _ _ _ _ _ _ _).
    assert (Hff2 : fault_free w2) by exact Hff1.
    rewrite (bind_returned _ (run_executeQuery _ _ Hff2)).
    change (db w2) with (db w1). rewrite Hrows.
    destruct (filter (due_at now) (ayah_progress (db w))) as [| r0 rows] eqn:Ef.
    + exists zeroCounts, (count_call w2). split; reflexivity.
    + destruct (Hcounts (r0 :: rows)) as (n & l & r & Hf & _);
        [discriminate |].
      rewrite Hf. eexists _, _. split; [reflexivity |].
      cbn [due_count].
      destruct (groupMap_keys_are_session_units_aux (r0 :: rows)) as [Hk _].
      now rewrite <- Hk, length_map.
Qed.

End DueCountsFacts.

(* ================================================================== *)
(** ** The composition of a session *)
(* ================================================================== *)

Section SessionComposition.

Lemma session_loop_ungrouped (due : list AyahProgress) :
  forall (acc : list AyahProgress) (seen : list uuid) (w : World),
    (forall a, In a due -> ap_testWithGroup a = false) ->
    session_loop due acc seen w = (Returned (acc ++ due), w).
Proof.
  induction due as [| a due IH]; intros acc seen w Hall; cbn.
  - now rewrite app_nil_r.
  - rewrite (Hall a (or_introl eq_refl)). cbn.
    rewrite IH by (intros b Hb; apply Hall; now right).
    now rewrite <- app_assoc.
Qed.

(** When no stored record is tested with its group, the session is the
    due list itself: the records [getDueAyahs] returns for the review
    limit of the settings, in the same order. *)
Theorem getSessionAyahs_ungrouped (w : World) :
  fault_free w ->
  (forall r, In r (ayah_progress (db w)) -> ap_testWithGroup r = false) ->
  exists st w1 rows w2,
    getSettings w = (Returned st, w1) /\
    getDueAyahs (Some (reviewLimit st)) w1 = (Returned rows, w2) /\
    getSessionAyahs w = (Returned rows, w2).
Proof.
  intros Hff Hall.
  destruct (getSettings_run w Hff) as (st & w1 & Hset & Henv & Hrows).
  pose proof (same_env_fault_free _ _ Henv Hff) as Hff1.
  destruct (getDueAyahs_due_and_bounded_aux (Some (reviewLimit st)) w1
              (Hff1 _)) as (rows & w2 & Hdue & Hin).
  exists st, w1, rows, w2. split; [exact Hset |]. split; [exact Hdue |].
  unfold getSessionAyahs, try_catch, getSessionAyahs_body.
  rewrite (bind_returned _ Hset), (bind_returned _ Hdue).
  rewrite session_loop_ungrouped; [reflexivity |].
  intros a Ha. apply Hall. rewrite <- Hrows. now apply Hin.
Qed.

Lemma getSessionAyahs_ungrouped_witness :
  exists st w1 rows w2,
    getSettings (quietWorld (set_ayah_progress
                   [sampleProgress 1 7 1 false] emptyDB))
      = (Returned st, w1) /\
    getDueAyahs (Some (reviewLimit st)) w1 = (Returned rows, w2) /\
    getSessionAyahs (quietWorld (set_ayah_progress
                       [sampleProgress 1 7 1 false] emptyDB))
      = (Returned rows, w2).
Proof.
  apply (getSessionAyahs_ungrouped
           (quietWorld (set_ayah_progress [sampleProgress 1 7 1 false]
                                          emptyDB))).
  - intros n. reflexivity.
  - intros r [<- | []]. reflexivity.
Defined.

Lemma unique_loop_acc (l : list AyahProgress) :
  forall acc proc, unique_loop l acc proc = acc ++ unique_loop l [] proc.
Proof.
  induction l as [| a l IH]; intros acc proc; cbn.
  - now rewrite app_nil_r.
  - destruct (existsb (Nat.eqb (unit_key a)) proc); [apply IH |].
    rewrite IH, (IH [unit_key a]). now rewrite <- app_assoc.
Qed.

(** The members of a group, as the session loads them. *)
Lemma session_loop_grouped (rows due : list AyahProgress) :
  forall (acc : list AyahProgress) (seen : list uuid) (w : World),
    fault_free w -> ayah_progress (db w) = rows ->
    (forall a, In a due -> ap_testWithGroup a = true) ->
    exists w',
      session_loop due acc seen w =
        (Returned
           (acc ++ flat_map
                     (fun g => sort_by position_leb
                                 (filter (fun r => (ap_groupId r =? g)%nat)
                                         rows))
                     (unique_loop due [] seen)), w') /\
      same_env w w' /\ db w' = db w.
Proof.
  induction due as [| a due IH]; intros acc seen w Hff Hrows Hall; cbn.
  - exists w. rewrite app_nil_r. repeat split.
  - pose proof (Hall a (or_introl eq_refl)) as Ha.
    unfold unit_key. rewrite Ha. cbn [andb negb].
    destruct (existsb (Nat.eqb (ap_groupId a)) seen) eqn:Es; cbn [negb].
    + apply IH; try assumption. intros b Hb. apply Hall. now right.
    + rewrite (bind_returned _ (run_executeQuery _ _ Hff)).
      destruct (IH (acc ++ sort_by position_leb
                            (filter (fun r => (ap_groupId r =? ap_groupId a)%nat)
                                    (ayah_progress (db w))))
                   (ap_groupId a :: seen) (count_call w) Hff Hrows)
        as (w' & Hrun & Henv & Hdb).
      { intros b Hb. apply Hall. now right. }
      exists w'. split.
      * rewrite Hrun. rewrite (unique_loop_acc due [ap_groupId a]).
        cbn [app flat_map]. rewrite Hrows, <- app_assoc. reflexivity.
      * split; [| exact Hdb].
        eapply same_env_trans; [| exact Henv]. repeat split.
Qed.

(** X14.  When the due records are tested with their groups, the session holds,
    for each due unit in the order of the due list, all the stored
    members of the group in the order of their positions, due or not, and
    each group once. *)
Theorem getSessionAyahs_whole_groups (w : World) :
  fault_free w ->
  (forall r, In r (ayah_progress (db w)) -> ap_testWithGroup r = true) ->
  exists st w1 due w2 w3,
    getSettings w = (Returned st, w1) /\
    getDueAyahs (Some (reviewLimit st)) w1 = (Returned due, w2) /\
    getSessionAyahs w =
      (Returned
         (flat_map
            (fun g => sort_by position_leb
                        (filter (fun r => (ap_groupId r =? g)%nat)
                                (ayah_progress (db w))))
            (uniqueGroupIds due)), w3).
Proof.
  intros Hff Hall.
  destruct (getSettings_run w Hff) as (st & w1 & Hset & Henv & Hrows).
  pose proof (same_env_fault_free _ _ Henv Hff) as Hff1.
  destruct (getDueAyahs_run (Some (reviewLimit st)) w1 (Hff1 _))
    as (w2 & Hdue & Henv2 & Hdb2).
  set (due := apply_limit _ _) in Hdue.
  assert (Hin : forall a, In a due -> In a (ayah_progress (db w))).
  { intros a Ha. subst due.
    apply In_apply_limit, In_sort_by, filter_In in Ha.
    rewrite <- Hrows. apply Ha. }
  destruct (session_loop_grouped (ayah_progress (db w)) due [] [] w2)
    as (w3 & Hloop & _).
  - eapply same_env_fault_free; eassumption.
  - now rewrite Hdb2.
  - intros a Ha. apply Hall, Hin, Ha.
  - exists st, w1, due, w2, w3. split; [exact Hset |]. split; [exact Hdue |].
    unfold getSessionAyahs, try_catch, getSessionAyahs_body.
    rewrite (bind_returned _ Hset), (bind_returned _ Hdue), Hloop.
    reflexivity.
Qed.

Lemma getSessionAyahs_whole_groups_witness :
  exists st w1 due w2 w3,
    getSettings sampleWorld = (Returned st, w1) /\
    getDueAyahs (Some (reviewLimit st)) w1 = (Returned due, w2) /\
    getSessionAyahs sampleWorld =
      (Returned
         (flat_map
            (fun g => sort_by position_leb
                        (filter (fun r => (ap_groupId r =? g)%nat)
                                (ayah_progress (db sampleWorld))))
            (uniqueGroupIds due)), w3).
Proof.
  apply (getSessionAyahs_whole_groups sampleWorld).
  - intros n. reflexivity.
  - intros r [<- | [<- | [<- | []]]]; reflexivity.
Defined.

End SessionComposition.

(* ================================================================== *)
(** ** Item records: updates, creation and reset *)
(* ================================================================== *)

Section ProgressRecords.

Lemma filter_none {A} (f : A -> bool) (l : list A) :
  (forall x, In x l -> f x = false) -> filter f l = [].
Proof.
  induction l as [| x l IH]; intros H; cbn; [reflexivity |].
  rewrite (H x (or_introl eq_refl)). apply IH.
  intros y Hy. apply H. now right.
Qed.

(** X15.  Updating an identifier that has no record throws "Ayah progress not
    found" and writes nothing. *)
Theorem updateAyahProgress_missing_id (id : uuid) (rating : Rating)
    (e : option num) (w : World) :
  faults w (calls w) = false ->
  (forall r, In r (ayah_progress (db w)) -> ap_id r <> id) ->
  exists w',
    updateAyahProgress id rating e w
      = (Thrown "Ayah progress not found", w') /\
    db w' = db w /\ reads w' = reads w.
Proof.
  intros Hok Hnone. unfold updateAyahProgress, bind, executeQuery.
  rewrite Hok. rewrite filter_none.
  - eexists. split; [reflexivity |]. split; reflexivity.
  - intros r Hr. apply Nat.eqb_neq. now apply Hnone.
Qed.

Lemma updateAyahProgress_missing_id_witness :
  exists w',
    updateAyahProgress 9 Good None sampleWorld
      = (Thrown "Ayah progress not found", w') /\
    db w' = db sampleWorld /\ reads w' = reads sampleWorld.
Proof.
  apply (updateAyahProgress_missing_id 9 Good None sampleWorld).
  - reflexivity.
  - intros r [<- | [<- | [<- | []]]]; cbn; lia.
Defined.

Lemma recall_score_range (history : list ReviewEntry) :
  history <> [] ->
  exists x,
    (if (0 <? List.length history)%nat
     then mul (div (Fin (INR (List.length
                               (filter (fun e => (3 <=? rating_value
                                                          (re_rating e))%Z)
                                       history))))
                   (Fin (INR (List.length history))))
              (Fin 100)
     else Fin 0) = Fin x /\ (0 <= x <= 100)%R.
Proof.
  intros Hne.
  assert (Hlen : (0 < List.length history)%nat)
    by (destruct history; [congruence | cbn; lia]).
  destruct (Nat.ltb_spec 0 (List.length history)); [| lia].
  set (g := List.length (filter _ history)).
  assert (Hg : (g <= List.length history)%nat) by apply filter_length_le.
  assert (Hpos : (0 < INR (List.length history))%R) by now apply lt_0_INR.
  rewrite div_Fin by lra. cbn [mul].
  eexists. split; [reflexivity |].
  assert (H0 : (0 <= INR g)%R) by apply pos_INR.
  assert (H1 : (INR g <= INR (List.length history))%R) by now apply le_INR.
  assert (Hi : (0 < / INR (List.length history))%R)
    by now apply Rinv_0_lt_compat.
  assert (Hq : (0 <= INR g / INR (List.length history) <= 1)%R).
  { split.
    - unfold Rdiv. nra.
    - apply Rmult_le_reg_r with (INR (List.length history)); [exact Hpos |].
      unfold Rdiv. rewrite Rmult_assoc, Rinv_l by lra. lra. }
  lra.
Qed.

(** X16.  A successful update appends one entry to the history and keeps what
    was there; the entry carries the rating, the elapsed time, the
    interval before and the interval after.  The identity of the record
    is kept, the recall score is a percentage, and the records with
    another identifier are left as they are. *)
Theorem updateAyahProgress_appends_history (id : uuid) (rating : Rating)
    (e : option num) (w : World) (r : AyahProgress)
    (rest : list AyahProgress) :
  fault_free w ->
  filter (fun x => (ap_id x =? id)%nat) (ayah_progress (db w)) = r :: rest ->
  valid_due (updatedProgress r rating e (nth_reading w 0)) ->
  exists u w',
    updateAyahProgress id rating e w = (Returned u, w') /\
    ap_history u =
      ap_history r ++
      [mkReviewEntry (nth_reading w 0) rating e (ap_interval r)
                     (ap_interval u)] /\
    (ap_id u, ap_surahNumber u, ap_ayahNumber u, ap_groupId u,
     ap_testWithGroup u, ap_groupPosition u, ap_createdAt u)
    = (ap_id r, ap_surahNumber r, ap_ayahNumber r, ap_groupId r,
       ap_testWithGroup r, ap_groupPosition r, ap_createdAt r) /\
    (exists x, ap_recallScore u = Fin x /\ (0 <= x <= 100)%R) /\
    List.length (ayah_progress (db w')) = List.length (ayah_progress (db w)) /\
    (forall x, In x (ayah_progress (db w)) -> ap_id x <> id ->
               In x (ayah_progress (db w'))).
Proof.
  intros Hff Hrow Hvalid.
  destruct (updateAyahProgress_run id rating e w r rest Hff Hrow Hvalid)
    as (w' & Hrun & _ & _ & Hdb).
  eexists _, w'. split; [exact Hrun |].
  split; [reflexivity |]. split; [reflexivity |].
  split.
  - unfold updatedProgress. cbn [ap_recallScore].
    apply recall_score_range. now destruct (ap_history r).
  - rewrite Hdb. split; [apply length_map |].
    intros x Hx Hne. apply in_map_iff. exists x. split; [| exact Hx].
    apply write_progress_other.
    assert (Hr : In r (filter (fun x => (ap_id x =? id)%nat)
                              (ayah_progress (db w))))
      by (rewrite Hrow; now left).
    apply filter_In in Hr. destruct Hr as [_ Hr]. apply Nat.eqb_eq in Hr.
    cbn [ap_id updatedProgress]. congruence.
Qed.

Lemma updateAyahProgress_appends_history_witness :
  exists u w',
    updateAyahProgress 2 Good (Some (Fin 0)) sampleWorld = (Returned u, w') /\
    ap_history u =
      ap_history (sampleProgress 2 7 2 true) ++
      [mkReviewEntry (nth_reading sampleWorld 0) Good (Some (Fin 0))
                     (ap_interval (sampleProgress 2 7 2 true))
                     (ap_interval u)].
Proof.
  destruct (updateAyahProgress_appends_history 2 Good (Some (Fin 0))
              sampleWorld (sampleProgress 2 7 2 true) [])
    as (u & w' & Hrun & Hh & _).
  - intros n. reflexivity.
  - reflexivity.
  - rewrite sample_reading. apply valid_due_new_Good.
    change (IZR (1000 + Z.of_nat 0)) with (IZR 1000). lra.
  - exists u, w'. split; assumption.
Defined.

End ProgressRecords.

(* ================================================================== *)
(** ** The life of a review session *)
(* ================================================================== *)

Section SessionLifecycle.

Lemma filter_merge_stats (id : uuid) (u : StatsUpdate)
    (l : list SessionStatistics) :
  filter (fun r => (ss_id r =? id)%nat)
         (map (fun r => if (ss_id r =? id)%nat then merge_stats r u else r) l)
  = map (fun r => merge_stats r u) (filter (fun r => (ss_id r =? id)%nat) l).
Proof.
  induction l as [| r l IH]; cbn; [reflexivity |].
  destruct (ss_id r =? id)%nat eqn:E; cbn; rewrite ?E, IH; reflexivity.
Qed.

(** A new statistics record starts from zero and is the one read back
    under its identifier, provided the identifier is not in use. *)
Theorem createSessionStatistics_read_back (w : World) :
  fault_free w ->
  (forall r, In r (session_statistics (db w)) -> ss_id r <> next_uuid w) ->
  exists st w1 w2,
    createSessionStatistics w = (Returned st, w1) /\
    getSessionStatistics (ss_id st) w1 = (Returned (Some st), w2) /\
    ss_totalReviewed st = 0%Z /\ ss_newLearned st = 0%Z /\
    ss_ratings st = zeroTally /\
    session_statistics (db w1) = session_statistics (db w) ++ [st].
Proof.
  intros Hff Hfresh.
  unfold createSessionStatistics, getSessionStatistics, bind, uuidv4,
    dateNow, executeUpdate, executeQuery, ret.
  cbn [faults calls db set_db count_call next_uuid]. rewrite !Hff.
  eexists _, _, _. split; [reflexivity |].
  cbn [faults calls db set_db count_call session_statistics
       set_session_statistics ss_id]. rewrite Hff.
  rewrite filter_app, filter_none.
  - cbn. rewrite Nat.eqb_refl. cbn.
    split; [reflexivity |]. repeat split.
  - intros r Hr. apply Nat.eqb_neq. now apply Hfresh.
Qed.

Lemma createSessionStatistics_read_back_witness :
  exists st w1 w2,
    createSessionStatistics sampleWorld = (Returned st, w1) /\
    getSessionStatistics (ss_id st) w1 = (Returned (Some st), w2) /\
    ss_totalReviewed st = 0%Z /\ ss_newLearned st = 0%Z /\
    ss_ratings st = zeroTally /\
    session_statistics (db w1) = session_statistics (db sampleWorld) ++ [st].
Proof.
  apply (createSessionStatistics_read_back sampleWorld).
  - intros n. reflexivity.
  - intros r [<- | []]. cbn. lia.
Defined.

(** X17.  Ending a session writes the final totals: the record read back under
    the session's identifier has the count and the tally passed in, the
    retention computed from that tally, and the session's counters; the
    session itself is returned inactive, empty and routed to the
    summary. *)
Theorem endSession_persists_totals (s p : SessionState) (n : Z)
    (t : RatingsTally) (w : World) (stats row : SessionStatistics)
    (rest : list SessionStatistics) :
  fault_free w ->
  sessionStats s = Some stats ->
  filter (fun r => (ss_id r =? ss_id stats)%nat) (session_statistics (db w))
    = row :: rest ->
  exists p' w' w'',
    endSession s (Some n) (Some t) p w = (Returned p', w') /\
    getSessionStatistics (ss_id stats) w'
      = (Returned (Some (mkStats (ss_id stats) (ss_date row) n (newLearned s)
                           (elapsedTime s) t (calculateRetention t))), w'') /\
    isActive p' = false /\ ayahs p' = [] /\ currentAyah p' = None /\
    sessionStats p' = None /\ summaryRoute p' = Some (ss_id stats).
Proof.
  intros Hff Hs Hrow.
  assert (Hid : ss_id row = ss_id stats).
  { assert (Hin : In row (filter (fun r => (ss_id r =? ss_id stats)%nat)
                                 (session_statistics (db w))))
      by (rewrite Hrow; now left).
    apply filter_In in Hin. destruct Hin as [_ Hin].
    now apply Nat.eqb_eq in Hin. }
  unfold endSession, try_catch. rewrite Hs.
  unfold updateSessionStatistics, getSessionStatistics, bind, executeQuery,
    executeUpdate, ret.
  cbn [faults calls db set_db count_call]. rewrite !Hff, Hrow.
  cbn [faults calls db set_db count_call]. rewrite Hff.
  eexists _, _, _. split; [reflexivity |].
  cbn [faults calls db set_db count_call session_statistics
       set_session_statistics]. rewrite Hff.
  rewrite filter_merge_stats, Hrow. cbn [map].
  unfold merge_stats at 1. cbn [su_totalReviewed su_newLearned su_reviewTime
    su_ratings su_retention]. rewrite Hid.
  split; [reflexivity |].
  destruct (timer s); cbn; repeat split.
Qed.

Lemma endSession_persists_totals_witness :
  exists p' w' w'',
    endSession sampleSession (Some 3%Z) (Some (mkTally 0 0 3 0)) sampleSession
               sampleWorld = (Returned p', w') /\
    getSessionStatistics 50 w'
      = (Returned (Some (mkStats 50 (mkDate (Fin 0)) 3 0 0 (mkTally 0 0 3 0)
                           (calculateRetention (mkTally 0 0 3 0)))), w'') /\
    isActive p' = false /\ ayahs p' = [] /\ currentAyah p' = None /\
    sessionStats p' = None /\ summaryRoute p' = Some 50%nat.
Proof.
  apply (endSession_persists_totals sampleSession sampleSession 3
           (mkTally 0 0 3 0) sampleWorld sampleStats sampleStats []).
  - intros k. reflexivity.
  - reflexivity.
  - reflexivity.
Defined.

(** X18.  When the statistics cannot be written (the storage call is rejected,
    or the record is gone), ending the session changes nothing but the
    timer: the session stays active with its items, and nothing is
    stored. *)
Theorem endSession_failure_keeps_session (s p : SessionState)
    (n : option Z) (t : option RatingsTally) (w : World)
    (stats : SessionStatistics) :
  sessionStats s = Some stats ->
  faults w (calls w) = true \/
  (forall r, In r (session_statistics (db w)) -> ss_id r <> ss_id stats) ->
  exists w',
    endSession s n t p w
      = (Returned (if timer s then setTimer false p else p), w') /\
    db w' = db w.
Proof.
  intros Hs Hfail. unfold endSession, try_catch. rewrite Hs.
  unfold updateSessionStatistics, bind, executeQuery, throw, ret.
  destruct (faults w (calls w)) eqn:Ef.
  - eexists. split; reflexivity.
  - destruct Hfail as [Hfail | Hnone]; [discriminate |].
    rewrite filter_none.
    + eexists. split; reflexivity.
    + intros r Hr. apply Nat.eqb_neq. now apply Hnone.
Qed.

Lemma endSession_failure_keeps_session_witness :
  exists w',
    endSession sampleSession None None sampleSession
               (faultyWorld (db sampleWorld) 0)
      = (Returned (setTimer false sampleSession), w') /\
    db w' = db (faultyWorld (db sampleWorld) 0).
Proof.
  apply (endSession_failure_keeps_session sampleSession sampleSession None None
           (faultyWorld (db sampleWorld) 0) sampleStats).
  - reflexivity.
  - left. reflexivity.
Defined.

(** X19.  When the first storage call of [rateAyah] is rejected, the error
    is caught: the session is returned as it was, and nothing is
    stored. *)
Theorem rateAyah_rejected_write_keeps_session (rating : Rating)
    (s : SessionState) (w : World) (cur : AyahProgress) :
  currentAyah s = Some cur ->
  faults w (calls w) = true ->
  exists w', rateAyah rating s w = (Returned s, w') /\ db w' = db w.
Proof.
  intros Hc Hf. unfold rateAyah, try_catch. rewrite Hc.
  unfold updateAyahProgress, bind, executeQuery, dateNow, ret.
  destruct (ayahStartTime s); cbn [faults calls db]; rewrite Hf;
    eexists; split; reflexivity.
Qed.

Lemma rateAyah_rejected_write_keeps_session_witness :
  exists w',
    rateAyah Good sampleSession (faultyWorld (db sampleWorld) 0)
      = (Returned sampleSession, w') /\
    db w' = db (faultyWorld (db sampleWorld) 0).
Proof.
  apply (rateAyah_rejected_write_keeps_session Good sampleSession
           (faultyWorld (db sampleWorld) 0) (sampleProgress 1 7 1 true)).
  - reflexivity.
  - reflexivity.
Defined.

(** Whatever the store does, [rateAyah] returns a session state: every
    error of the updates and of the end of the session is caught. *)
Theorem rateAyah_never_throws (rating : Rating) (s : SessionState)
    (w : World) :
  exists s' w', rateAyah rating s w = (Returned s', w').
Proof.
  unfold rateAyah. destruct (currentAyah s) as [cur |].
  - unfold try_catch.
    match goal with |- context [match ?b w with _ => _ end] =>
      destruct (b w) as [[a | e] w1] end.
    + now exists a, w1.
    + now exists s, w1.
  - now exists s, w.
Qed.

(** X20.  When the first storage call of [startSession] is rejected (the
    settings query made while the due items are collected), the failure
    is reported as "No ayahs due for review": the session is not started
    and nothing is stored. *)
Theorem startSession_storage_failure (v : SessionView) (w : World) :
  faults w (calls w) = true ->
  exists w',
    startSession v w
      = (Returned (mkView (session v) false
                          (Some "No ayahs due for review"%string)
                          (startTime v)), w') /\
    db w' = db w.
Proof.
  intros Hf. unfold startSession, try_catch, getSessionAyahs, try_catch,
    getSessionAyahs_body, getSettings.
  unfold bind at 1 2 3. unfold executeQuery at 1. rewrite Hf.
  cbn. eexists. split; reflexivity.
Qed.

Lemma startSession_storage_failure_witness :
  exists w',
    startSession (mkView sampleSession false None None)
                 (faultyWorld (db sampleWorld) 0)
      = (Returned (mkView sampleSession false
                          (Some "No ayahs due for review"%string) None), w') /\
    db w' = db (faultyWorld (db sampleWorld) 0).
Proof.
  apply (startSession_storage_failure (mkView sampleSession false None None)
           (faultyWorld (db sampleWorld) 0)).
  reflexivity.
Defined.

(** X21.  With items due and a working store, the session starts on those
    items at index 0 with zeroed counters, a running timer and a new
    statistics record, which is stored. *)
Theorem startSession_starts (v : SessionView) (w w1 : World)
    (due : list AyahProgress) :
  fault_free w ->
  getSessionAyahs w = (Returned due, w1) ->
  due <> [] ->
  exists v' w' st,
    startSession v w = (Returned v', w') /\
    isActive (session v') = true /\ ayahs (session v') = due /\
    ayahIndex (session v') = 0%Z /\
    totalReviewed (session v') = 0%Z /\ newLearned (session v') = 0%Z /\
    elapsedTime (session v') = 0%Z /\ timer (session v') = true /\
    sessionStats (session v') = Some st /\
    loading v' = false /\ error v' = None /\
    ss_id st = next_uuid w1 /\ ss_ratings st = zeroTally /\
    session_statistics (db w') = session_statistics (db w1) ++ [st].
Proof.
  intros Hff Hdue Hne.
  assert (Hff1 : fault_free w1).
  { unfold getSessionAyahs, try_catch in Hdue.
    destruct (getSessionAyahs_body w) as [[a | e] w0] eqn:Eb.
    - inversion Hdue; subst.
      destruct (clean_getSessionAyahs_body _ _ _ Eb) as (Hf & _).
      intros k. rewrite Hf. apply Hff.
    - unfold ret in Hdue. inversion Hdue; subst. contradiction. }
  unfold startSession, try_catch.
  rewrite (bind_returned _ Hdue).
  destruct due as [| a due]; [contradiction |]. cbn [is_empty].
  unfold createSessionStatistics, bind, uuidv4, dateNow, executeUpdate, ret.
  cbn [faults calls db set_db count_call next_uuid]. rewrite Hff1.
  eexists _, _, _. split; [reflexivity |].
  cbn. repeat split.
Qed.

Lemma startSession_starts_witness :
  exists v' w' st,
    startSession (mkView sampleSession false None None) sampleWorld
      = (Returned v', w') /\
    isActive (session v') = true /\ ayahs (session v') = sampleRows /\
    ayahIndex (session v') = 0%Z /\
    sessionStats (session v') = Some st /\ ss_id st = 100%nat.
Proof.
  destruct (startSession_starts (mkView sampleSession false None None)
              sampleWorld
              (snd (getSessionAyahs sampleWorld)) sampleRows)
    as (v' & w' & st & Hrun & Ha & Hb & Hc & _ & _ & _ & _ & Hs & _ & _ &
        Hid & _).
  - intros k. reflexivity.
  - vm_compute. reflexivity.
  - discriminate.
  - exists v', w', st. repeat split; assumption.
Defined.

End SessionLifecycle.

(* ================================================================== *)
(** ** The groups of the fixed strategy *)
(* ================================================================== *)

Section FixedGroups.

Lemma fixed_layout_past_end (s : Surah) (size : Z) (fuel : nat) (start : Z)
    (id : uuid) :
  (ayahCount s < start)%Z -> fixed_layout fuel s size start id = [].
Proof.
  intros H. destruct fuel; cbn; [reflexivity |].
  destruct (Z.leb_spec start (ayahCount s)); [lia | reflexivity].
Qed.

Lemma fixed_layout_tiles (s : Surah) (size : Z) :
  (1 <= size)%Z ->
  forall (fuel : nat) (start : Z) (id : uuid),
    (Z.to_nat (ayahCount s - start + 1) <= fuel)%nat ->
    tiles start (ayahCount s) (fixed_layout fuel s size start id).
Proof.
  intros Hsize. induction fuel as [| fuel IH]; intros start id Hf.
  - cbn. lia.
  - cbn [fixed_layout].
    destruct (Z.leb_spec start (ayahCount s)) as [Hle | Hgt]; [| cbn; lia].
    cbn [tiles startAyah endAyah newGroup].
    split; [reflexivity |]. split; [lia |].
    destruct (Z.le_gt_cases (start + size - 1) (ayahCount s)) as [Hin | Hout].
    + rewrite Z.min_l by lia.
      replace (start + size - 1 + 1)%Z with (start + size)%Z by lia.
      apply IH. lia.
    + rewrite Z.min_r by lia.
      rewrite fixed_layout_past_end by lia. cbn. lia.
Qed.

Lemma fixed_layout_sizes (s : Surah) (size : Z) :
  (1 <= size)%Z ->
  forall (fuel : nat) (start : Z) (id : uuid),
    Forall (fun g => (1 <= group_size g <= size)%Z /\
                     (group_size g = size \/ endAyah g = ayahCount s))
           (fixed_layout fuel s size start id).
Proof.
  intros Hsize. induction fuel as [| fuel IH]; intros start id; cbn;
    [constructor |].
  destruct (Z.leb_spec start (ayahCount s)) as [Hle | Hgt]; [| constructor].
  constructor; [| apply IH].
  unfold group_size. cbn [startAyah endAyah newGroup]. lia.
Qed.

Lemma fixed_layout_fields (s : Surah) (size : Z) (fuel : nat) :
  forall (start : Z) (id : uuid),
    Forall (fun g => groupType g = fixed /\ ag_surahNumber g = number s /\
                     ag_state g = g_new /\ ayahIds g = [] /\
                     testAsGroup g = true /\ (id <= ag_id g)%nat)
           (fixed_layout fuel s size start id).
Proof.
  induction fuel as [| fuel IH]; intros start id; cbn; [constructor |].
  destruct (start <=? ayahCount s)%Z; [| constructor].
  constructor.
  - cbn. repeat split. lia.
  - eapply Forall_impl; [| apply (IH (start + size)%Z (S id))].
    cbn. intros g (H1 & H2 & H3 & H4 & H5 & H6). repeat split; try assumption.
    lia.
Qed.

Lemma fixed_layout_ids (s : Surah) (size : Z) (fuel : nat) :
  forall (start : Z) (id : uuid),
    NoDup (map ag_id (fixed_layout fuel s size start id)).
Proof.
  induction fuel as [| fuel IH]; intros start id; cbn; [constructor |].
  destruct (start <=? ayahCount s)%Z; [| constructor].
  cbn. constructor; [| apply IH].
  intros Hin. apply in_map_iff in Hin. destruct Hin as (g & Hg & Hin).
  pose proof (fixed_layout_fields s size fuel (start + size)%Z (S id)) as Hall.
  rewrite Forall_forall in Hall. specialize (Hall g Hin).
  destruct Hall as (_ & _ & _ & _ & _ & Hle). lia.
Qed.

(** X22.  The fixed strategy cuts the surah into consecutive groups that cover
    the ayahs 1 to [ayahCount] without gap or overlap; every group has the
    requested size, except that the last one may be shorter.  A size of 0
    stands for 5 and a negative size for 1.  The groups carry distinct
    identifiers, and the call removes the stored fixed groups of the
    surah. *)
Theorem createFixedGroups_tiles_surah (surah : Surah) (groupSize : Z)
    (w : World) :
  fault_free w ->
  exists groups w',
    createFixedGroups surah groupSize w = (Returned groups, w') /\
    tiles 1 (ayahCount surah) groups /\
    Forall (fun g =>
              (1 <= group_size g
                 <= Z.max 1 (if (groupSize =? 0)%Z then 5 else groupSize))%Z /\
              (group_size g
                 = Z.max 1 (if (groupSize =? 0)%Z then 5 else groupSize)
               \/ endAyah g = ayahCount surah)) groups /\
    NoDup (map ag_id groups) /\
    Forall (fun g => groupType g = fixed /\
                     ag_surahNumber g = number surah) groups /\
    db w' = delete_groups (number surah) fixed (db w).
Proof.
  intros Hff.
  destruct (createFixedGroups_run surah groupSize w Hff)
    as (w' & Hrun & _ & Hdb).
  eexists _, w'. split; [exact Hrun |].
  assert (Hsize : (1 <= Z.max 1 (if (groupSize =? 0)%Z then 5 else groupSize))%Z)
    by lia.
  split; [apply fixed_layout_tiles; [exact Hsize | lia] |].
  split; [apply fixed_layout_sizes; exact Hsize |].
  split; [apply fixed_layout_ids |].
  split; [| exact Hdb].
  eapply Forall_impl; [| apply fixed_layout_fields].
  cbn. intros g (H1 & H2 & _). now split.
Qed.

Lemma createFixedGroups_tiles_surah_witness :
  exists groups w',
    createFixedGroups (mkSurah 108 12 [] []) 0 (quietWorld emptyDB)
      = (Returned groups, w') /\
    tiles 1 12 groups /\
    map group_size groups = [5; 5; 2]%Z.
Proof.
  destruct (createFixedGroups_tiles_surah (mkSurah 108 12 [] []) 0
              (quietWorld emptyDB))
    as (groups & w' & Hrun & Ht & _).
  - intros k. reflexivity.
  - exists groups, w'. split; [exact Hrun |]. split; [exact Ht |].
    vm_compute in Hrun. inversion Hrun. reflexivity.
Defined.

Lemma refresh_keeps_groups (wantRukus wantPages : bool) (surah : Surah)
    (w : World) :
  exists surah' w',
    refresh_boundaries wantRukus wantPages surah w = (Returned surah', w') /\
    number surah' = number surah /\
    ayah_groups (db w') = ayah_groups (db w) /\
    faults w' = faults w /\ next_uuid w' = next_uuid w.
Proof.
  unfold refresh_boundaries, try_catch, bind, fetchAyahsForSurah.
  destruct (provider w (number surah) (db w)) as [q |].
  - unfold executeQuery. cbn [faults calls db set_db count_call].
    destruct (faults w (calls w)).
    + cbn. eexists _, _. split; [reflexivity |]. repeat split.
    + cbn [quran_surahs set_quran].
      destruct (filter _ (fst q)) as [| row rest].
      * cbn. eexists _, _. split; [reflexivity |]. repeat split.
      * destruct wantRukus, wantPages, (sr_rukus row) as [rk |],
          (sr_pages row) as [pg |];
          cbn; eexists _, _; (split; [reflexivity |]); repeat split.
  - cbn. eexists _, _. split; [reflexivity |]. repeat split.
Qed.

(** X23.  Stored groups are returned as they are: when the table holds groups
    of the surah and method (for the fixed method: whose first group has
    the requested size), [createGroupsForSurah] returns exactly those, in
    the order of their first ayah, writes nothing to the table and draws
    no new identifier. *)
Theorem createGroupsForSurah_returns_stored (surah : Surah)
    (method : GroupType) (size : Z) (w : World) (first : AyahGroup)
    (rest : list AyahGroup) :
  fault_free w ->
  select_groups (number surah) method (db w) = first :: rest ->
  (method = fixed -> group_size first = size) ->
  exists w',
    createGroupsForSurah surah method size w = (Returned (first :: rest), w') /\
    ayah_groups (db w') = ayah_groups (db w) /\
    next_uuid w' = next_uuid w.
Proof.
  intros Hff Hsel Hsz. unfold createGroupsForSurah.
  set (stage1 := if (_ && _)%bool then refresh_boundaries true true surah
                 else ret surah).
  assert (H1 : exists surah' w1,
             stage1 w = (Returned surah', w1) /\
             number surah' = number surah /\
             ayah_groups (db w1) = ayah_groups (db w) /\
             faults w1 = faults w /\ next_uuid w1 = next_uuid w).
  { unfold stage1. destruct (_ && _)%bool.
    - apply refresh_keeps_groups.
    - exists surah, w. repeat split. }
  destruct H1 as (surah' & w1 & Hrun1 & Hnum & Hgr & Hflt & Hid).
  assert (Hff1 : fault_free w1) by (intros k; rewrite Hflt; apply Hff).
  rewrite (bind_returned _ Hrun1). rewrite Hnum.
  assert (Hsel1 : select_groups (number surah) method (db w1) = first :: rest)
    by (rewrite (select_groups_ext _ _ _ _ Hgr); exact Hsel).
  destruct (GroupType_eqb method fixed) eqn:Em.
  - assert (method = fixed) by (destruct method; cbn in Em; try discriminate; reflexivity).
    subst method. specialize (Hsz eq_refl). unfold group_size in Hsz.
    rewrite (bind_assoc_returned _ _ (run_executeQuery _ _ Hff1)).
    rewrite Hsel1. rewrite Hsz, Z.eqb_refl. cbn [negb]. rewrite bind_ret.
    cbn [is_empty negb]. exists (count_call w1).
    split; [reflexivity |]. split; [exact Hgr | exact Hid].
  - rewrite (bind_returned _ (run_executeQuery _ _ Hff1)).
    rewrite Hsel1. cbn [is_empty negb]. exists (count_call w1).
    split; [reflexivity |]. split; [exact Hgr | exact Hid].
Qed.

Lemma createGroupsForSurah_returns_stored_witness :
  let g := newGroup 4 (mkSurah 108 3 [1%Z] [1%Z]) 1 3 ruku in
  let w := quietWorld (mkDB [] [g] [] None [] []) in
  exists w',
    createGroupsForSurah (mkSurah 108 3 [1%Z] [1%Z]) ruku 5 w
      = (Returned [g], w') /\
    ayah_groups (db w') = ayah_groups (db w) /\
    next_uuid w' = next_uuid w.
Proof.
  intros g w.
  apply (createGroupsForSurah_returns_stored (mkSurah 108 3 [1%Z] [1%Z]) ruku
           5 w g []).
  - intros k. reflexivity.
  - reflexivity.
  - discriminate.
Defined.

Lemma filter_filter_same {A} (f : A -> bool) (l : list A) :
  filter f (filter f l) = filter f l.
Proof.
  induction l as [| x l IH]; cbn; [reflexivity |].
  destruct (f x) eqn:E; cbn; rewrite ?E, IH; reflexivity.
Qed.

Lemma regenerate_fixed_db (surah : Surah) (size : Z) (w : World) :
  fault_free w -> (1 <= size)%Z ->
  exists w',
    (executeUpdate (delete_groups (number surah) fixed) ;;;
     groups <- createFixedGroups surah size ;;
     (for_each saveGroupToDatabase (map (set_testAsGroup true) groups) ;;;
      ret (map (set_testAsGroup true) groups)))%monad w =
    (Returned (fixed_layout (Z.to_nat (ayahCount surah)) surah size 1
                            (next_uuid w)), w') /\
    ayah_groups (db w') =
      filter (fun g => negb (groups_of (number surah) fixed g))
             (ayah_groups (db w))
      ++ fixed_layout (Z.to_nat (ayahCount surah)) surah size 1 (next_uuid w).
Proof.
  intros Hff Hsize.
  rewrite (bind_returned _ (run_executeUpdate _ _ Hff)).
  set (w1 := set_db _ (count_call w)).
  assert (Hff1 : fault_free w1) by exact Hff.
  destruct (createFixedGroups_run surah size w1 Hff1)
    as (w2 & Hfix & Henv2 & Hdb2).
  assert (Hsz : Z.max 1 (if (size =? 0)%Z then 5%Z else size) = size).
  { destruct (Z.eqb_spec size 0); lia. }
  rewrite Hsz in Hfix. rewrite (bind_returned _ Hfix).
  rewrite fixed_layout_testAsGroup.
  change (next_uuid w1) with (next_uuid w).
  set (L := fixed_layout _ surah size 1 (next_uuid w)).
  assert (Hff2 : fault_free w2) by (eapply same_env_fault_free; eassumption).
  destruct (save_all_run L w2 Hff2) as (w3 & Hsave & _ & _ & Hdb3).
  rewrite (bind_returned _ Hsave). cbn [ret].
  exists w3. split; [reflexivity |].
  rewrite Hdb3. cbn [ayah_groups set_ayah_groups]. rewrite Hdb2.
  unfold w1. cbn [db set_db delete_groups ayah_groups set_ayah_groups].
  now rewrite filter_filter_same.
Qed.

(** X24.  With no stored fixed groups for the surah, or with stored ones whose
    first group has another size than the one requested, the fixed groups
    of the surah are replaced: the new groups tile the surah, they are
    appended to the table, the old fixed groups of the surah are gone and
    every other group of the table is kept. *)
Theorem createGroupsForSurah_fixed_replaces (surah : Surah) (size : Z)
    (w : World) :
  fault_free w -> (1 <= size)%Z ->
  match select_groups (number surah) fixed (db w) with
  | first :: _ => group_size first <> size
  | [] => True
  end ->
  exists groups w',
    createGroupsForSurah surah fixed size w = (Returned groups, w') /\
    tiles 1 (ayahCount surah) groups /\
    Forall (fun g => (1 <= group_size g <= size)%Z /\
                     (group_size g = size \/ endAyah g = ayahCount surah))
           groups /\
    ayah_groups (db w') =
      filter (fun g => negb (groups_of (number surah) fixed g))
             (ayah_groups (db w)) ++ groups.
Proof.
  intros Hff Hsize Hsel.
  assert (Hshape : forall id,
            tiles 1 (ayahCount surah)
                  (fixed_layout (Z.to_nat (ayahCount surah)) surah size 1 id) /\
            Forall (fun g => (1 <= group_size g <= size)%Z /\
                             (group_size g = size \/
                              endAyah g = ayahCount surah))
                   (fixed_layout (Z.to_nat (ayahCount surah)) surah size 1 id)).
  { intros id. split.
    - apply fixed_layout_tiles; [exact Hsize | lia].
    - apply fixed_layout_sizes; exact Hsize. }
  unfold createGroupsForSurah.
  cbn [GroupType_eqb orb andb]. rewrite bind_ret.
  rewrite (bind_assoc_returned _ _ (run_executeQuery _ _ Hff)).
  destruct (select_groups (number surah) fixed (db w)) as [| first rest].
  - rewrite bind_ret. cbn [is_empty negb].
    assert (Hv : fault_free (count_call w)) by exact Hff.
    destruct (regenerate_fixed_db surah size (count_call w) Hv Hsize)
      as (w' & Hrun & Hdb).
    eexists _, w'. split; [exact Hrun |].
    destruct (Hshape (next_uuid (count_call w))) as [Ht Hs].
    split; [exact Ht |]. split; [exact Hs | exact Hdb].
  - unfold group_size in Hsel. apply Z.eqb_neq in Hsel. rewrite Hsel.
    cbn [negb].
    assert (Hv : fault_free (count_call w)) by exact Hff.
    rewrite (bind_assoc_returned _ _ (run_executeUpdate _ _ Hv)).
    rewrite bind_ret. cbn [is_empty negb].
    set (w1 := set_db _ (count_call (count_call w))).
    assert (Hv1 : fault_free w1) by exact Hff.
    destruct (regenerate_fixed_db surah size w1 Hv1 Hsize) as (w' & Hrun & Hdb).
    eexists _, w'. split; [exact Hrun |].
    destruct (Hshape (next_uuid w1)) as [Ht Hs].
    split; [exact Ht |]. split; [exact Hs |].
    rewrite Hdb. unfold w1.
    cbn [db set_db delete_groups ayah_groups set_ayah_groups count_call
         next_uuid].
    now rewrite filter_filter_same.
Qed.

Lemma createGroupsForSurah_fixed_replaces_witness :
  exists groups w',
    createGroupsForSurah (mkSurah 108 12 [] []) fixed 5 (quietWorld emptyDB)
      = (Returned groups, w') /\
    tiles 1 12 groups /\
    ayah_groups (db w') = groups.
Proof.
  destruct (createGroupsForSurah_fixed_replaces (mkSurah 108 12 [] []) 5
              (quietWorld emptyDB))
    as (groups & w' & Hrun & Ht & _ & Hdb).
  - intros k. reflexivity.
  - lia.
  - exact I.
  - exists groups, w'. split; [exact Hrun |]. split; [exact Ht | exact Hdb].
Defined.

Lemma createGroupsForSurah_fixed_twice_witness :
  exists groups w1 w2,
    createGroupsForSurah (mkSurah 108 12 [] []) fixed 5 (quietWorld emptyDB)
      = (Returned groups, w1) /\
    createGroupsForSurah (mkSurah 108 12 [] []) fixed 5 w1
      = (Returned groups, w2) /\
    ayah_groups (db w2) = ayah_groups (db w1).
Proof.
  apply (createGroupsForSurah_fixed_idempotent (mkSurah 108 12 [] []) 5
           (quietWorld emptyDB)).
  - intros k. reflexivity.
  - cbn. lia.
Defined.

End FixedGroups.

(* ================================================================== *)
(** ** The groups of the ruku and page strategies *)
(* ================================================================== *)

Section BoundaryGroups.

Lemma optZ_eqb_eq (a b : option Z) : optZ_eqb a b = true <-> a = b.
Proof.
  destruct a as [x |], b as [y |]; cbn; split; intros H;
    try discriminate; try reflexivity.
  - apply Z.eqb_eq in H. now subst.
  - inversion H. apply Z.eqb_refl.
Qed.

Lemma span_get_set_same (k : option Z) (v : Z * Z)
    (m : list (option Z * (Z * Z))) :
  amap_get optZ_eqb k (amap_set optZ_eqb k v m) = Some v.
Proof.
  induction m as [| [k' v'] m IH]; cbn.
  - now rewrite (proj2 (optZ_eqb_eq k k) eq_refl).
  - destruct (optZ_eqb k' k) eqn:E; cbn.
    + now rewrite (proj2 (optZ_eqb_eq k k) eq_refl).
    + now rewrite E.
Qed.

Lemma span_get_set_other (k k0 : option Z) (v : Z * Z)
    (m : list (option Z * (Z * Z))) :
  k0 <> k ->
  amap_get optZ_eqb k0 (amap_set optZ_eqb k v m) = amap_get optZ_eqb k0 m.
Proof.
  intros Hne.
  assert (Hkk : optZ_eqb k k0 = false).
  { destruct (optZ_eqb k k0) eqn:E; [| reflexivity].
    apply optZ_eqb_eq in E. congruence. }
  induction m as [| [k' v'] m IH]; cbn.
  - now rewrite Hkk.
  - destruct (optZ_eqb k' k) eqn:E; cbn.
    + apply optZ_eqb_eq in E. subst k'. now rewrite Hkk.
    + now rewrite IH.
Qed.

Lemma span_get_In (k : option Z) (v : Z * Z) (m : list (option Z * (Z * Z))) :
  amap_get optZ_eqb k m = Some v -> In (k, v) m.
Proof.
  induction m as [| [k' v'] m IH]; cbn; [discriminate |].
  destruct (optZ_eqb k' k) eqn:E.
  - intros H. inversion H. apply optZ_eqb_eq in E. subst. now left.
  - intros H. right. now apply IH.
Qed.

Lemma span_set_In (k : option Z) (v : Z * Z) (x : option Z * (Z * Z))
    (m : list (option Z * (Z * Z))) :
  In x (amap_set optZ_eqb k v m) -> In x m \/ x = (k, v).
Proof.
  induction m as [| [k' v'] m IH]; cbn.
  - intros [H | []]. now right.
  - destruct (optZ_eqb k' k); cbn.
    + intros [H | H]; [now right | left; now right].
    + intros [H | H]; [left; now left |].
      destruct (IH H) as [H1 | H1]; [left; now right | now right].
Qed.

Lemma optZ_dec (a b : option Z) : {a = b} + {a <> b}.
Proof. decide equality. apply Z.eq_dec. Qed.

(** What the span map knows after the rows [seen]: every row seen lies in
    the span stored under its key, and every stored span runs between two
    ayah numbers that were seen. *)
Lemma span_fold_invariant (key : AyahRow -> option Z) (l : list AyahRow) :
  forall (seen : list AyahRow) (m : list (option Z * (Z * Z))),
    (forall a, In a seen ->
       exists s e, amap_get optZ_eqb (key a) m = Some (s, e) /\
                   (s <= ar_ayahNumber a <= e)%Z) ->
    (forall k s e, In (k, (s, e)) m ->
       (s <= e)%Z /\
       (exists a, In a seen /\ ar_ayahNumber a = s) /\
       (exists a, In a seen /\ ar_ayahNumber a = e)) ->
    let m' := fold_left (span_step key) l m in
    (forall a, In a (seen ++ l) ->
       exists s e, amap_get optZ_eqb (key a) m' = Some (s, e) /\
                   (s <= ar_ayahNumber a <= e)%Z) /\
    (forall k s e, In (k, (s, e)) m' ->
       (s <= e)%Z /\
       (exists a, In a (seen ++ l) /\ ar_ayahNumber a = s) /\
       (exists a, In a (seen ++ l) /\ ar_ayahNumber a = e)).
Proof.
  induction l as [| x l IH]; intros seen m Ha Hb; cbn [fold_left].
  - cbn. rewrite app_nil_r. split; assumption.
  - replace (seen ++ x :: l) with ((seen ++ [x]) ++ l)
      by (rewrite <- app_assoc; reflexivity).
    apply IH.
    + (* rows *)
      intros a Hin. unfold span_step.
      destruct (amap_get optZ_eqb (key x) m) as [[s0 e0] |] eqn:Eg.
      * destruct (optZ_dec (key a) (key x)) as [Heq | Hne].
        -- rewrite Heq, span_get_set_same.
           exists (Z.min s0 (ar_ayahNumber x)), (Z.max e0 (ar_ayahNumber x)).
           split; [reflexivity |].
           apply in_app_or in Hin. destruct Hin as [Hin | [<- | []]].
           ++ destruct (Ha a Hin) as (s & e & Hg & Hr).
              rewrite Heq, Eg in Hg. inversion Hg; subst. lia.
           ++ lia.
        -- rewrite span_get_set_other by exact Hne.
           apply in_app_or in Hin. destruct Hin as [Hin | [<- | []]].
           ++ apply Ha, Hin.
           ++ congruence.
      * destruct (optZ_dec (key a) (key x)) as [Heq | Hne].
        -- rewrite Heq, span_get_set_same.
           exists (ar_ayahNumber x), (ar_ayahNumber x).
           split; [reflexivity |].
           apply in_app_or in Hin. destruct Hin as [Hin | [<- | []]].
           ++ destruct (Ha a Hin) as (s & e & Hg & Hr).
              rewrite Heq, Eg in Hg. discriminate.
           ++ lia.
        -- rewrite span_get_set_other by exact Hne.
           apply in_app_or in Hin. destruct Hin as [Hin | [<- | []]].
           ++ apply Ha, Hin.
           ++ congruence.
    + (* spans *)
      intros k s e Hin. unfold span_step in Hin.
      assert (Hold : forall k s e, In (k, (s, e)) m ->
                (s <= e)%Z /\
                (exists a, In a (seen ++ [x]) /\ ar_ayahNumber a = s) /\
                (exists a, In a (seen ++ [x]) /\ ar_ayahNumber a = e)).
      { clear k s e Hin. intros k s e H.
        destruct (Hb k s e H) as (Hle & (a1 & Ha1 & E1) & (a2 & Ha2 & E2)).
        split; [exact Hle |]. split.
        - exists a1. split; [apply in_or_app; now left | exact E1].
        - exists a2. split; [apply in_or_app; now left | exact E2]. }
      assert (Hx : In x (seen ++ [x])) by (apply in_or_app; right; now left).
      destruct (amap_get optZ_eqb (key x) m) as [[s0 e0] |] eqn:Eg.
      * apply span_set_In in Hin. destruct Hin as [Hin | Hin];
          [now apply (Hold k s e) |].
        inversion Hin; subst.
        destruct (Hold _ _ _ (span_get_In _ _ _ Eg))
          as (Hle & (a1 & Ha1 & E1) & (a2 & Ha2 & E2)).
        split; [lia |]. split.
        -- destruct (Z.min_spec s0 (ar_ayahNumber x)) as [[_ ->] | [_ ->]].
           ++ now exists a1.
           ++ now exists x.
        -- destruct (Z.max_spec e0 (ar_ayahNumber x)) as [[_ ->] | [_ ->]].
           ++ now exists x.
           ++ now exists a2.
      * apply span_set_In in Hin. destruct Hin as [Hin | Hin];
          [now apply (Hold k s e) |].
        inversion Hin; subst.
        split; [lia |]. split; now exists x.
Qed.

Lemma label_spans_run (surah : Surah) (method : GroupType)
    (spans : list (option Z * (Z * Z))) :
  forall w : World,
  exists gs w',
    for_each (fun entry =>
                id <- uuidv4 ;;
                ret (newGroup id surah (fst (snd entry)) (snd (snd entry))
                              method))%monad spans w
      = (Returned gs, w') /\
    db w' = db w /\
    map (fun g => (startAyah g, endAyah g)) gs = map snd spans /\
    (next_uuid w <= next_uuid w')%nat /\
    Forall (fun g => groupType g = method /\
                     ag_surahNumber g = number surah /\
                     ayahIds g = [] /\ testAsGroup g = true /\
                     (next_uuid w <= ag_id g < next_uuid w')%nat) gs /\
    NoDup (map ag_id gs).
Proof.
  induction spans as [| [k [s e]] spans IH]; intros w; cbn [for_each].
  - exists [], w. split; [reflexivity |]. split; [reflexivity |].
    split; [reflexivity |]. split; [lia |]. split; constructor.
  - unfold bind at 1 2. cbn [uuidv4 ret].
    set (w1 := mkWorld (db w) (ticks w) (reads w) (S (next_uuid w))
                       (faults w) (calls w) (provider w)).
    destruct (IH w1) as (gs & w' & Hrun & Hdb & Hmap & Hle & Hall & Hnd).
    rewrite (bind_returned _ Hrun). cbn [ret fst snd].
    eexists _, w'. split; [reflexivity |].
    cbn [next_uuid] in Hle, Hall. unfold w1 in Hle, Hall.
    cbn [next_uuid] in Hle, Hall.
    split; [exact Hdb |]. split; [cbn; now rewrite Hmap |].
    split; [lia |]. split.
    + constructor.
      * cbn. repeat split; lia.
      * eapply Forall_impl; [| exact Hall]. cbn.
        intros g (H1 & H2 & H3 & H4 & H5). repeat split; try assumption; lia.
    + cbn. constructor; [| exact Hnd].
      intros Hin. apply in_map_iff in Hin. destruct Hin as (g & Hg & Hin).
      rewrite Forall_forall in Hall. specialize (Hall g Hin). lia.
Qed.

(** X25.  With boundary data on the surah object and the ayah rows of the surah
    in the store, the ruku (or page) strategy returns one group per span
    of the span map: the groups come in the order of their first ayah,
    each runs between two ayah numbers of the rows with start before end,
    every ayah row lies inside one of the groups, the identifiers are
    distinct, and nothing is written. *)
Theorem createBoundaryGroups_covers_rows (method : GroupType) (surah : Surah)
    (w : World) :
  fault_free w ->
  boundaries_of method surah <> [] ->
  filter (fun a => (ar_surahNumber a =? number surah)%Z) (quran_ayahs (db w))
    <> [] ->
  exists groups w',
    createBoundaryGroups method surah w = (Returned groups, w') /\
    db w' = db w /\
    StronglySorted (fun a b => (startAyah a <= startAyah b)%Z) groups /\
    Forall (fun g =>
              (startAyah g <= endAyah g)%Z /\
              groupType g = method /\ ag_surahNumber g = number surah /\
              (exists a, In a (quran_ayahs (db w)) /\
                         ar_surahNumber a = number surah /\
                         ar_ayahNumber a = startAyah g) /\
              (exists a, In a (quran_ayahs (db w)) /\
                         ar_surahNumber a = number surah /\
                         ar_ayahNumber a = endAyah g)) groups /\
    (forall a, In a (quran_ayahs (db w)) ->
               ar_surahNumber a = number surah ->
               exists g, In g groups /\
                         (startAyah g <= ar_ayahNumber a <= endAyah g)%Z) /\
    NoDup (map ag_id groups).
Proof.
  intros Hff Hb Hrows.
  set (rows := filter (fun a => (ar_surahNumber a =? number surah)%Z)
                      (quran_ayahs (db w))) in *.
  set (sorted := sort_by (fun a b => (ar_ayahNumber a <=? ar_ayahNumber b)%Z)
                         rows).
  assert (Hperm : Permutation sorted rows) by apply sort_by_perm.
  assert (Hrow_in : forall a, In a sorted <->
            In a (quran_ayahs (db w)) /\ ar_surahNumber a = number surah).
  { intros a. split.
    - intros H. apply (Permutation_in _ Hperm) in H.
      apply filter_In in H. destruct H as [H1 H2].
      apply Z.eqb_eq in H2. now split.
    - intros [H1 H2]. apply (Permutation_in _ (Permutation_sym Hperm)).
      apply filter_In. split; [exact H1 | now apply Z.eqb_eq]. }
  assert (Hne : is_empty sorted = false).
  { destruct sorted as [| x l] eqn:Es; [| reflexivity].
    apply Permutation_nil in Hperm. now apply Hrows in Hperm. }
  unfold createBoundaryGroups. cbv zeta.
  fold (boundaries_of method surah).
  destruct (boundaries_of method surah) as [| b bs] eqn:Eb; [contradiction |].
  cbn [is_empty]. rewrite bind_ret.
  rewrite (bind_returned _ (run_executeQuery _ _ Hff)).
  fold rows. fold sorted. rewrite Hne.
  set (key := match method with page => ar_page | _ => ar_ruku end).
  set (spans := fold_left (span_step key) sorted []).
  destruct (label_spans_run surah method spans (count_call w))
    as (gs & w' & Hrun & Hdb & Hmap & _ & Hall & Hnd).
  rewrite (bind_returned _ Hrun). cbn [ret].
  destruct (span_fold_invariant key sorted [] [])
    as [Hcover Hspan].
  { intros a []. }
  { intros k s e []. }
  cbn [app] in Hcover, Hspan. fold spans in Hcover, Hspan.
  assert (Hsp : Permutation (sort_by start_leb gs) gs) by apply sort_by_perm.
  exists (sort_by start_leb gs), w'. split; [reflexivity |].
  split; [exact Hdb |]. split.
  { apply sort_by_sorted.
    - intros x y z. lia.
    - intros x y H. unfold start_leb in H. now apply Z.leb_le in H.
    - intros x y H. unfold start_leb in H. apply Z.leb_gt in H. lia. }
  split.
  { eapply Permutation_Forall; [apply Permutation_sym; exact Hsp |].
    rewrite Forall_forall in Hall. apply Forall_forall. intros g Hg.
    destruct (Hall g Hg) as (Ht & Hn & _).
    assert (Hin : In (startAyah g, endAyah g) (map snd spans)).
    { rewrite <- Hmap. apply in_map_iff. now exists g. }
    apply in_map_iff in Hin. destruct Hin as ([k [s e]] & Heq & Hin).
    cbn in Heq. inversion Heq; subst s e.
    destruct (Hspan _ _ _ Hin) as (Hle & (a1 & Ha1 & E1) & (a2 & Ha2 & E2)).
    apply Hrow_in in Ha1. apply Hrow_in in Ha2.
    split; [exact Hle |]. split; [exact Ht |]. split; [exact Hn |].
    split; [exists a1 | exists a2]; tauto. }
  split.
  { intros a Ha Hs.
    destruct (Hcover a (proj2 (Hrow_in a) (conj Ha Hs)))
      as (s & e & Hget & Hrange).
    apply span_get_In in Hget.
    assert (Hin : In (s, e) (map (fun g => (startAyah g, endAyah g)) gs)).
    { rewrite Hmap. apply in_map_iff. now exists (key a, (s, e)). }
    apply in_map_iff in Hin. destruct Hin as (g & Heq & Hg).
    inversion Heq; subst s e.
    exists g. split; [| exact Hrange].
    apply (Permutation_in _ (Permutation_sym Hsp)). exact Hg. }
  eapply Permutation_NoDup; [| exact Hnd].
  apply Permutation_map. apply Permutation_sym. exact Hsp.
Qed.

Lemma createBoundaryGroups_covers_rows_witness :
  let surah := mkSurah 108 3 [1; 3]%Z [1%Z] in
  let w := quietWorld
             (mkDB [] [] [] None []
                [mkAyahRow 108 1 (Some 1%Z) (Some 1%Z);
                 mkAyahRow 108 2 (Some 1%Z) (Some 1%Z);
                 mkAyahRow 108 3 (Some 2%Z) (Some 1%Z)]) in
  exists groups w',
    createBoundaryGroups ruku surah w = (Returned groups, w') /\
    db w' = db w /\
    map (fun g => (startAyah g, endAyah g)) groups = [(1, 2); (3, 3)]%Z.
Proof.
  intros surah w.
  destruct (createBoundaryGroups_covers_rows ruku surah w)
    as (groups & w' & Hrun & Hdb & _).
  - intros k. reflexivity.
  - discriminate.
  - discriminate.
  - exists groups, w'. split; [exact Hrun |]. split; [exact Hdb |].
    vm_compute in Hrun. inversion Hrun. reflexivity.
Defined.

End BoundaryGroups.

(* ================================================================== *)
(** ** Committing a group to learning *)
(* ================================================================== *)

Section LearningQueue.

Lemma existsb_none {A} (f : A -> bool) (l : list A) :
  (forall x, In x l -> f x = false) -> existsb f l = false.
Proof.
  induction l as [| x l IH]; intros H; cbn; [reflexivity |].
  rewrite (H x (or_introl eq_refl)). apply IH.
  intros y Hy. apply H. now right.
Qed.

Lemma insertProgress_run (r : AyahProgress) (w : World) :
  fault_free w ->
  (forall x, In x (ayah_progress (db w)) -> progress_conflict r x = false) ->
  insertProgress r w
    = (Returned tt,
       set_db (set_ayah_progress (ayah_progress (db w) ++ [r]) (db w))
              (count_call w)).
Proof.
  intros Hff Hfree. unfold insertProgress.
  rewrite Hff, existsb_none by exact Hfree. reflexivity.
Qed.

Lemma seq_offsets (a : Z) (n : nat) :
  map (fun i => (a + Z.of_nat i)%Z) (seq 1 n)
  = map (fun i => (a + 1 + Z.of_nat i)%Z) (seq 0 n).
Proof.
  rewrite <- seq_shift, map_map. apply map_ext. intros i. lia.
Qed.

Lemma queue_loop_run (surahNumber : Z) (group : AyahGroup) (count : nat) :
  forall (ayahNumber position : Z) (w : World),
    fault_free w ->
    (forall x, In x (ayah_progress (db w)) ->
       (ap_id x < next_uuid w)%nat /\
       (ap_surahNumber x = surahNumber ->
        ~ (ayahNumber <= ap_ayahNumber x < ayahNumber + Z.of_nat count)%Z)) ->
    exists added w',
      queue_loop count surahNumber group ayahNumber position w
        = (Returned (map ap_id added), w') /\
      fault_free w' /\
      ayah_progress (db w') = ayah_progress (db w) ++ added /\
      ayah_groups (db w') = ayah_groups (db w) /\
      map ap_ayahNumber added
        = map (fun i => (ayahNumber + Z.of_nat i)%Z) (seq 0 count) /\
      map ap_groupPosition added
        = map (fun i => (position + Z.of_nat i)%Z) (seq 0 count) /\
      Forall (fun r => ap_surahNumber r = surahNumber /\
                       ap_groupId r = ag_id group /\
                       ap_state r = new /\ ap_nextReview r = None /\
                       ap_history r = [] /\
                       ap_testWithGroup r = testAsGroup group) added.
Proof.
  induction count as [| count IH]; intros ayahNumber position w Hff Hfresh.
  - exists [], w. cbn. rewrite app_nil_r. repeat split; [exact Hff | constructor].
  - cbn [queue_loop]. unfold bind at 1 2. cbn [uuidv4 dateNow].
    set (w0 := mkWorld (db w) (ticks w) (S (reads w)) (S (next_uuid w))
                       (faults w) (calls w) (provider w)).
    set (r0 := {| ap_id := next_uuid w; ap_surahNumber := surahNumber;
                  ap_ayahNumber := ayahNumber; ap_groupId := ag_id group;
                  ap_recallScore := Fin 0; ap_lastReviewed := None;
                  ap_nextReview := None; ap_easeFactor := Fin (25 / 10);
                  ap_stability := Fin 0; ap_difficulty := Fin 0;
                  ap_lapses := Fin 0; ap_state := new; ap_interval := Fin 0;
                  ap_createdAt := mkDate (Fin (IZR (ticks w (reads w))));
                  ap_history := [];
                  ap_testWithGroup := testAsGroup group;
                  ap_groupPosition := position |}).
    assert (Hff0 : fault_free w0) by exact Hff.
    assert (Hins : insertProgress r0 w0
                   = (Returned tt,
                      set_db (set_ayah_progress
                                (ayah_progress (db w0) ++ [r0]) (db w0))
                             (count_call w0))).
    { apply insertProgress_run; [exact Hff0 |].
      intros x Hx. destruct (Hfresh x Hx) as [Hid Hay].
      unfold progress_conflict. cbn [ap_id ap_surahNumber ap_ayahNumber r0].
      destruct (Nat.eqb_spec (ap_id x) (next_uuid w)); [lia |].
      destruct (Z.eqb_spec (ap_surahNumber x) surahNumber) as [Hs |];
        [| reflexivity].
      destruct (Z.eqb_spec (ap_ayahNumber x) ayahNumber) as [Ha |];
        [| reflexivity].
      exfalso. apply (Hay Hs). lia. }
    rewrite (bind_returned _ Hins).
    set (w1 := set_db _ (count_call w0)).
    destruct (IH (ayahNumber + 1)%Z (position + 1)%Z w1)
      as (added & w' & Hrun & Hff' & Hrows & Hgroups & Hnum & Hpos & Hall).
    { exact Hff. }
    { intros x Hx. unfold w1 in Hx.
      cbn [db set_db ayah_progress set_ayah_progress count_call] in Hx.
      unfold w1. cbn [next_uuid set_db count_call w0].
      apply in_app_or in Hx. destruct Hx as [Hx | [<- | []]].
      - destruct (Hfresh x Hx) as [Hid Hay]. split; [lia |].
        intros Hs Hr. apply (Hay Hs). lia.
      - cbn [ap_id ap_surahNumber ap_ayahNumber r0]. split; [lia |].
        intros _ Hr. lia. }
    rewrite (bind_returned _ Hrun). cbn [ret].
    exists (r0 :: added), w'. split; [reflexivity |].
    split; [exact Hff' |]. split.
    { rewrite Hrows. unfold w1.
      cbn [db set_db ayah_progress set_ayah_progress count_call w0].
      now rewrite <- app_assoc. }
    split.
    { rewrite Hgroups. reflexivity. }
    split.
    { cbn [map seq]. rewrite Hnum, seq_offsets. f_equal.
      cbn [ap_ayahNumber r0]. lia. }
    split.
    { cbn [map seq]. rewrite Hpos, seq_offsets. f_equal.
      cbn [ap_groupPosition r0]. lia. }
    constructor; [| exact Hall]. cbn. repeat split.
Qed.

(** X26.  Committing one group to learning, on a store that works and holds no
    record yet for the ayahs of the group: one record per ayah from
    [startAyah] to [endAyah] is appended, in that order, with positions
    1, 2, ...; each is new, belongs to the group and is due at once; the
    stored group is marked as learning and lists the identifiers of the
    new records. *)
Theorem addToLearningQueue_adds_group (surahNumber : Z)
    (groups : list AyahGroup) (groupId : uuid) (group : AyahGroup)
    (w : World) :
  fault_free w ->
  find (fun g => (ag_id g =? groupId)%nat) groups = Some group ->
  (forall x, In x (ayah_progress (db w)) ->
     (ap_id x < next_uuid w)%nat /\
     (ap_surahNumber x = surahNumber ->
      ~ (startAyah group <= ap_ayahNumber x <= endAyah group)%Z)) ->
  exists added w',
    addToLearningQueue surahNumber groups [groupId] w
      = (Returned AddedToQueue, w') /\
    ayah_progress (db w') = ayah_progress (db w) ++ added /\
    map ap_ayahNumber added
      = map (fun i => (startAyah group + Z.of_nat i)%Z)
            (seq 0 (Z.to_nat (endAyah group - startAyah group + 1))) /\
    map ap_groupPosition added
      = map (fun i => (1 + Z.of_nat i)%Z)
            (seq 0 (Z.to_nat (endAyah group - startAyah group + 1))) /\
    Forall (fun r => ap_surahNumber r = surahNumber /\
                     ap_groupId r = ag_id group /\
                     ap_state r = new /\ ap_history r = [] /\
                     ap_testWithGroup r = testAsGroup group /\
                     forall now, due_at now r = true) added /\
    ayah_groups (db w')
      = ayah_groups (mark_learning (ag_id group) (map ap_id added) (db w)).
Proof.
  intros Hff Hfind Hfresh.
  unfold addToLearningQueue. cbn [is_empty for_each]. unfold try_catch.
  rewrite Hfind.
  destruct (queue_loop_run surahNumber group
              (Z.to_nat (endAyah group - startAyah group + 1))
              (startAyah group) 1 w Hff)
    as (added & w1 & Hrun & Hff1 & Hrows & Hgroups & Hnum & Hpos & Hall).
  { intros x Hx. destruct (Hfresh x Hx) as [Hid Hay]. split; [exact Hid |].
    intros Hs Hr. apply (Hay Hs). lia. }
  unfold bind at 1 2 3. rewrite Hrun.
  rewrite (run_executeUpdate _ _ Hff1). cbn [ret].
  eexists added, _. split; [reflexivity |].
  cbn [db set_db count_call].
  split; [unfold mark_learning; cbn; exact Hrows |].
  split; [exact Hnum |]. split; [exact Hpos |].
  split.
  - eapply Forall_impl; [| exact Hall]. cbn.
    intros r (H1 & H2 & H3 & H4 & H5 & H6). repeat split; try assumption.
    intros now. now apply due_at_null.
  - unfold mark_learning. cbn. now rewrite Hgroups.
Qed.

Lemma addToLearningQueue_adds_group_witness :
  let g := newGroup 4 (mkSurah 108 3 [] []) 1 3 fixed in
  let w := quietWorld (mkDB [] [g] [] None [] []) in
  exists added w',
    addToLearningQueue 108 [g] [4%nat] w = (Returned AddedToQueue, w') /\
    ayah_progress (db w') = added /\
    map ap_ayahNumber added = [1; 2; 3]%Z /\
    map ap_groupPosition added = [1; 2; 3]%Z.
Proof.
  intros g w.
  destruct (addToLearningQueue_adds_group 108 [g] 4 g w)
    as (added & w' & Hrun & Hrows & Hnum & Hpos & _).
  - intros k. reflexivity.
  - reflexivity.
  - intros x [].
  - exists added, w'. split; [exact Hrun |]. split; [exact Hrows |].
    split; [exact Hnum | exact Hpos].
Defined.

(** X27.  An ayah that already has a record cannot be queued again: when the
    first ayah of the selected group is already in the store, the insert
    is refused by the table's uniqueness constraint, the alert is the
    error alert, and the store is left as it was. *)
Theorem addToLearningQueue_duplicate_refused (surahNumber : Z)
    (groups : list AyahGroup) (groupId : uuid) (others : list uuid)
    (group : AyahGroup) (w : World) (x : AyahProgress) :
  find (fun g => (ag_id g =? groupId)%nat) groups = Some group ->
  (startAyah group <= endAyah group)%Z ->
  In x (ayah_progress (db w)) ->
  ap_surahNumber x = surahNumber -> ap_ayahNumber x = startAyah group ->
  exists w',
    addToLearningQueue surahNumber groups (groupId :: others) w
      = (Returned QueueError, w') /\
    db w' = db w.
Proof.
  intros Hfind Hle Hin Hs Ha.
  unfold addToLearningQueue. cbn [is_empty for_each]. unfold try_catch.
  rewrite Hfind.
  destruct (Z.to_nat (endAyah group - startAyah group + 1)) as [| n] eqn:En;
    [lia |].
  cbn [queue_loop]. unfold bind, uuidv4, dateNow, insertProgress.
  cbn [faults calls db ticks reads next_uuid].
  destruct (faults w (calls w)).
  - cbn. eexists. split; reflexivity.
  - assert (Hex : existsb
                    (progress_conflict
                       {| ap_id := next_uuid w; ap_surahNumber := surahNumber;
                          ap_ayahNumber := startAyah group;
                          ap_groupId := ag_id group;
                          ap_recallScore := Fin 0; ap_lastReviewed := None;
                          ap_nextReview := None;
                          ap_easeFactor := Fin (25 / 10);
                          ap_stability := Fin 0; ap_difficulty := Fin 0;
                          ap_lapses := Fin 0; ap_state := new;
                          ap_interval := Fin 0;
                          ap_createdAt :=
                            mkDate (Fin (IZR (ticks w (reads w))));
                          ap_history := [];
                          ap_testWithGroup := testAsGroup group;
                          ap_groupPosition := 1 |})
                    (ayah_progress (db w)) = true).
    { apply existsb_exists. exists x. split; [exact Hin |].
      unfold progress_conflict. cbn [ap_id ap_surahNumber ap_ayahNumber].
      rewrite Hs, Ha, !Z.eqb_refl. apply orb_true_r. }
    rewrite Hex. cbn. eexists. split; reflexivity.
Qed.

Lemma addToLearningQueue_duplicate_refused_witness :
  let g := newGroup 7 (mkSurah 108 3 [] []) 1 3 fixed in
  exists w',
    addToLearningQueue 108 [g] [7%nat] sampleWorld
      = (Returned QueueError, w') /\
    db w' = db sampleWorld.
Proof.
  intros g.
  apply (addToLearningQueue_duplicate_refused 108 [g] 7 [] g sampleWorld
           (sampleProgress 1 7 1 true)).
  - reflexivity.
  - cbn. lia.
  - left. reflexivity.
  - reflexivity.
  - reflexivity.
Defined.

End LearningQueue.

(* ================================================================== *)
(** ** Default boundaries *)
(* ================================================================== *)

Section DefaultBoundaries.

Lemma last_cons_default {A} (l : list A) :
  forall a d : A, last (a :: l) d = last l a.
Proof.
  induction l as [| b l IH]; intros a d; [reflexivity |].
  change (last (a :: b :: l) d) with (last (b :: l) d).
  rewrite (IH b d), (IH b a). reflexivity.
Qed.

(** The loop pushes the numbers [i], [i + step], ... up to [ayahCount];
    the fuel given is enough when the last number pushed is less than a
    step away from [ayahCount]. *)
Lemma push_every_shape (step ayahCount : Z) :
  (1 <= step)%Z ->
  forall (fuel : nat) (i : Z),
    (Z.to_nat (ayahCount - i + 1) <= fuel)%nat ->
    StronglySorted Z.lt (push_every fuel i step ayahCount) /\
    Forall (fun b => (i <= b <= ayahCount)%Z)
           (push_every fuel i step ayahCount) /\
    (ayahCount < last (push_every fuel i step ayahCount) (i - step) + step)%Z.
Proof.
  intros Hstep. induction fuel as [| fuel IH]; intros i Hf.
  - cbn. split; [constructor |]. split; [constructor | lia].
  - cbn [push_every].
    destruct (Z.leb_spec i ayahCount) as [Hle | Hgt].
    + destruct (IH (i + step)%Z) as (Hs & Hb & Hl); [lia |].
      split; [| split].
      * constructor; [exact Hs |].
        eapply Forall_impl; [| exact Hb]. cbn. intros b Hb'. lia.
      * constructor; [lia |].
        eapply Forall_impl; [| exact Hb]. cbn. intros b Hb'. lia.
      * rewrite last_cons_default.
        replace (i + step - step)%Z with i in Hl by lia. exact Hl.
    + cbn. split; [constructor |]. split; [constructor | lia].
Qed.

Lemma default_list_shape (step ayahCount : Z) :
  (1 <= step <= 15)%Z -> (step < ayahCount)%Z ->
  let l := 1%Z :: push_every (Z.to_nat ayahCount) (step + 1) step ayahCount in
  StronglySorted Z.lt l /\
  Forall (fun b => (1 <= b <= Z.max 1 ayahCount)%Z) l /\
  (ayahCount < last l 1 + 15)%Z.
Proof.
  intros Hstep Hcount l.
  destruct (push_every_shape step ayahCount (proj1 Hstep)
              (Z.to_nat ayahCount) (step + 1)%Z) as (Hs & Hb & Hl); [lia |].
  unfold l. split; [| split].
  - constructor; [exact Hs |].
    eapply Forall_impl; [| exact Hb]. cbn. intros b Hb'. lia.
  - constructor; [lia |].
    eapply Forall_impl; [| exact Hb]. cbn. intros b Hb'. lia.
  - rewrite last_cons_default.
    replace (step + 1 - step)%Z with 1%Z in Hl by lia. lia.
Qed.

(** X28.  The default ruku and page boundaries of a surah of [ayahCount] ayahs:
    the list starts with 1, is strictly increasing, stays within the
    surah, and leaves less than 15 ayahs after its last boundary. *)
Theorem default_boundaries_shape (ayahCount : Z) :
  let good l :=
    (exists rest, l = 1%Z :: rest) /\
    StronglySorted Z.lt l /\
    Forall (fun b => (1 <= b <= Z.max 1 ayahCount)%Z) l /\
    (ayahCount < last l 1 + 15)%Z in
  good (generateDefaultRukus ayahCount) /\
  good (generateDefaultPages ayahCount).
Proof.
  assert (Hone : forall n, (n <= 15)%Z ->
            StronglySorted Z.lt [1%Z] /\
            Forall (fun b => (1 <= b <= Z.max 1 n)%Z) [1%Z] /\
            (n < last [1%Z] 1 + 15)%Z).
  { intros n Hn. split; [repeat constructor |].
    split; [repeat constructor; lia | cbn; lia]. }
  cbv zeta. split.
  - unfold generateDefaultRukus.
    destruct (Z.leb_spec ayahCount 10) as [H10 | H10].
    + split; [now exists [] | apply Hone; lia].
    + destruct (Z.leb_spec ayahCount 50) as [H50 | H50].
      * split; [eexists; reflexivity |].
        apply (default_list_shape 10 ayahCount); lia.
      * split; [eexists; reflexivity |].
        apply (default_list_shape 15 ayahCount); lia.
  - unfold generateDefaultPages.
    destruct (Z.leb_spec ayahCount 15) as [H15 | H15].
    + split; [now exists [] | apply Hone; lia].
    + split; [eexists; reflexivity |].
      apply (default_list_shape 15 ayahCount); lia.
Qed.

Lemma generateDefaultRukus_nonempty (n : Z) : generateDefaultRukus n <> [].
Proof.
  unfold generateDefaultRukus.
  destruct (n <=? 10)%Z; [discriminate |].
  destruct (n <=? 50)%Z; discriminate.
Qed.

Lemma generateDefaultPages_nonempty (n : Z) : generateDefaultPages n <> [].
Proof.
  unfold generateDefaultPages. destruct (n <=? 15)%Z; discriminate.
Qed.

Lemma is_empty_false {A} (l : list A) : is_empty l = false -> l <> [].
Proof. destruct l; [discriminate | discriminate]. Qed.

Lemma repaired_row_complete (r : SurahRow) : complete_row (repaired_row r).
Proof.
  unfold repaired_row, parsed_boundaries, complete_row.
  destruct (sr_rukus r) as [rk |] eqn:Er.
  - destruct (sr_pages r) as [pg |] eqn:Ep.
    + destruct (is_empty rk) eqn:E1.
      * cbn [orb sr_rukus sr_pages]. eexists _, _.
        split; [reflexivity |]. split; [reflexivity |].
        split; [apply generateDefaultRukus_nonempty |].
        destruct (is_empty pg) eqn:E2;
          [apply generateDefaultPages_nonempty | now apply is_empty_false].
      * destruct (is_empty pg) eqn:E2; cbn [orb sr_rukus sr_pages].
        -- eexists _, _. split; [reflexivity |]. split; [reflexivity |].
           split; [now apply is_empty_false |
                   apply generateDefaultPages_nonempty].
        -- exists rk, pg. repeat split; try assumption;
             now apply is_empty_false.
    + cbn [is_empty orb]. rewrite orb_true_r. cbn [sr_rukus sr_pages].
      eexists _, _. split; [reflexivity |]. split; [reflexivity |].
      split; [| apply generateDefaultPages_nonempty].
      destruct (is_empty rk) eqn:E1;
        [apply generateDefaultRukus_nonempty | now apply is_empty_false].
  - cbn [is_empty orb sr_rukus sr_pages]. eexists _, _.
    split; [reflexivity |]. split; [reflexivity |].
    split; [apply generateDefaultRukus_nonempty |
            apply generateDefaultPages_nonempty].
Qed.

Lemma repaired_row_identity (r : SurahRow) :
  sr_number (repaired_row r) = sr_number r /\
  sr_ayahCount (repaired_row r) = sr_ayahCount r.
Proof.
  unfold repaired_row. destruct (parsed_boundaries r) as [rk pg].
  destruct (is_empty rk || is_empty pg); split; reflexivity.
Qed.

Lemma repaired_row_complete_fixed (r : SurahRow) :
  complete_row r -> repaired_row r = r.
Proof.
  intros (rk & pg & Hr & Hp & Hrk & Hpg).
  unfold repaired_row, parsed_boundaries. rewrite Hr, Hp.
  destruct rk; [contradiction |]. destruct pg; [contradiction |].
  reflexivity.
Qed.

Lemma set_boundaries_elsewhere (n : Z) (rk pg : list Z) (l : list SurahRow) :
  (forall x, In x l -> sr_number x <> n) ->
  map (fun r => if (sr_number r =? n)%Z
                then mkSurahRow (sr_number r) (sr_ayahCount r)
                                (Some rk) (Some pg)
                else r) l = l.
Proof.
  induction l as [| x l IH]; intros H; cbn; [reflexivity |].
  destruct (Z.eqb_spec (sr_number x) n) as [E |].
  - exfalso. apply (H x); [now left | exact E].
  - rewrite IH; [reflexivity |]. intros y Hy. apply H. now right.
Qed.

Lemma check_all_run (l : list SurahRow) :
  forall (done : list SurahRow) (w : World),
    fault_free w ->
    quran_surahs (db w) = done ++ l ->
    (forall r x, In r l -> In x done -> sr_number x <> sr_number r) ->
    NoDup (map sr_number l) ->
    exists w',
      for_each check_surah l w = (Returned (map (fun _ => tt) l), w') /\
      fault_free w' /\
      quran_surahs (db w') = done ++ map repaired_row l /\
      (ayah_progress (db w'), ayah_groups (db w'), session_statistics (db w'),
       settings (db w'), quran_ayahs (db w'))
      = (ayah_progress (db w), ayah_groups (db w), session_statistics (db w),
         settings (db w), quran_ayahs (db w)).
Proof.
  induction l as [| s l IH]; intros done w Hff Hrows Hsep Hnd.
  - exists w. cbn. rewrite app_nil_r in *. repeat split; assumption.
  - cbn [for_each map].
    inversion Hnd as [| ? ? Hnotin Hnd']; subst.
    assert (Hl : forall x, In x l -> sr_number x <> sr_number s).
    { intros x Hx E. apply Hnotin. rewrite <- E. now apply in_map. }
    assert (Hd : forall x, In x done -> sr_number x <> sr_number s).
    { intros x Hx. apply (Hsep s x); [now left | exact Hx]. }
    assert (Hstep : exists w1,
              check_surah s w = (Returned tt, w1) /\ fault_free w1 /\
              quran_surahs (db w1) = (done ++ [repaired_row s]) ++ l /\
              (ayah_progress (db w1), ayah_groups (db w1),
               session_statistics (db w1), settings (db w1),
               quran_ayahs (db w1))
              = (ayah_progress (db w), ayah_groups (db w),
                 session_statistics (db w), settings (db w),
                 quran_ayahs (db w))).
    { unfold check_surah, repaired_row.
      destruct (parsed_boundaries s) as [rk pg].
      destruct (is_empty rk || is_empty pg).
      - rewrite (run_executeUpdate _ _ Hff). eexists.
        split; [reflexivity |]. split; [exact Hff |].
        split; [| reflexivity].
        cbn [db set_db quran_surahs set_surah_boundaries count_call].
        rewrite Hrows, map_app. cbn [map]. rewrite Z.eqb_refl.
        rewrite !set_boundaries_elsewhere by assumption.
        now rewrite <- app_assoc.
      - exists w. split; [reflexivity |]. split; [exact Hff |].
        split; [| reflexivity]. rewrite Hrows. now rewrite <- app_assoc. }
    destruct Hstep as (w1 & Hrun1 & Hff1 & Hrows1 & Hrest1).
    rewrite (bind_returned _ Hrun1).
    destruct (IH (done ++ [repaired_row s]) w1 Hff1 Hrows1)
      as (w' & Hrun & Hff' & Hrows' & Hrest'); [| exact Hnd' |].
    { intros r x Hr Hx. apply in_app_or in Hx.
      destruct Hx as [Hx | [<- | []]].
      - apply (Hsep r x); [now right | exact Hx].
      - rewrite (proj1 (repaired_row_identity s)).
        intros E. apply (Hl r Hr). now symmetry. }
    rewrite (bind_returned _ Hrun). cbn [ret].
    exists w'. split; [reflexivity |]. split; [exact Hff' |].
    split; [rewrite Hrows'; now rewrite <- app_assoc |].
    rewrite Hrest'. exact Hrest1.
Qed.

(** X29.  After the check of the surah table, on a working store whose surah
    rows have distinct numbers, every surah row has ruku and page
    boundaries; the rows keep their number and ayah count, a row that had
    both boundaries is left as it was, and no other table changes. *)
Theorem checkAndUpdateSurahData_completes_rows (w : World) :
  fault_free w ->
  NoDup (map sr_number (quran_surahs (db w))) ->
  exists w',
    checkAndUpdateSurahData w = (Returned tt, w') /\
    Forall complete_row (quran_surahs (db w')) /\
    map (fun r => (sr_number r, sr_ayahCount r)) (quran_surahs (db w'))
      = map (fun r => (sr_number r, sr_ayahCount r)) (quran_surahs (db w)) /\
    (forall r, In r (quran_surahs (db w)) -> complete_row r ->
               In r (quran_surahs (db w'))) /\
    (ayah_progress (db w'), ayah_groups (db w'), session_statistics (db w'),
     settings (db w'), quran_ayahs (db w'))
    = (ayah_progress (db w), ayah_groups (db w), session_statistics (db w),
       settings (db w), quran_ayahs (db w)).
Proof.
  intros Hff Hnd. unfold checkAndUpdateSurahData, try_catch.
  rewrite (bind_returned _ (run_executeQuery _ _ Hff)).
  destruct (check_all_run (quran_surahs (db w)) [] (count_call w))
    as (w' & Hrun & _ & Hrows & Hrest); try assumption.
  { reflexivity. }
  { intros r x _ []. }
  rewrite (bind_returned _ Hrun). cbn [ret].
  exists w'. split; [reflexivity |].
  cbn [app] in Hrows. rewrite Hrows.
  split; [| split; [| split]].
  - apply Forall_forall. intros r Hr. apply in_map_iff in Hr.
    destruct Hr as (r0 & <- & _). apply repaired_row_complete.
  - rewrite map_map. apply map_ext. intros r.
    destruct (repaired_row_identity r) as [-> ->]. reflexivity.
  - intros r Hr Hc. apply in_map_iff. exists r.
    split; [now apply repaired_row_complete_fixed | exact Hr].
  - exact Hrest.
Qed.

Lemma checkAndUpdateSurahData_completes_rows_witness :
  let w := quietWorld
             (mkDB [] [] [] None
                [mkSurahRow 1 7 (Some [1%Z]) (Some [1%Z]);
                 mkSurahRow 2 286 None (Some []);
                 mkSurahRow 108 3 (Some [1%Z]) None] []) in
  exists w',
    checkAndUpdateSurahData w = (Returned tt, w') /\
    Forall complete_row (quran_surahs (db w')) /\
    In (mkSurahRow 1 7 (Some [1%Z]) (Some [1%Z])) (quran_surahs (db w')).
Proof.
  intros w.
  destruct (checkAndUpdateSurahData_completes_rows w)
    as (w' & Hrun & Hall & _ & Hkeep & _).
  - intros k. reflexivity.
  - cbn. repeat constructor; cbn; intuition lia.
  - exists w'. split; [exact Hrun |]. split; [exact Hall |].
    apply Hkeep; [now left |].
    exists [1%Z], [1%Z]. repeat split; discriminate.
Defined.

End DefaultBoundaries.

(* ================================================================== *)
(** ** Moving through the units of a session *)
(* ================================================================== *)

Section Navigation.

Lemma findIndex_some {A} (f : A -> bool) (l : list A) (i : nat) :
  findIndex f l = Some i ->
  (i < List.length l)%nat /\
  (exists a, nth_error l i = Some a /\ f a = true) /\
  (forall j b, (j < i)%nat -> nth_error l j = Some b -> f b = false).
Proof.
  revert i. induction l as [| x l IH]; intros i H; cbn in H; [discriminate |].
  destruct (f x) eqn:Ef.
  - inversion H; subst. cbn. split; [lia |]. split.
    + now exists x.
    + intros j b Hj. lia.
  - destruct (findIndex f l) as [k |] eqn:Ek; [| discriminate].
    cbn in H. inversion H; subst.
    destruct (IH k eq_refl) as (Hlt & Hex & Hbefore).
    cbn [List.length nth_error]. split; [lia |]. split; [exact Hex |].
    intros j b Hj Hnth. destruct j as [| j]; cbn in Hnth.
    + inversion Hnth; subst. exact Ef.
    + apply (Hbefore j b); [lia | exact Hnth].
Qed.

Lemma findIndex_none {A} (f : A -> bool) (l : list A) :
  findIndex f l = None -> forall a, In a l -> f a = false.
Proof.
  induction l as [| x l IH]; intros H a Ha; [destruct Ha |].
  cbn in H. destruct (f x) eqn:Ef; [discriminate |].
  destruct (findIndex f l); [discriminate |].
  destruct Ha as [<- | Ha]; [exact Ef | now apply IH].
Qed.

Lemma unit_test (g : uuid) (a : AyahProgress) :
  (ap_testWithGroup a && (ap_groupId a =? g)%nat)
  || (negb (ap_testWithGroup a) && (ap_id a =? g)%nat)
  = (unit_key a =? g)%nat.
Proof.
  unfold unit_key. destruct (ap_testWithGroup a); cbn.
  - apply orb_false_r.
  - reflexivity.
Qed.

Lemma unique_loop_origin (l : list AyahProgress) :
  forall (acc proc : list uuid) (g : uuid),
    In g (unique_loop l acc proc) ->
    In g acc \/ exists a, In a l /\ unit_key a = g.
Proof.
  induction l as [| x l IH]; intros acc proc g H; cbn in H; [now left |].
  destruct (existsb (Nat.eqb (unit_key x)) proc).
  - destruct (IH _ _ _ H) as [Hacc | (a & Ha & Hk)]; [now left |].
    right. exists a. split; [now right | exact Hk].
  - destruct (IH _ _ _ H) as [Hacc | (a & Ha & Hk)].
    + apply in_app_or in Hacc. destruct Hacc as [Hacc | [<- | []]];
        [now left |].
      right. exists x. split; [now left | reflexivity].
    + right. exists a. split; [now right | exact Hk].
Qed.

(** X30.  Moving on from an item that is tested with its group lands on the
    first item of the next unit: with the units computed from the session
    items, the new position holds the earliest item whose unit is the
    next one in the list of units, and the unit index advances by one. *)
Theorem goToNextAyah_next_unit (s : SessionState) (cur : AyahProgress) :
  currentAyah s = Some cur -> ap_testWithGroup cur = true ->
  uniqueGroups s = uniqueGroupIds (ayahs s) ->
  (ayahIndex s < len (ayahs s) - 1)%Z ->
  (0 <= uniqueGroupIndex s < len (uniqueGroups s) - 1)%Z ->
  exists (g : uuid) (a : AyahProgress) (i : nat),
    nth_error (uniqueGroups s) (Z.to_nat (uniqueGroupIndex s + 1)) = Some g /\
    ayahIndex (goToNextAyah s s) = Z.of_nat i /\
    uniqueGroupIndex (goToNextAyah s s) = (uniqueGroupIndex s + 1)%Z /\
    nth_error (ayahs s) i = Some a /\ unit_key a = g /\
    (forall j b, (j < i)%nat -> nth_error (ayahs s) j = Some b ->
                 unit_key b <> g).
Proof.
  intros Hcur Hgrp Hunits Hidx Hu.
  unfold goToNextAyah. rewrite Hcur, Hgrp.
  destruct (Z.leb_spec (len (ayahs s) - 1) (ayahIndex s)); [lia |].
  destruct (Z.ltb_spec (uniqueGroupIndex s) (len (uniqueGroups s) - 1));
    [| lia].
  destruct (nth_error (uniqueGroups s) (Z.to_nat (uniqueGroupIndex s + 1)))
    as [g |] eqn:Eg.
  2:{ apply nth_error_None in Eg. unfold len in Hu. lia. }
  assert (Hin : In g (uniqueGroupIds (ayahs s))).
  { rewrite <- Hunits. eapply nth_error_In. exact Eg. }
  destruct (unique_loop_origin _ _ _ _ Hin) as [[] | (a0 & Ha0 & Hk0)].
  destruct (findIndex _ (ayahs s)) as [i |] eqn:Ef.
  - destruct (findIndex_some _ _ _ Ef) as (_ & (a & Hnth & Hfa) & Hbefore).
    rewrite unit_test in Hfa. apply Nat.eqb_eq in Hfa.
    exists g, a, i. split; [reflexivity |].
    split; [reflexivity |]. split; [reflexivity |].
    split; [exact Hnth |]. split; [exact Hfa |].
    intros j b Hj Hb. specialize (Hbefore j b Hj Hb).
    rewrite unit_test in Hbefore. now apply Nat.eqb_neq in Hbefore.
  - pose proof (findIndex_none _ _ Ef a0 Ha0) as Hno.
    cbv beta in Hno. rewrite unit_test in Hno.
    apply Nat.eqb_neq in Hno. contradiction.
Qed.

Lemma goToNextAyah_next_unit_witness :
  let rows := [sampleProgress 1 7 1 true; sampleProgress 2 7 2 true;
               sampleProgress 3 8 3 true] in
  let s := mkSession true rows 0 (Some (sampleProgress 1 7 1 true)) None
             [7%nat; 8%nat] 0 0 0 0 None true None in
  exists (g : uuid) (a : AyahProgress) (i : nat),
    nth_error (uniqueGroups s) (Z.to_nat (uniqueGroupIndex s + 1)) = Some g /\
    ayahIndex (goToNextAyah s s) = Z.of_nat i /\
    uniqueGroupIndex (goToNextAyah s s) = (uniqueGroupIndex s + 1)%Z /\
    nth_error (ayahs s) i = Some a /\ unit_key a = g /\
    (forall j b, (j < i)%nat -> nth_error (ayahs s) j = Some b ->
                 unit_key b <> g).
Proof.
  intros rows s.
  apply (goToNextAyah_next_unit s (sampleProgress 1 7 1 true)).
  - reflexivity.
  - reflexivity.
  - reflexivity.
  - cbn. lia.
  - cbn. lia.
Defined.

(** Moving on keeps the position inside the list of items and the unit
    index inside the list of units, never moves the unit index back, and
    changes nothing else; at the last item it does nothing. *)
Theorem goToNextAyah_stays_in_range (s : SessionState) :
  (0 <= ayahIndex s < len (ayahs s))%Z ->
  (uniqueGroupIndex s < len (uniqueGroups s))%Z ->
  let p := goToNextAyah s s in
  (0 <= ayahIndex p < len (ayahs p))%Z /\
  (uniqueGroupIndex s <= uniqueGroupIndex p < len (uniqueGroups p))%Z /\
  ayahs p = ayahs s /\ uniqueGroups p = uniqueGroups s /\
  totalReviewed p = totalReviewed s /\ sessionStats p = sessionStats s /\
  ((len (ayahs s) - 1 <= ayahIndex s)%Z -> p = s).
Proof.
  intros Hi Hu. cbv zeta. unfold goToNextAyah.
  destruct (Z.leb_spec (len (ayahs s) - 1) (ayahIndex s)) as [Hend | Hmid].
  - repeat split; try lia.
  - assert (Hplain :
      let p := setAyahIndex (ayahIndex s + 1) s in
      let q := if (uniqueGroupIndex s <? len (uniqueGroups s) - 1)%Z
               then setUniqueGroupIndex (uniqueGroupIndex s + 1) p else p in
      (0 <= ayahIndex q < len (ayahs q))%Z /\
      (uniqueGroupIndex s <= uniqueGroupIndex q < len (uniqueGroups q))%Z /\
      ayahs q = ayahs s /\ uniqueGroups q = uniqueGroups s /\
      totalReviewed q = totalReviewed s /\ sessionStats q = sessionStats s /\
      ((len (ayahs s) - 1 <= ayahIndex s)%Z -> q = s)).
    { cbv zeta.
      destruct (Z.ltb_spec (uniqueGroupIndex s) (len (uniqueGroups s) - 1));
        cbn; repeat split; lia. }
    destruct (currentAyah s) as [cur |]; [| exact Hplain].
    destruct (ap_testWithGroup cur); [| exact Hplain].
    destruct (Z.ltb_spec (uniqueGroupIndex s) (len (uniqueGroups s) - 1)).
    + destruct (nth_error (uniqueGroups s) _) as [g |].
      * destruct (findIndex _ (ayahs s)) as [i |] eqn:Ef.
        -- destruct (findIndex_some _ _ _ Ef) as (Hlt & _).
           cbn. unfold len in *. repeat split; lia.
        -- cbn. repeat split; lia.
      * cbn. repeat split; lia.
    + repeat split; lia.
Qed.

Lemma goToNextAyah_stays_in_range_witness :
  let p := goToNextAyah sampleSession sampleSession in
  (0 <= ayahIndex p < len (ayahs p))%Z /\
  (uniqueGroupIndex sampleSession <= uniqueGroupIndex p
     < len (uniqueGroups p))%Z.
Proof.
  destruct (goToNextAyah_stays_in_range sampleSession) as (H1 & H2 & _).
  - cbn. lia.
  - cbn. lia.
  - split; assumption.
Defined.

End Navigation.
